(** * repo-explainer: the repository-snapshot builder of [utils.py]

    A shallow embedding of [parse_github_url], [fetch_repo_content],
    [get_file_content], [build_directory_tree] and
    [retrieve_github_repo_info], and the properties of the snapshot
    they assemble; then the response generator and the page script of
    [app.py], which call them.

    Python values are modelled as follows.
    - [str] is [string], the strings over the code points below 256;
      [len] is the number of characters, as an integer.
    - [int] budgets are [Z]; slices follow Python's rule for negative bounds.
    - Exceptions are values of [exn]; a computation returns [Result].
    - The candidate list is a mutable Python list: it lives in a heap of
      list objects and is passed by reference.
    - The hosting API, the base64/UTF-8 decoder and the interpreter's
      recursion limit are the fields of a [World]. *)

From Stdlib Require Import ZArith Lia Bool Ascii String.
From stdpp Require Import base list.

Local Open Scope string_scope.
Local Open Scope Z_scope.

(** ** Python strings *)

Module Py.

Definition nl : string := String "010"%char EmptyString.

Definition len (s : string) : Z := Z.of_nat (String.length s).

(** [s[:n]] for a natural [n]. *)
Fixpoint take (n : nat) (s : string) : string :=
  match n, s with
  | O, _ => EmptyString
  | S _, EmptyString => EmptyString
  | S n', String c s' => String c (take n' s')
  end.

(** [s[n:]] for a natural [n]. *)
Fixpoint drop (n : nat) (s : string) : string :=
  match n, s with
  | O, _ => s
  | S _, EmptyString => EmptyString
  | S n', String _ s' => drop n' s'
  end.

(** [s[:n]] for an integer [n]: a negative bound counts from the end. *)
Definition slice_to (s : string) (n : Z) : string :=
  if 0 <=? n then take (Z.to_nat n) s
  else take (Z.to_nat (len s + n)) s.

(** [s * n]. *)
Fixpoint repeat (s : string) (n : nat) : string :=
  match n with
  | O => EmptyString
  | S n' => s ++ repeat s n'
  end.

(** [s.startswith(p)]. *)
Fixpoint startswith (p s : string) : bool :=
  match p, s with
  | EmptyString, _ => true
  | String _ _, EmptyString => false
  | String a p', String b s' => Ascii.eqb a b && startswith p' s'
  end.

(** [s.endswith(p)]. *)
Definition endswith (s p : string) : bool :=
  (String.length p <=? String.length s)%nat &&
  String.eqb (drop (String.length s - String.length p) s) p.

(** [s.endswith((p1, ..., pn))]. *)
Definition endswith_any (s : string) (ps : list string) : bool :=
  existsb (endswith s) ps.

(** [s.lstrip(c)] for a one-character set. *)
Fixpoint lstrip (c : ascii) (s : string) : string :=
  match s with
  | EmptyString => EmptyString
  | String a s' => if Ascii.eqb a c then lstrip c s' else s
  end.

(** [s.rstrip(c)] for a one-character set. *)
Fixpoint rstrip (c : ascii) (s : string) : string :=
  match s with
  | EmptyString => EmptyString
  | String a s' =>
      match rstrip c s' with
      | EmptyString => if Ascii.eqb a c then EmptyString else String a EmptyString
      | r => String a r
      end
  end.

(** [s.strip(c)]. *)
Definition strip (c : ascii) (s : string) : string := rstrip c (lstrip c s).

(** [s.split(c)] with an explicit one-character separator: every
    occurrence splits, empty pieces are kept, and the result is never
    empty. *)
Fixpoint split (c : ascii) (s : string) : list string :=
  match s with
  | EmptyString => [EmptyString]
  | String a s' =>
      if Ascii.eqb a c then EmptyString :: split c s'
      else match split c s' with
           | [] => [String a EmptyString]
           | x :: xs => String a x :: xs
           end
  end.

(** [x in l] for a list of strings. *)
Definition contains (x : string) (l : list string) : bool :=
  existsb (String.eqb x) l.

(** [c in s] for a character. *)
Fixpoint has_char (c : ascii) (s : string) : bool :=
  match s with
  | EmptyString => false
  | String a s' => Ascii.eqb a c || has_char c s'
  end.

(** [s.find(c)] as an option: the index of the first occurrence. *)
Fixpoint find (c : ascii) (s : string) : option nat :=
  match s with
  | EmptyString => None
  | String a s' =>
      if Ascii.eqb a c then Some O
      else match find c s' with Some i => Some (S i) | None => None end
  end.

(** [s.rfind(c)] as an option: the index of the last occurrence. *)
Fixpoint rfind (c : ascii) (s : string) : option nat :=
  match s with
  | EmptyString => None
  | String a s' =>
      match rfind c s' with
      | Some i => Some (S i)
      | None => if Ascii.eqb a c then Some O else None
      end
  end.

(** [s.lower()] on ASCII letters. *)
Definition lower_char (a : ascii) : ascii :=
  let n := nat_of_ascii a in
  if ((65 <=? n) && (n <=? 90))%nat then ascii_of_nat (n + 32) else a.

Fixpoint lower (s : string) : string :=
  match s with
  | EmptyString => EmptyString
  | String a s' => String (lower_char a) (lower s')
  end.

Fixpoint all_chars (p : ascii -> bool) (s : string) : bool :=
  match s with
  | EmptyString => true
  | String a s' => p a && all_chars p s'
  end.

Fixpoint filter_chars (p : ascii -> bool) (s : string) : string :=
  match s with
  | EmptyString => EmptyString
  | String a s' => if p a then String a (filter_chars p s') else filter_chars p s'
  end.

Fixpoint lstrip_while (p : ascii -> bool) (s : string) : string :=
  match s with
  | EmptyString => EmptyString
  | String a s' => if p a then lstrip_while p s' else s
  end.

(** [s.partition(c)]: the text before the first [c], whether there is
    one, and the text after it. *)
Definition partition (c : ascii) (s : string) : string * bool * string :=
  match find c s with
  | Some i => (take i s, true, drop (S i) s)
  | None => (s, false, EmptyString)
  end.

(** [s.rpartition(c)[2]]: the text after the last [c], and all of [s]
    when there is none. *)
Definition rpartition_tail (c : ascii) (s : string) : string :=
  match rfind c s with
  | Some i => drop (S i) s
  | None => s
  end.

Definition backslash : ascii := "092"%char.
Definition single_quote : ascii := "039"%char.
Definition double_quote : ascii := "034"%char.

Definition hex_digit (n : nat) : ascii :=
  ascii_of_nat (if (n <? 10)%nat then 48 + n else 87 + n).

(** One character of [repr(s)]: the quote and the backslash are escaped,
    tab, line feed and carriage return have their letters, and the other
    characters that are not printable are written with their code in
    hexadecimal. *)
Definition repr_char (quote a : ascii) : string :=
  let n := nat_of_ascii a in
  if Ascii.eqb a quote || Ascii.eqb a backslash
  then String backslash (String a EmptyString)
  else if (n =? 9)%nat then String backslash "t"
  else if (n =? 10)%nat then String backslash "n"
  else if (n =? 13)%nat then String backslash "r"
  else if (n <? 32)%nat || (n =? 127)%nat
          || ((128 <=? n)%nat && (n <=? 160)%nat) || (n =? 173)%nat
  then String backslash
         (String "x" (String (hex_digit (n / 16)) (String (hex_digit (n mod 16)) EmptyString)))
  else String a EmptyString.

Fixpoint repr_chars (quote : ascii) (s : string) : string :=
  match s with
  | EmptyString => EmptyString
  | String a s' => repr_char quote a ++ repr_chars quote s'
  end.

(** [repr(s)]: in single quotes, unless the string has a single quote
    and no double quote. *)
Definition repr (s : string) : string :=
  let quote :=
    if has_char single_quote s && negb (has_char double_quote s)
    then double_quote else single_quote in
  String quote (repr_chars quote s ++ String quote EmptyString).

End Py.

(** ** Exceptions and results *)

(** The exceptions the snapshot builder can meet.  All of them are
    subclasses of Python's [Exception], so an [except Exception] clause
    catches every one.  [LibraryError] stands for the exceptions raised
    inside the libraries ([requests.ConnectionError], [JSONDecodeError],
    [binascii.Error], [UnicodeDecodeError], ...), named by their class. *)
Inductive exn : Type :=
| ValueError (msg : string)
| HTTPError (status : Z)
| TypeError
| RecursionError
| LibraryError (name : string).

Inductive Result (A : Type) : Type :=
| Ok (a : A)
| Raise (e : exn).
Arguments Ok {A} a.
Arguments Raise {A} e.

Definition is_ok {A} (r : Result A) : bool :=
  match r with Ok _ => true | Raise _ => false end.

(** ** [ipaddress.ip_address]

    The standard library's test of an address literal, which [urlparse]
    applies to a host in square brackets.  Only the decision is modelled:
    which strings are IPv4 addresses, which are IPv6 addresses, and the
    [ValueError] for the others. *)

Module Ipaddress.

Definition is_digit (a : ascii) : bool :=
  let n := nat_of_ascii a in ((48 <=? n) && (n <=? 57))%nat.

(** [_HEX_DIGITS]. *)
Definition is_hex_digit (a : ascii) : bool :=
  let n := nat_of_ascii a in
  is_digit a || ((65 <=? n) && (n <=? 70))%nat || ((97 <=? n) && (n <=? 102))%nat.

(** [int(s, 10)] on a string of decimal digits. *)
Fixpoint int10 (acc : N) (s : string) : N :=
  match s with
  | EmptyString => acc
  | String a s' => int10 (10 * acc + (N_of_ascii a - 48))%N s'
  end.

(** ['%x' % n] for [n] below [2 ** 16]. *)
Definition format_x (n : N) : string :=
  let digit := fun d => String (Py.hex_digit (N.to_nat d)) EmptyString in
  (if (4096 <=? n)%N then digit (n / 4096)%N else EmptyString)
  ++ (if (256 <=? n)%N then digit (n / 256 mod 16)%N else EmptyString)
  ++ (if (16 <=? n)%N then digit (n / 16 mod 16)%N else EmptyString)
  ++ digit (n mod 16)%N.

(** [_parse_octet]: the octet is accepted when it is a decimal number of
    one to three ASCII digits, without a leading zero, and at most 255. *)
Definition parse_octet (octet_str : string) : bool :=
  negb (String.eqb octet_str EmptyString)
  && Py.all_chars is_digit octet_str
  && (String.length octet_str <=? 3)%nat
  && negb (negb (String.eqb octet_str "0") && Py.startswith "0" octet_str)
  && (int10 0 octet_str <=? 255)%N.

(** [IPv4Address(address)] is constructed: four accepted octets. *)
Definition IPv4Address (address : string) : bool :=
  negb (Py.has_char "/" address)
  && negb (String.eqb address EmptyString)
  && (let octets := Py.split "." address in
      (length octets =? 4)%nat && forallb parse_octet octets).

(** [_parse_hextet]: one to four hexadecimal digits ([int('', 16)]
    raises for the empty string). *)
Definition parse_hextet (hextet_str : string) : bool :=
  Py.all_chars is_hex_digit hextet_str
  && (String.length hextet_str <=? 4)%nat
  && negb (String.eqb hextet_str EmptyString).

(** The indices, counted from [i], of the empty strings of a list. *)
Fixpoint empty_indices (i : nat) (parts : list string) : list nat :=
  match parts with
  | [] => []
  | part :: parts' =>
      if String.eqb part EmptyString then i :: empty_indices (S i) parts'
      else empty_indices (S i) parts'
  end.

(** The parts after an IPv4-style suffix has been converted to two
    hextets; [None] when the suffix is not an IPv4 address. *)
Definition convert_suffix (parts : list string) : option (list string) :=
  let suffix := List.last parts EmptyString in
  if Py.has_char "." suffix then
    if IPv4Address suffix then
      match map (int10 0) (Py.split "." suffix) with
      | [o1; o2; o3; o4] =>
          Some (removelast parts
                ++ [format_x (256 * o1 + o2)%N; format_x (256 * o3 + o4)%N])%list
      | _ => None
      end
    else None
  else Some parts.

(** [IPv6Address._ip_int_from_string], as far as it accepts or rejects. *)
Definition ip_int_from_string (ip_str : string) : bool :=
  if String.eqb ip_str EmptyString then false
  else
    let parts := Py.split ":" ip_str in
    (* An IPv6 address needs at least 2 colons (3 parts). *)
    if (length parts <? 3)%nat then false
    else
      match convert_suffix parts with
      | None => false
      | Some parts =>
          (* An IPv6 address can't have more than 8 colons (9 parts). *)
          if (9 <? length parts)%nat then false
          else
            let first_empty := String.eqb (hd EmptyString parts) EmptyString in
            let last_empty := String.eqb (List.last parts EmptyString) EmptyString in
            (* Disregarding the endpoints, find '::' with nothing in between. *)
            match empty_indices 1 (removelast (tl parts)) with
            | [] =>
                (length parts =? 8)%nat && negb first_empty && negb last_empty
                && forallb parse_hextet parts
            | [skip_index] =>
                let parts_hi := if first_empty then (skip_index - 1)%nat else skip_index in
                let parts_lo :=
                  if last_empty then (length parts - skip_index - 1 - 1)%nat
                  else (length parts - skip_index - 1)%nat in
                if first_empty && negb (parts_hi =? 0)%nat then false
                else if last_empty && negb (parts_lo =? 0)%nat then false
                else if (8 <=? parts_hi + parts_lo)%nat then false
                else forallb parse_hextet (firstn parts_hi parts)
                     && forallb parse_hextet (skipn (length parts - parts_lo) parts)
            | _ => false              (* At most one '::' permitted *)
            end
      end.

(** [IPv6Address(address)] is constructed: an optional scope id after a
    percent sign, and an accepted address before it. *)
Definition IPv6Address (address : string) : bool :=
  negb (Py.has_char "/" address)
  && (let '(addr, sep, scope_id) := Py.partition "%" address in
      negb (sep && (String.eqb scope_id EmptyString || Py.has_char "%" scope_id))
      && ip_int_from_string addr).

Inductive Version : Type := IPv4 | IPv6.

Definition ip_address (address : string) : Result Version :=
  if IPv4Address address then Ok IPv4
  else if IPv6Address address then Ok IPv6
  else Raise (ValueError
                (Py.repr address ++ " does not appear to be an IPv4 or IPv6 address")).

End Ipaddress.

(** ** [urllib.parse.urlparse]

    A model of the standard library's parser (CPython 3.11, with the
    validation of bracketed hosts), on strings over the code points
    below 256.  The NFKC check of a non-ASCII host never raises on these
    strings, because no character below 256 normalizes to a text with one
    of [/?#@:], so it does not appear. *)

Module Urllib.

Record ParseResult : Type := {
  scheme : string;
  netloc : string;
  path : string;
  params : string;
  query : string;
  fragment : string
}.

Definition is_ascii_alpha (a : ascii) : bool :=
  let n := nat_of_ascii a in
  ((65 <=? n) && (n <=? 90) || (97 <=? n) && (n <=? 122))%nat.

Definition is_digit (a : ascii) : bool :=
  let n := nat_of_ascii a in ((48 <=? n) && (n <=? 57))%nat.

(** [scheme_chars]: letters, digits and [+-.]. *)
Definition scheme_char (a : ascii) : bool :=
  is_ascii_alpha a || is_digit a || Py.has_char a "+-.".

(** [_WHATWG_C0_CONTROL_OR_SPACE]: the characters up to the space. *)
Definition c0_control_or_space (a : ascii) : bool :=
  (nat_of_ascii a <=? 32)%nat.

(** [_UNSAFE_URL_BYTES_TO_REMOVE]: tab, carriage return, line feed. *)
Definition unsafe_url_byte (a : ascii) : bool :=
  let n := nat_of_ascii a in ((n =? 9) || (n =? 13) || (n =? 10))%nat.

Definition uses_params : list string :=
  [""; "ftp"; "hdl"; "prospero"; "http"; "imap"; "https"; "shttp"; "rtsp";
   "rtspu"; "sip"; "sips"; "mms"; "sftp"; "tel"].

Definition netloc_delim (a : ascii) : bool := Py.has_char a "/?#".

Fixpoint take_until (p : ascii -> bool) (s : string) : string :=
  match s with
  | EmptyString => EmptyString
  | String a s' => if p a then EmptyString else String a (take_until p s')
  end.

Fixpoint drop_until (p : ascii -> bool) (s : string) : string :=
  match s with
  | EmptyString => EmptyString
  | String a s' => if p a then s else drop_until p s'
  end.

(** [_splitnetloc(url, 2)]: the host part runs up to the first of [/?#]. *)
Definition splitnetloc (url : string) : string * string :=
  let rest := Py.drop 2 url in
  (take_until netloc_delim rest, drop_until netloc_delim rest).

(** The scheme is split off when the text before the first colon is a
    non-empty run of scheme characters that starts with a letter. *)
Definition split_scheme (url : string) : string * string :=
  match Py.find ":" url, url with
  | Some (S i), String c _ =>
      if is_ascii_alpha c && Py.all_chars scheme_char (Py.take (S i) url)
      then (Py.lower (Py.take (S i) url), Py.drop (S (S i)) url)
      else (EmptyString, url)
  | _, _ => (EmptyString, url)
  end.

(** [_splitparams]: the parameters of the last path segment. *)
Definition splitparams (url : string) : string * string :=
  match Py.rfind "/" url with
  | Some j =>
      match Py.find ";" (Py.drop j url) with
      | Some k => (Py.take (j + k) url, Py.drop (S (j + k)) url)
      | None => (url, EmptyString)
      end
  | None =>
      match Py.find ";" url with
      | Some i => (Py.take i url, Py.drop (S i) url)
      | None => (Py.slice_to url (-1), url)
      end
  end.

Definition split_at (c : ascii) (url : string) : string * string :=
  match Py.find c url with
  | Some i => (Py.take i url, Py.drop (S i) url)
  | None => (url, EmptyString)
  end.

(** The regular expression of an IPvFuture literal: a [v], one or more
    hexadecimal digits, a dot and at least one more character, none of
    them a line feed. *)
Definition ipvfuture (hostname : string) : bool :=
  match hostname with
  | String "v" rest =>
      let not_hex := fun a => negb (Ipaddress.is_hex_digit a) in
      let digits := take_until not_hex rest in
      let after := drop_until not_hex rest in
      negb (String.eqb digits EmptyString)
      && Py.startswith "." after
      && negb (String.eqb (Py.drop 1 after) EmptyString)
      && negb (Py.has_char "010" (Py.drop 1 after))
  | _ => false
  end.

(** [_check_bracketed_host]. *)
Definition check_bracketed_host (hostname : string) : Result unit :=
  if Py.startswith "v" hostname then
    if ipvfuture hostname then Ok tt
    else Raise (ValueError "IPvFuture address is invalid")
  else
    match Ipaddress.ip_address hostname with
    | Raise e => Raise e
    | Ok Ipaddress.IPv4 => Raise (ValueError "An IPv4 address cannot be in brackets")
    | Ok Ipaddress.IPv6 => Ok tt
    end.

(** [_check_bracketed_netloc]. *)
Definition check_bracketed_netloc (netloc : string) : Result unit :=
  let hostname_and_port := Py.rpartition_tail "@" netloc in
  let '(before_bracket, have_open_br, bracketed) := Py.partition "[" hostname_and_port in
  if have_open_br then
    (* No data is allowed before a bracket. *)
    if negb (String.eqb before_bracket EmptyString)
    then Raise (ValueError "Invalid IPv6 URL")
    else
      let '(hostname, _, port) := Py.partition "]" bracketed in
      (* No data is allowed after the bracket but before the port delimiter. *)
      if negb (String.eqb port EmptyString) && negb (Py.startswith ":" port)
      then Raise (ValueError "Invalid IPv6 URL")
      else check_bracketed_host hostname
  else
    let '(hostname, _, port) := Py.partition ":" hostname_and_port in
    check_bracketed_host hostname.

(** The checks of [urlsplit] on the host part. *)
Definition check_netloc (netloc : string) : Result unit :=
  if Py.has_char "[" netloc && negb (Py.has_char "]" netloc)
     || Py.has_char "]" netloc && negb (Py.has_char "[" netloc)
  then Raise (ValueError "Invalid IPv6 URL")
  else if Py.has_char "[" netloc && Py.has_char "]" netloc
  then check_bracketed_netloc netloc
  else Ok tt.

Definition urlparse (url0 : string) : Result ParseResult :=
  let url := Py.lstrip_while c0_control_or_space url0 in
  let url := Py.filter_chars (fun a => negb (unsafe_url_byte a)) url in
  let '(scheme, url) := split_scheme url in
  let '(netloc, url) :=
    if Py.startswith "//" url then splitnetloc url else (EmptyString, url) in
  match check_netloc netloc with
  | Raise e => Raise e
  | Ok _ =>
      let '(url, fragment) := split_at "#" url in
      let '(url, query) := split_at "?" url in
      let '(url, params) :=
        if Py.contains scheme uses_params && Py.has_char ";" url
        then splitparams url else (url, EmptyString) in
      Ok {| scheme := scheme; netloc := netloc; path := url;
            params := params; query := query; fragment := fragment |}
  end.

End Urllib.

(** ** [parse_github_url] *)

Definition parse_github_url (url : string) : Result (string * string) :=
  match Urllib.urlparse url with
  | Raise e => Raise e
  | Ok parsed_url =>
      let path_segments := Py.split "/" (Py.strip "/" (Urllib.path parsed_url)) in
      if (2 <=? length path_segments)%nat then
        let owner := nth 0 path_segments EmptyString in
        let repo := nth 1 path_segments EmptyString in
        (* Support clone URLs ending in .git *)
        let repo := if Py.endswith repo ".git" then Py.slice_to repo (-4) else repo in
        Ok (owner, repo)
      else Raise (ValueError "Invalid GitHub URL provided!")
  end.

(** ** The hosting API and the interpreter state *)

(** An entry of a directory listing: [item['name']], [item['path']],
    [item['type']]. *)
Record DirectoryEntry : Type := {
  item_name : string;
  item_path : string;
  item_type : string
}.

(** A file record: [file_info['encoding']], [file_info['content']]. *)
Record FileRecord : Type := {
  encoding : string;
  content : string
}.

(** What [response.json()] returns for the contents API: an object for a
    file, an array of entries for a directory. *)
Inductive Json : Type :=
| JFile (file_info : FileRecord)
| JListing (items : list DirectoryEntry).

(** A Python value that is either [None] or a parsed body. *)
Definition PyValue : Type := option Json.

Record Request : Type := {
  req_url : string;
  req_headers : list (string * string)
}.

(** The response object: [response.status_code] and the outcome of
    [response.json()], which raises when the body is not JSON. *)
Record Response : Type := {
  status_code : Z;
  json : Result Json
}.

(** The collaborators of the snapshot builder: [requests.get] (which can
    raise on a transport failure), [base64.b64decode(s).decode('utf-8')]
    and the number of nested walker calls the interpreter's recursion
    limit leaves room for. *)
Record World : Type := {
  requests_get : Request -> Result Response;
  b64decode_utf8 : string -> Result string;
  recursion_limit : nat
}.

(** A candidate file reference: the tuple [(indent, path)]. *)
Definition Candidate : Type := nat * string.

(** A reference to a Python list object in the heap. *)
Definition loc : Type := nat.

(** The interpreter state the builder touches: the list objects it has
    allocated and the requests it has sent, oldest first. *)
Record State : Type := {
  heap : list (list Candidate);
  sent : list Request
}.

Definition M (A : Type) : Type := State -> Result A * State.

Definition ret {A} (a : A) : M A := fun st => (Ok a, st).

Definition raise {A} (e : exn) : M A := fun st => (Raise e, st).

Definition lift {A} (r : Result A) : M A := fun st => (r, st).

Definition bind {A B} (m : M A) (k : A -> M B) : M B :=
  fun st =>
    match m st with
    | (Ok a, st') => k a st'
    | (Raise e, st') => (Raise e, st')
    end.

(** [try: m except Exception: h]. *)
Definition try_except {A} (m : M A) (h : exn -> M A) : M A :=
  fun st =>
    match m st with
    | (Ok a, st') => (Ok a, st')
    | (Raise e, st') => h e st'
    end.

Notation "'let*' x ':=' m 'in' k" := (bind m (fun x => k))
  (at level 10, x pattern, m at level 100, k at level 200).

(** [[]]: a fresh list object. *)
Definition new_list : M loc :=
  fun st => (Ok (length (heap st)),
             {| heap := (heap st ++ [[]])%list; sent := sent st |}).

(** [l.append(c)]. *)
Definition list_append (l : loc) (c : Candidate) : M unit :=
  fun st => (Ok tt,
             {| heap := alter (fun cs => (cs ++ [c])%list) l (heap st); sent := sent st |}).

(** The elements of the list object [l], as iteration reads them. *)
Definition list_read (l : loc) : M (list Candidate) :=
  fun st => (Ok (default [] (heap st !! l)), st).

(** [requests.get(url, headers=headers)]: the request goes out, then the
    response or the transport failure comes back. *)
Definition http_get (w : World) (rq : Request) : M Response :=
  fun st => (requests_get w rq,
             {| heap := heap st; sent := (sent st ++ [rq])%list |}).

(** [d[k] = v] on a dictionary kept in insertion order. *)
Fixpoint dict_set (d : list (string * string)) (k v : string) : list (string * string) :=
  match d with
  | [] => [(k, v)]
  | (k', v') :: d' => if String.eqb k' k then (k, v) :: d' else (k', v') :: dict_set d' k v
  end.

(** [d.get(k)]. *)
Fixpoint dict_get (d : list (string * string)) (k : string) : option string :=
  match d with
  | [] => None
  | (k', v') :: d' => if String.eqb k' k then Some v' else dict_get d' k
  end.

(** ** [fetch_repo_content] *)

(** The truth value of [token]: [None] and the empty string are false. *)
Definition truthy (token : option string) : bool :=
  match token with
  | None => false
  | Some t => negb (String.eqb t EmptyString)
  end.

(** [response.raise_for_status()] of [requests]: an [HTTPError] for the
    client and server error classes, and a plain return otherwise. *)
Definition raise_for_status (response : Response) : M unit :=
  if (400 <=? status_code response) && (status_code response <? 600)
  then raise (HTTPError (status_code response))
  else ret tt.

Definition fetch_request (owner repo path : string) (token : option string) : Request :=
  let base_url :=
    "https://api.github.com/repos/" ++ owner ++ "/" ++ repo ++ "/contents/" ++ path in
  let headers := [("Accept", "application/vnd.github.v3+json")] in
  let headers :=
    if truthy token
    then dict_set headers "Authorization" ("Bearer " ++ default EmptyString token)
    else headers in
  {| req_url := base_url; req_headers := headers |}.

Definition fetch_repo_content (w : World) (owner repo path : string)
    (token : option string) : M PyValue :=
  let* response := http_get w (fetch_request owner repo path token) in
  if status_code response =? 200 then
    let* body := lift (json response) in ret (Some body)
  else
    let* _ := raise_for_status response in ret None.

(** ** [get_file_content] *)

Definition get_file_content (w : World) (file_info : PyValue) : Result string :=
  match file_info with
  | Some (JFile f) =>
      if String.eqb (encoding f) "base64" then b64decode_utf8 w (content f)
      else Ok (content f)
  | Some (JListing _) => Raise TypeError   (* list indices must be integers *)
  | None => Raise TypeError                (* 'NoneType' object is not subscriptable *)
  end.

(** ** [build_directory_tree] *)

(** The file extensions whose files are included in the prompt. *)
Definition text_extensions : list string :=
  [".py"; ".html"; ".css"; ".js"; ".jsx"; ".rst"; ".md"].

(** The test of line 57: a segment of the path is named [.github]. *)
Definition in_github_dir (item : DirectoryEntry) : bool :=
  Py.contains ".github" (Py.split "/" (item_path item)).

(** [for item in items]: a listing is iterated entry by entry; iterating
    a file object yields its keys, and subscripting a key with ['path']
    is a [TypeError], as is iterating [None]. *)
Definition iter_items (items : PyValue) : Result (list DirectoryEntry) :=
  match items with
  | Some (JListing l) => Ok l
  | Some (JFile _) => Raise TypeError
  | None => Raise TypeError
  end.

(** The body of the loop of lines 55-67, with the recursive call [rec]
    taken as an argument. *)
Fixpoint for_items (rec : string -> nat -> loc -> M (string * loc))
    (indent : nat) (file_paths : loc) (items : list DirectoryEntry)
    (tree_str : string) : M string :=
  match items with
  | [] => ret tree_str
  | item :: rest =>
      (* Skip GitHub meta/config directories *)
      if in_github_dir item then for_items rec indent file_paths rest tree_str
      else if String.eqb (item_type item) "dir" then
        let tree_str :=
          tree_str ++ (Py.repeat "    " indent ++ ("[" ++ item_name item ++ "/]" ++ Py.nl)) in
        let* (subtree_str, _) := rec (item_path item) (indent + 1)%nat file_paths in
        for_items rec indent file_paths rest (tree_str ++ subtree_str)
      else
        let tree_str :=
          tree_str ++ (Py.repeat "    " indent ++ (item_name item ++ Py.nl)) in
        let* _ :=
          if Py.endswith_any (item_name item) text_extensions
          then list_append file_paths (indent, item_path item)
          else ret tt in
        for_items rec indent file_paths rest tree_str
  end.

(** [depth] is the number of nested calls the recursion limit still
    allows; a call beyond it raises [RecursionError]. *)
Fixpoint build_directory_tree (w : World) (depth : nat) (owner repo path : string)
    (token : option string) (indent : nat) (file_paths : option loc)
    : M (string * loc) :=
  match depth with
  | O => raise RecursionError
  | S depth' =>
      let* file_paths :=
        match file_paths with
        | None => new_list
        | Some l => ret l
        end in
      let* items := fetch_repo_content w owner repo path token in
      let* items := lift (iter_items items) in
      let* tree_str :=
        for_items
          (fun path indent file_paths =>
             build_directory_tree w depth' owner repo path token indent (Some file_paths))
          indent file_paths items EmptyString in
      ret (tree_str, file_paths)
  end.

(** ** [retrieve_github_repo_info] *)

Definition truncation_marker : string := Py.nl ++ "... [truncated]" ++ Py.nl.

(** The truncation of lines 86-87 and 103-104. *)
Definition truncate (max_file_chars : Z) (file_content : string) : string :=
  if Py.len file_content >? max_file_chars
  then Py.slice_to file_content max_file_chars ++ truncation_marker
  else file_content.

Definition readme_block (readme_content : string) : string :=
  "README.md:" ++ Py.nl ++ "```" ++ Py.nl ++ readme_content ++ Py.nl ++ "```" ++ Py.nl ++ Py.nl.

Definition readme_placeholder : string :=
  "README.md: Not found or error fetching README" ++ Py.nl ++ Py.nl.

(** Lines 83-90. *)
Definition readme_section (w : World) (owner repo : string) (token : option string)
    (max_file_chars : Z) : M string :=
  try_except
    (let* readme_info := fetch_repo_content w owner repo "README.md" token in
     let* readme_content := lift (get_file_content w readme_info) in
     let readme_content := truncate max_file_chars readme_content in
     ret (readme_block readme_content))
    (fun _ => ret readme_placeholder).

(** The block of line 105. *)
Definition snippet_of (indent : nat) (path file_content : string) : string :=
  Py.nl ++ Py.repeat "    " indent ++ path ++ ":" ++ Py.nl
  ++ Py.repeat "    " indent ++ "```" ++ Py.nl
  ++ file_content ++ Py.nl
  ++ Py.repeat "    " indent ++ "```" ++ Py.nl.

(** Lines 101-105: fetch, decode, truncate and format one candidate. *)
Definition file_snippet (w : World) (owner repo : string) (token : option string)
    (max_file_chars : Z) (indent : nat) (path : string) : M string :=
  let* file_info := fetch_repo_content w owner repo path token in
  let* file_content := lift (get_file_content w file_info) in
  let file_content := truncate max_file_chars file_content in
  ret (snippet_of indent path file_content).

(** The loop of lines 97-117 over the collected candidates. *)
Fixpoint for_file_paths (w : World) (owner repo : string) (token : option string)
    (max_files max_file_chars total_chars_cap : Z)
    (file_paths : list Candidate) (formatted_string : string) (files_added : Z)
    : M string :=
  match file_paths with
  | [] => ret formatted_string
  | (indent, path) :: rest =>
      if (files_added >=? max_files) || (Py.len formatted_string >=? total_chars_cap)
      then ret formatted_string                                  (* break *)
      else
        let* attempt :=
          try_except
            (let* snippet := file_snippet w owner repo token max_file_chars indent path in
             ret (Some snippet))
            (fun _ => ret None) in
        match attempt with
        | None =>
            (* Skip files that cannot be fetched *)
            for_file_paths w owner repo token max_files max_file_chars total_chars_cap
              rest formatted_string files_added                  (* continue *)
        | Some snippet =>
            (* Enforce total cap *)
            if Py.len formatted_string + Py.len snippet >? total_chars_cap then
              let remaining := Z.max (total_chars_cap - Py.len formatted_string) 0 in
              let snippet :=
                if remaining >? 0 then Py.slice_to snippet remaining else snippet in
              ret (formatted_string ++ snippet)                  (* break *)
            else
              for_file_paths w owner repo token max_files max_file_chars total_chars_cap
                rest (formatted_string ++ snippet) (files_added + 1)
        end
  end.

Definition tree_section (directory_tree : string) : string :=
  "Directory Structure:" ++ Py.nl ++ directory_tree ++ Py.nl.

Definition retrieve_github_repo_info (w : World) (url : string) (token : option string)
    (max_files max_file_chars total_chars_cap : Z) : M string :=
  let* (owner, repo) := lift (parse_github_url url) in
  let* formatted_string := readme_section w owner repo token max_file_chars in
  let* (directory_tree, file_paths) :=
    build_directory_tree w (recursion_limit w) owner repo EmptyString token 0 None in
  let formatted_string := formatted_string ++ tree_section directory_tree in
  let* file_paths := list_read file_paths in
  for_file_paths w owner repo token max_files max_file_chars total_chars_cap
    file_paths formatted_string 0.

(** The defaults of the signature. *)
Definition default_max_files : Z := 80.
Definition default_max_file_chars : Z := 15000.
Definition default_total_chars_cap : Z := 200000.

(** The state of a fresh interpreter. *)
Definition initial_state : State := {| heap := []; sent := [] |}.

(** ** A mocked repository *)

Module Mock.

Definition entry (name path type : string) : DirectoryEntry :=
  {| item_name := name; item_path := path; item_type := type |}.

Definition raw (s : string) : Json := JFile {| encoding := "none"; content := s |}.

Definition b64 (s : string) : Json := JFile {| encoding := "base64"; content := s |}.

Definition ok (j : Json) : Result Response := Ok {| status_code := 200; json := Ok j |}.

Definition status (code : Z) : Result Response :=
  Ok {| status_code := code; json := Raise (LibraryError "JSONDecodeError") |}.

Definition api (p : string) : string :=
  "https://api.github.com/repos/acme/widgets/contents/" ++ p.

(** The repository acme/widgets: a README, a [.github] directory with a
    workflow, a source directory with two files, and three more files at
    the root. *)
Definition widgets_table : list (string * Result Response) :=
  [ (api "", ok (JListing
       [ entry "README.md" "README.md" "file";
         entry ".github" ".github" "dir";
         entry "ci.yml" ".github/workflows/ci.yml" "file";
         entry "src" "src" "dir";
         entry "setup.py" "setup.py" "file";
         entry "style.css" "style.css" "file";
         entry "logo.png" "logo.png" "file" ]));
    (api "README.md", ok (b64 "SGVsbG8gd2lkZ2V0cw=="));
    (api ".github", ok (JListing [ entry "workflows" ".github/workflows" "dir" ]));
    (api ".github/workflows",
       ok (JListing [ entry "ci.yml" ".github/workflows/ci.yml" "file" ]));
    (api "src", ok (JListing
       [ entry "main.py" "src/main.py" "file";
         entry "app.js" "src/app.js" "file" ]));
    (api "src/main.py", ok (raw "print('01234567890123456789012345678901234567890')"));
    (api "src/app.js", ok (raw "let x = 1;"));
    (api "setup.py", ok (raw "setup(ab)"));
    (api "style.css", ok (raw "body { margin: 0 }")) ].

Fixpoint lookup_url (t : list (string * Result Response)) (u : string) : Result Response :=
  match t with
  | [] => status 404
  | (u', r) :: t' => if String.eqb u' u then r else lookup_url t' u
  end.

(** The decoder on the bodies the mock serves. *)
Definition decoder (s : string) : Result string :=
  if String.eqb s "SGVsbG8gd2lkZ2V0cw==" then Ok "Hello widgets"
  else Raise (LibraryError "binascii.Error").

Definition serve (t : list (string * Result Response)) : World :=
  {| requests_get := fun rq => lookup_url t (req_url rq);
     b64decode_utf8 := decoder;
     recursion_limit := 50 |}.

Definition widgets : World := serve widgets_table.

(** The same repository when [src/app.js] and the README have been
    deleted since the listing was made. *)
Definition widgets_flaky : World :=
  serve ((api "src/app.js", status 404) :: (api "README.md", status 404)
         :: widgets_table).

(** The same repository when the listing of [src] is refused. *)
Definition widgets_forbidden : World :=
  serve ((api "src", status 403) :: widgets_table).

(** A server that answers every request with 304 Not Modified. *)
Definition not_modified : World :=
  {| requests_get := fun _ => status 304;
     b64decode_utf8 := decoder;
     recursion_limit := 50 |}.

(** A repository with nothing in it and no README. *)
Definition empty_repository : World := serve [ (api "", ok (JListing [])) ].

Definition url : string := "https://github.com/acme/widgets.git".

End Mock.

(** ** The functional reading of the effectful code

    Each effectful function is determined by the world: what it returns,
    which candidates it appends and which requests it sends do not depend
    on the state it starts from.  The definitions below give these three
    components; the refinement lemmas further down relate them to the
    code above. *)

(** The outcome of [fetch_repo_content], apart from the request sent. *)
Definition fetch_result (w : World) (owner repo path : string)
    (token : option string) : Result PyValue :=
  match requests_get w (fetch_request owner repo path token) with
  | Raise e => Raise e
  | Ok response =>
      if status_code response =? 200 then
        match json response with
        | Ok body => Ok (Some body)
        | Raise e => Raise e
        end
      else if (400 <=? status_code response) && (status_code response <? 600)
      then Raise (HTTPError (status_code response))
      else Ok None
  end.

(** The state after one more request. *)
Definition logged (rq : Request) (st : State) : State :=
  {| heap := heap st; sent := (sent st ++ [rq])%list |}.

(** The decoded body of the file at [path], when it can be had:
    [get_file_content(fetch_repo_content(owner, repo, path, token))]. *)
Definition file_content_result (w : World) (owner repo : string)
    (token : option string) (path : string) : Result string :=
  match fetch_result w owner repo path token with
  | Raise e => Raise e
  | Ok file_info => get_file_content w file_info
  end.

(** The outcome of [file_snippet]. *)
Definition snippet_result (w : World) (owner repo : string) (token : option string)
    (max_file_chars : Z) (indent : nat) (path : string) : Result string :=
  match file_content_result w owner repo token path with
  | Raise e => Raise e
  | Ok file_content =>
      Ok (snippet_of indent path (truncate max_file_chars file_content))
  end.

(** The text [readme_section] produces. *)
Definition readme_text (w : World) (owner repo : string) (token : option string)
    (max_file_chars : Z) : string :=
  match file_content_result w owner repo token "README.md" with
  | Ok readme_content => readme_block (truncate max_file_chars readme_content)
  | Raise _ => readme_placeholder
  end.

(** A value, the candidates appended and the requests sent. *)
Definition Outcome (A : Type) : Type := Result A * list Candidate * list Request.

Fixpoint items_outcome (rec : string -> nat -> Outcome string)
    (indent : nat) (items : list DirectoryEntry) (tree_str : string) : Outcome string :=
  match items with
  | [] => (Ok tree_str, [], [])
  | item :: rest =>
      if in_github_dir item then items_outcome rec indent rest tree_str
      else if String.eqb (item_type item) "dir" then
        let tree_str :=
          tree_str ++ (Py.repeat "    " indent ++ ("[" ++ item_name item ++ "/]" ++ Py.nl)) in
        match rec (item_path item) (indent + 1)%nat with
        | (Ok subtree_str, cs, rs) =>
            let '(res, cs', rs') :=
              items_outcome rec indent rest (tree_str ++ subtree_str) in
            (res, (cs ++ cs')%list, (rs ++ rs')%list)
        | (Raise e, cs, rs) => (Raise e, cs, rs)
        end
      else
        let tree_str :=
          tree_str ++ (Py.repeat "    " indent ++ (item_name item ++ Py.nl)) in
        let cs :=
          if Py.endswith_any (item_name item) text_extensions
          then [(indent, item_path item)] else [] in
        let '(res, cs', rs') := items_outcome rec indent rest tree_str in
        (res, (cs ++ cs')%list, rs')
  end.

Fixpoint walk (w : World) (depth : nat) (owner repo path : string)
    (token : option string) (indent : nat) : Outcome string :=
  match depth with
  | O => (Raise RecursionError, [], [])
  | S depth' =>
      let rq := fetch_request owner repo path token in
      match fetch_result w owner repo path token with
      | Raise e => (Raise e, [], [rq])
      | Ok items =>
          match iter_items items with
          | Raise e => (Raise e, [], [rq])
          | Ok items =>
              let '(res, cs, rs) :=
                items_outcome
                  (fun path indent => walk w depth' owner repo path token indent)
                  indent items EmptyString in
              (res, cs, rq :: rs)
          end
      end
  end.

(** The state after appending [cs] to the list object [l] and sending [rs]. *)
Definition extended (l : loc) (cs : list Candidate) (rs : list Request) (st : State) : State :=
  {| heap := alter (fun old => (old ++ cs)%list) l (heap st);
     sent := (sent st ++ rs)%list |}.

Definition value {A} (o : Outcome A) : Result A := fst (fst o).
Definition appended {A} (o : Outcome A) : list Candidate := snd (fst o).
Definition requested {A} (o : Outcome A) : list Request := snd o.

(** The walker's return value: the tree string paired with the list
    object it was given or has allocated. *)
Definition with_loc (l : loc) (r : Result string) : Result (string * loc) :=
  match r with
  | Ok tree_str => Ok (tree_str, l)
  | Raise e => Raise e
  end.

(** The state after a walk that started without an accumulator: the
    fresh list object holds the collected candidates (no object is
    allocated when the call itself exceeds the recursion limit). *)
Definition walked (depth : nat) (o : Outcome string) (st : State) : State :=
  {| heap := (heap st ++ match depth with O => [] | S _ => [appended o] end)%list;
     sent := (sent st ++ requested o)%list |}.

(** A candidate whose body can be fetched and decoded. *)
Definition fetchable (w : World) (owner repo : string) (token : option string)
    (max_file_chars : Z) (c : Candidate) : bool :=
  is_ok (snippet_result w owner repo token max_file_chars (fst c) (snd c)).


Definition concat_all (l : list string) : string := fold_right append EmptyString l.

(** What the caller of the walker sees: the tree string and the elements
    of the list object that came back. *)
Definition observe (r : Result (string * loc)) (st : State)
    : Result (string * list Candidate) :=
  match r with
  | Ok (tree_str, l) => Ok (tree_str, default [] (heap st !! l))
  | Raise e => Raise e
  end.

(** A request the walker sends for a path outside [.github]. *)
Definition outside_request (owner repo : string) (token : option string)
    (rq : Request) : Prop :=
  exists p, rq = fetch_request owner repo p token
            /\ Py.contains ".github" (Py.split "/" p) = false.

(** A candidate whose path is outside [.github]. *)
Definition outside_candidate (c : Candidate) : Prop :=
  Py.contains ".github" (Py.split "/" (snd c)) = false.


(** A request of the contents API for this repository, sent with the
    headers that go with this token. *)
Definition repo_request (owner repo : string) (token : option string)
    (rq : Request) : Prop :=
  exists path, rq = fetch_request owner repo path token.

(** A character that [urlparse] leaves in the path: not one of [?#;] and
    not a tab, carriage return or line feed. *)
Definition url_char (a : ascii) : bool :=
  negb (Py.has_char a "?#;") && negb (Urllib.unsafe_url_byte a).

(** A character of an owner or repository name: as above, and not a slash. *)
Definition segment_char (a : ascii) : bool :=
  url_char a && negb (Ascii.eqb a "/").

(** The line of the tree for a file entry at depth [indent]. *)
Definition file_line (indent : nat) (item : DirectoryEntry) : string :=
  Py.repeat "    " indent ++ (item_name item ++ Py.nl).

(** An entry the walker renders and treats as a file. *)
Definition rendered_file (item : DirectoryEntry) : bool :=
  negb (in_github_dir item) && negb (String.eqb (item_type item) "dir").

(** A file entry the walker collects as a candidate. *)
Definition collected (item : DirectoryEntry) : bool :=
  negb (in_github_dir item) && Py.endswith_any (item_name item) text_extensions.

(** ** The text of a snapshot, spelled out

    The statements about what a snapshot contains are made on the texts
    below, which are written down from the format of the snapshot and
    not by way of the functions that build it. *)

(** A line at depth [indent]: four spaces for each level, the text, a
    line end. *)
Definition indented (indent : nat) (line : string) : string :=
  Py.repeat "    " indent ++ line ++ Py.nl.

(** What is embedded of a decoded body under the budget
    [max_file_chars]: the body itself when it is not longer, and
    otherwise its slice [body[:max_file_chars]] followed by the marker. *)
Definition embedded_body (max_file_chars : Z) (body : string) : string :=
  if Py.len body <=? max_file_chars then body
  else Py.slice_to body max_file_chars ++ Py.nl ++ "... [truncated]" ++ Py.nl.

(** The block of a candidate file: an empty line, the path with a colon,
    and the text between two fences. *)
Definition file_block (indent : nat) (path shown : string) : string :=
  Py.nl ++ indented indent (path ++ ":") ++ indented indent "```"
  ++ shown ++ Py.nl ++ indented indent "```".

(** The README section of a README that could be had. *)
Definition fenced_readme (shown : string) : string :=
  "README.md:" ++ Py.nl ++ "```" ++ Py.nl ++ shown ++ Py.nl ++ "```" ++ Py.nl ++ Py.nl.


(** ** Failures during the traversal

    Which exception of a fetch the depth-first traversal meets first,
    read off the listings the hosting API serves. *)

Section Traversal.

Variable w : World.
Variables owner repo : string.
Variable token : option string.

(** The walk of the directory [path] comes back: its listing is
    fetched, and so are, in turn, those of the directories in it that
    are outside [.github].  [depth] bounds the nesting. *)
Inductive walk_returns : nat -> string -> Prop :=
| walk_returns_listing (depth : nat) (path : string) (items : list DirectoryEntry) :
    fetch_result w owner repo path token = Ok (Some (JListing items)) ->
    (forall item, In item items ->
       in_github_dir item = false -> item_type item = "dir" ->
       walk_returns depth (item_path item)) ->
    walk_returns (S depth) path.

(** The walk of the directory [path] meets the exception [e] of a fetch:
    the fetch of its own listing raises [e], or the walk of one of its
    directories does after the entries before it have been walked. *)
Inductive fetch_fails_in_walk : nat -> string -> exn -> Prop :=
| fetch_fails_here (depth : nat) (path : string) (e : exn) :
    fetch_result w owner repo path token = Raise e ->
    fetch_fails_in_walk (S depth) path e
| fetch_fails_below (depth : nat) (path : string)
    (pre : list DirectoryEntry) (item : DirectoryEntry) (post : list DirectoryEntry)
    (e : exn) :
    fetch_result w owner repo path token = Ok (Some (JListing (pre ++ item :: post))) ->
    (forall earlier, In earlier pre ->
       in_github_dir earlier = false -> item_type earlier = "dir" ->
       walk_returns depth (item_path earlier)) ->
    in_github_dir item = false ->
    item_type item = "dir" ->
    fetch_fails_in_walk depth (item_path item) e ->
    fetch_fails_in_walk (S depth) path e.

End Traversal.

(** ** [app.py]: the chat layer

    The script of [app.py] runs from top to bottom each time the user
    interacts with the page.  One such run is modelled as a function of
    what the widgets return (the text of the URL box and what the chat
    box submitted, if anything), of the session state, and of whether
    the run is stopped while its answer is being produced: Streamlit
    stops a running script at its next call into the library when the
    user interacts with the page again.  The language
    model is an interface: a chat object is started from a system
    instruction, and each [send_message] call on it gives a stream that
    delivers some chunks and then ends or fails.  Constructing the model
    and the chat object does not fail, so a session has a chat object
    exactly when it has a repository snapshot. *)

Module App.

(** How an iteration over the stream can fail. *)
Inductive StreamError : Type :=
| DeadlineExceeded
| OtherException (type_name message : string).

(** One [send_message] call and the iteration over its stream: the
    [chunk.text] of the chunks delivered ([None] when the attribute is
    missing or is [None]), and the failure that ended it, if any.  A
    failure of [send_message] itself is a failure before any chunk. *)
Record Attempt : Type := {
  chunks : list (option string);
  failure : option StreamError
}.

Record ChatApi : Type := {
  chat : Type;
  start_chat : string -> chat;
  send_message : chat -> string -> Attempt * chat
}.

(** [if getattr(chunk, 'text', None)]: the text, when it is true as a
    condition. *)
Definition chunk_text (chunk : option string) : option string :=
  match chunk with
  | Some text => if String.eqb text EmptyString then None else Some text
  | None => None
  end.

(** What one attempt makes the generator yield. *)
Definition yielded (a : Attempt) : list string := omap chunk_text (chunks a).

Definition timeout_message : string :=
  "Request timed out. Please try again or simplify your question.".

(** [f"Error: {type(e).__name__}: {e}"]. *)
Definition error_message (type_name message : string) : string :=
  "Error: " ++ type_name ++ ": " ++ message.

(** What a generator has done when it is exhausted: the strings it
    yielded, the chat object as the calls left it, and the number of
    [send_message] calls. *)
Record Generated (api : ChatApi) : Type := {
  output : list string;
  chat_after : chat api;
  calls : nat
}.
Arguments output {api} g.
Arguments chat_after {api} g.
Arguments calls {api} g.

(** The [while True] loop of [generate_response], from the state in
    which [attempt] retries have been used.  [fuel] bounds the number of
    turns; [None] stands for a loop that has not ended within it. *)
Fixpoint generate_loop (api : ChatApi) (prompt : string) (retries attempt : Z)
    (fuel : nat) (model : chat api) : option (Generated api) :=
  let '(a, model') := send_message api model prompt in
  match failure a with
  | None =>
      Some {| output := yielded a; chat_after := model'; calls := 1 |}       (* return *)
  | Some DeadlineExceeded =>
      if attempt <? retries then
        match fuel with
        | O => None
        | S fuel' =>
            match generate_loop api prompt retries (attempt + 1) fuel' model' with
            | Some g =>
                Some {| output := (yielded a ++ output g)%list;
                        chat_after := chat_after g;
                        calls := S (calls g) |}
            | None => None
            end
        end
      else
        Some {| output := (yielded a ++ [timeout_message])%list;
                chat_after := model'; calls := 1 |}
  | Some (OtherException type_name message) =>
      Some {| output := (yielded a ++ [error_message type_name message])%list;
              chat_after := model'; calls := 1 |}
  end.

(** [generate_response(prompt, retries=retries)], run to exhaustion. *)
Definition generate_response (api : ChatApi) (prompt : string) (retries : Z)
    (model : chat api) : option (Generated api) :=
  generate_loop api prompt retries 0 (Z.to_nat retries) model.

(** The first [n] attempts that calls with [prompt] get, one after the
    other, from the chat object [model]. *)
Fixpoint attempts (api : ChatApi) (prompt : string) (n : nat) (model : chat api)
    : list Attempt :=
  match n with
  | O => []
  | S n' =>
      let '(a, model') := send_message api model prompt in
      a :: attempts api prompt n' model'
  end.

(** [needle in haystack] for strings. *)
Fixpoint str_contains (needle haystack : string) : bool :=
  Py.startswith needle haystack
  || match haystack with
     | EmptyString => false
     | String _ rest => str_contains needle rest
     end.

Record Message : Type := {
  role : string;
  content : string
}.

(** The part of [st.session_state] the script uses.  [repo] is [None]
    until a snapshot has been stored; the chat object goes with it. *)
Record Session (api : ChatApi) : Type := {
  repo : option (string * chat api);
  messages : option (list Message)
}.
Arguments repo {api} s.
Arguments messages {api} s.

(** The module-level configuration. *)
Record Config : Type := {
  GOOGLE_API_KEY : option string;
  GITHUB_TOKEN : option string
}.

Definition system_instruction (repo_text : string) : string :=
  "You are a coding expert who analyses GitHub repos. "
  ++ "When replying, be succinct and polite. Avoid markdown title headers. "
  ++ "When citing files or variables, use backticks for markdown formatting."
  ++ "Base your answers on this repo: " ++ repo_text.

Definition greeting : Message :=
  {| role := "assistant"; content := "How may I help you?" |}.

(** [f"{prompt}\n\n[Repository context follows]\n{repo}"], where a
    [prompt] that is [None] is formatted as the text [None]. *)
Definition question (prompt : option string) (repo_text : string) : string :=
  match prompt with Some p => p | None => "None" end
  ++ Py.nl ++ Py.nl ++ "[Repository context follows]" ++ Py.nl ++ repo_text.

(** How a run of the script ends: at its last line, at an [st.stop()],
    with an exception of the snapshot builder, with the [IndexError] of
    [messages[-1]] on an empty list, stopped from outside between the
    lines 104 and 117, or inside a response that has not ended. *)
Inductive RunEnd : Type :=
| Finished
| Stopped
| BuildFailed (e : exn)
| IndexError
| Interrupted
| Unended.

(** The outcome of a run: how it ended, the session state it leaves, and
    the stored chat messages it displayed, in order (what a stopped run
    has displayed of the prompt and of the answer is not recorded). *)
Record Run (api : ChatApi) : Type := {
  ending : RunEnd;
  session : Session api;
  shown : list Message
}.
Arguments ending {api} r.
Arguments session {api} r.
Arguments shown {api} r.

(** The last element of a Python list, when there is one. *)
Definition last_message (l : list Message) : option Message := List.last (map Some l) None.

(** One run of the script.  [interrupt] is [None] for a run that is left
    to complete.  It is [Some model'] for a run that is stopped, if it
    gets there, after the last stored message has been found not to be
    the assistant's (a submitted prompt is stored by then, line 104) and
    before the answer is stored (line 117); [model'] is the state in
    which the calls made until then leave the chat object.  A run that
    is stopped earlier than that stores no message. *)
Definition run (api : ChatApi) (cfg : Config) (w : World)
    (github_url : string) (chat_input : option string)
    (interrupt : option (chat api))
    (s : Session api) (st : State) : Run api * State :=
  if negb (truthy (GOOGLE_API_KEY cfg)) then
    ({| ending := Stopped; session := s; shown := [] |}, st)
  else if negb (str_contains "github.com" github_url) then
    ({| ending := Stopped; session := s; shown := [] |}, st)
  else
    let fetched :=
      match repo s with
      | Some stored => (Ok stored, st)
      | None =>
          match retrieve_github_repo_info w github_url (GITHUB_TOKEN cfg)
                  80 15000 200000 st with
          | (Ok text, st') => (Ok (text, start_chat api (system_instruction text)), st')
          | (Raise e, st') => (Raise e, st')
          end
      end in
    match fetched with
    | (Raise e, st') => ({| ending := BuildFailed e; session := s; shown := [] |}, st')
    | (Ok (repo_text, model), st') =>
        (* Store LLM generated responses *)
        let stored :=
          match messages s with
          | Some l => l
          | None => [greeting]
          end in
        (* User-provided prompt *)
        let with_prompt :=
          if truthy chat_input
          then (stored ++ [{| role := "user"; content := default EmptyString chat_input |}])%list
          else stored in
        (* Generate a new response if last message is not from assistant *)
        match last_message with_prompt with
        | None =>
            ({| ending := IndexError;
                session := {| repo := Some (repo_text, model);
                              messages := Some with_prompt |};
                shown := with_prompt |}, st')
        | Some last =>
            if String.eqb (role last) "assistant" then
              ({| ending := Finished;
                  session := {| repo := Some (repo_text, model);
                                messages := Some with_prompt |};
                  shown := with_prompt |}, st')
            else
              match interrupt with
              | Some model' =>
                  ({| ending := Interrupted;
                      session := {| repo := Some (repo_text, model');
                                    messages := Some with_prompt |};
                      shown := stored |}, st')
              | None =>
                  match generate_response api (question chat_input repo_text) 1 model with
                  | None =>
                      ({| ending := Unended;
                          session := {| repo := Some (repo_text, model);
                                        messages := Some with_prompt |};
                          shown := with_prompt |}, st')
                  | Some g =>
                      let answered :=
                        (with_prompt
                         ++ [{| role := "assistant";
                                content := concat_all (output g) |}])%list in
                      ({| ending := Finished;
                          session := {| repo := Some (repo_text, chat_after g);
                                        messages := Some answered |};
                          shown := answered |}, st')
                  end
              end
        end
    end.

(** Several runs in a row, each with what its widgets returned and
    with whether it was stopped. *)
Fixpoint run_all (api : ChatApi) (cfg : Config) (w : World)
    (inputs : list (string * option string * option (chat api)))
    (s : Session api) (st : State) : Session api * State :=
  match inputs with
  | [] => (s, st)
  | (github_url, chat_input, interrupt) :: later =>
      let '(r, st') := run api cfg w github_url chat_input interrupt s st in
      run_all api cfg w later (session r) st'
  end.

(** The session of a page that has just been opened. *)
Definition new_session (api : ChatApi) : Session api :=
  {| repo := None; messages := None |}.

(** A conversation: the greeting, then questions and answers in turn. *)
Definition exchange (qa : string * string) : list Message :=
  [ {| role := "user"; content := fst qa |};
    {| role := "assistant"; content := snd qa |} ].

Definition conversation (l : list Message) : Prop :=
  exists turns : list (string * string), l = greeting :: flat_map exchange turns.

(** A language model for the examples: the chat object counts the calls,
    and the answers are read off a script. *)
Definition scripted (script : list Attempt) : ChatApi :=
  {| chat := nat;
     start_chat := fun _ => O;
     send_message := fun n _ =>
       (nth n script {| chunks := []; failure := Some DeadlineExceeded |}, S n) |}.

Definition answer (texts : list string) : Attempt :=
  {| chunks := map Some texts; failure := None |}.

Definition timed_out (texts : list string) : Attempt :=
  {| chunks := map Some texts; failure := Some DeadlineExceeded |}.

(** A model that times out after [Hel] and then answers in three
    chunks, the second of them empty. *)
Definition retrying : ChatApi :=
  scripted [timed_out ["Hel"]; answer ["Hello"; ""; " world"]].

(** A model that answers at once. *)
Definition prompt_model : ChatApi := scripted [answer ["A "; "repo."]].

(** A model that times out twice. *)
Definition stalling : ChatApi := scripted [timed_out ["Hel"]; timed_out ["He"]].

Definition config : Config :=
  {| GOOGLE_API_KEY := Some "key"; GITHUB_TOKEN := None |}.

End App.

(** ** Strings *)

Section StringFacts.

Lemma length_append (a b : string) :
  String.length (a ++ b) = (String.length a + String.length b)%nat.
Proof. induction a as [|c a IH]; simpl; [reflexivity | now rewrite IH]. Qed.

Lemma len_append (a b : string) : Py.len (a ++ b) = Py.len a + Py.len b.
Proof. unfold Py.len. rewrite length_append. lia. Qed.

Lemma len_nonneg (s : string) : 0 <= Py.len s.
Proof. unfold Py.len. lia. Qed.

Lemma append_assoc (a b c : string) : (a ++ b) ++ c = a ++ (b ++ c).
Proof. induction a as [|x a IH]; simpl; [reflexivity | now rewrite IH]. Qed.

Lemma append_empty_r (a : string) : a ++ EmptyString = a.
Proof. induction a as [|x a IH]; simpl; [reflexivity | now rewrite IH]. Qed.

Lemma append_inj_l (a b c : string) : a ++ b = a ++ c -> b = c.
Proof. induction a as [|x a IH]; simpl; intros H; [exact H | injection H as H; auto]. Qed.

Lemma length_take (n : nat) (s : string) :
  String.length (Py.take n s) = Nat.min n (String.length s).
Proof.
  revert s; induction n as [|n IH]; intros [|c s]; simpl; try reflexivity.
  now rewrite IH.
Qed.

Lemma take_drop (n : nat) (s : string) : Py.take n s ++ Py.drop n s = s.
Proof.
  revert s; induction n as [|n IH]; intros [|c s]; simpl; try reflexivity.
  now rewrite IH.
Qed.

Lemma slice_to_nonneg (s : string) (n : Z) :
  0 <= n -> Py.slice_to s n = Py.take (Z.to_nat n) s.
Proof. intros H. unfold Py.slice_to. destruct (Z.leb_spec 0 n); [reflexivity | lia]. Qed.

Lemma len_slice_to (s : string) (n : Z) :
  0 <= n -> n <= Py.len s -> Py.len (Py.slice_to s n) = n.
Proof.
  intros H0 H1. rewrite slice_to_nonneg by assumption.
  unfold Py.len in *. rewrite length_take. lia.
Qed.

Lemma split_nonempty (c : ascii) (s : string) : Py.split c s <> [].
Proof.
  destruct s as [|a s]; simpl; [discriminate|].
  destruct (Ascii.eqb a c); [discriminate|].
  destruct (Py.split c s); discriminate.
Qed.



Lemma lstrip_head (c a : ascii) (s s' : string) :
  Py.lstrip c s = String a s' -> Ascii.eqb a c = false.
Proof.
  induction s as [|b s IH]; cbn [Py.lstrip]; [discriminate|].
  destruct (Ascii.eqb b c) eqn:Hb; [exact IH|].
  intros [= -> _]. exact Hb.
Qed.

Lemma rstrip_head (c a : ascii) (s r : string) :
  Py.rstrip c (String a s) = r -> r = EmptyString \/ exists r', r = String a r'.
Proof.
  cbn [Py.rstrip]. intros <-.
  destruct (Py.rstrip c s); [destruct (Ascii.eqb a c)|]; eauto.
Qed.

(** A stripped string is empty or starts with another character. *)
Lemma strip_head (c : ascii) (s : string) :
  Py.strip c s = EmptyString
  \/ exists a r, Py.strip c s = String a r /\ Ascii.eqb a c = false.
Proof.
  unfold Py.strip. destruct (Py.lstrip c s) as [|a t] eqn:Hl; [left; reflexivity|].
  destruct (rstrip_head c a t _ eq_refl) as [->|[r' ->]]; [left; reflexivity|].
  right. exists a, r'. split; [reflexivity|]. exact (lstrip_head _ _ _ _ Hl).
Qed.

(** The last piece of a right-stripped string is not empty, unless the
    string is. *)
Lemma rstrip_last (c : ascii) (s : string) :
  Py.rstrip c s = EmptyString
  \/ List.last (Py.split c (Py.rstrip c s)) EmptyString <> EmptyString.
Proof.
  induction s as [|a s IH]; [left; reflexivity|].
  cbn [Py.rstrip]. destruct (Py.rstrip c s) as [|b r] eqn:Hr.
  - destruct (Ascii.eqb a c) eqn:Hac; [left; reflexivity|].
    right. cbn [Py.split]. rewrite Hac. cbn. discriminate.
  - right. destruct IH as [IH|IH]; [discriminate IH|].
    pose proof (split_nonempty c (String b r)) as Hne.
    cbn [Py.split] in *. destruct (Ascii.eqb a c).
    + destruct (if Ascii.eqb b c then _ else _) as [|x xs]; [congruence | exact IH].
    + destruct (if Ascii.eqb b c then _ else _) as [|x xs]; [congruence|].
      destruct xs as [|y ys]; [cbn; discriminate | exact IH].
Qed.



Lemma filter_last_nonempty (l : list string) :
  List.last l EmptyString <> EmptyString ->
  (1 <= length (List.filter (fun seg => negb (String.eqb seg EmptyString)) l))%nat.
Proof.
  induction l as [|x l IH]; [cbn; congruence|].
  intros Hlast. cbn [List.filter].
  destruct l as [|y l].
  - cbn in Hlast. destruct (String.eqb_spec x EmptyString); [congruence | cbn; lia].
  - specialize (IH Hlast). destruct (negb (String.eqb x EmptyString)); cbn [length]; lia.
Qed.

(** The pieces of a stripped path: when there are two or more, the first
    is not empty and there is another non-empty one after it. *)
Lemma split_strip_two (path seg0 seg1 : string) (rest : list string) :
  Py.split "/" (Py.strip "/" path) = seg0 :: seg1 :: rest ->
  seg0 <> EmptyString
  /\ (1 <= length (List.filter (fun seg => negb (String.eqb seg EmptyString))
                     (seg1 :: rest)))%nat.
Proof.
  intros Hsplit. split.
  - destruct (strip_head "/" path) as [He|(a & r & He & Ha)];
      rewrite He in Hsplit.
    + discriminate Hsplit.
    + cbn [Py.split] in Hsplit. rewrite Ha in Hsplit.
      destruct (Py.split "/" r); injection Hsplit as <-; discriminate.
  - apply filter_last_nonempty.
    destruct (rstrip_last "/" (Py.lstrip "/" path)) as [He|Hlast].
    + unfold Py.strip in Hsplit. rewrite He in Hsplit. discriminate Hsplit.
    + unfold Py.strip in Hsplit. rewrite Hsplit in Hlast. exact Hlast.
Qed.


End StringFacts.

(** ** Refinement: the code computes its functional reading *)

Section Refinement.

Variable w : World.
Variables owner repo : string.
Variable token : option string.

Lemma fetch_repo_content_spec (path : string) (st : State) :
  fetch_repo_content w owner repo path token st
  = (fetch_result w owner repo path token,
     logged (fetch_request owner repo path token) st).
Proof.
  unfold fetch_repo_content, fetch_result, bind, http_get, logged, lift.
  destruct (requests_get w _) as [response|e]; [|reflexivity].
  destruct (status_code response =? 200).
  - destruct (json response); reflexivity.
  - unfold raise_for_status.
    destruct ((400 <=? status_code response) && (status_code response <? 600));
      reflexivity.
Qed.

Lemma file_snippet_spec (max_file_chars : Z) (indent : nat) (path : string) (st : State) :
  file_snippet w owner repo token max_file_chars indent path st
  = (snippet_result w owner repo token max_file_chars indent path,
     logged (fetch_request owner repo path token) st).
Proof.
  unfold file_snippet, snippet_result, file_content_result, bind.
  rewrite fetch_repo_content_spec.
  destruct (fetch_result w owner repo path token) as [v|e]; [|reflexivity].
  unfold lift. destruct (get_file_content w v); reflexivity.
Qed.

Lemma readme_section_spec (max_file_chars : Z) (st : State) :
  readme_section w owner repo token max_file_chars st
  = (Ok (readme_text w owner repo token max_file_chars),
     logged (fetch_request owner repo "README.md" token) st).
Proof.
  unfold readme_section, readme_text, file_content_result, try_except, bind.
  rewrite fetch_repo_content_spec.
  destruct (fetch_result w owner repo "README.md" token) as [v|e]; [|reflexivity].
  unfold lift. destruct (get_file_content w v); reflexivity.
Qed.

Lemma extended_nil (l : loc) (st : State) : extended l [] [] st = st.
Proof.
  destruct st as [h rq]. unfold extended; simpl. f_equal.
  - apply list_alter_id. intros x. apply app_nil_r.
  - apply app_nil_r.
Qed.

Lemma extended_extended (l : loc) (cs cs' : list Candidate) (rs rs' : list Request)
    (st : State) :
  extended l cs' rs' (extended l cs rs st) = extended l (cs ++ cs')%list (rs ++ rs')%list st.
Proof.
  unfold extended; simpl. f_equal.
  - rewrite list_alter_alter_eq. apply list_alter_ext; [|reflexivity].
    intros x _. simpl. symmetry. apply app_assoc.
  - symmetry. apply app_assoc.
Qed.

Lemma extended_logged (l : loc) (rq : Request) (cs : list Candidate) (rs : list Request)
    (st : State) :
  extended l cs rs (logged rq st) = extended l cs (rq :: rs) st.
Proof.
  unfold extended, logged; simpl. f_equal.
  rewrite <- app_assoc. reflexivity.
Qed.

Lemma logged_extended (l : loc) (rq : Request) (st : State) :
  logged rq st = extended l [] [rq] st.
Proof.
  unfold extended, logged; simpl. f_equal.
  symmetry. apply list_alter_id. intros x. apply app_nil_r.
Qed.

Lemma list_append_spec (l : loc) (c : Candidate) (st : State) :
  list_append l c st = (Ok tt, extended l [c] [] st).
Proof. unfold list_append, extended. now rewrite app_nil_r. Qed.

Lemma for_items_spec
    (rec : string -> nat -> loc -> M (string * loc))
    (rec_o : string -> nat -> Outcome string) :
  (forall path indent l st,
      rec path indent l st
      = (with_loc l (value (rec_o path indent)),
         extended l (appended (rec_o path indent)) (requested (rec_o path indent)) st)) ->
  forall items indent l tree_str st,
    for_items rec indent l items tree_str st
    = (value (items_outcome rec_o indent items tree_str),
       extended l (appended (items_outcome rec_o indent items tree_str))
                  (requested (items_outcome rec_o indent items tree_str)) st).
Proof.
  intros Hrec items. induction items as [|item rest IH]; intros indent l tree_str st.
  - simpl. unfold ret. now rewrite extended_nil.
  - cbn [for_items items_outcome]. destruct (in_github_dir item); [apply IH|].
    destruct (String.eqb (item_type item) "dir").
    + unfold bind. rewrite Hrec.
      destruct (rec_o (item_path item) (indent + 1)%nat) as [[[sub|e] cs] rs];
        unfold value, appended, requested; simpl; [|reflexivity].
      rewrite IH.
      destruct (items_outcome rec_o indent rest _) as [[res cs'] rs'].
      unfold value, appended, requested; simpl.
      now rewrite extended_extended.
    + unfold bind.
      destruct (Py.endswith_any (item_name item) text_extensions).
      * rewrite list_append_spec, IH.
        destruct (items_outcome rec_o indent rest _) as [[res cs'] rs'].
        unfold value, appended, requested; simpl.
        now rewrite extended_extended.
      * unfold ret. rewrite IH.
        destruct (items_outcome rec_o indent rest _) as [[res cs'] rs'].
        reflexivity.
Qed.

Lemma build_directory_tree_Some (depth : nat) :
  forall path indent l st,
    build_directory_tree w depth owner repo path token indent (Some l) st
    = (with_loc l (value (walk w depth owner repo path token indent)),
       extended l (appended (walk w depth owner repo path token indent))
                  (requested (walk w depth owner repo path token indent)) st).
Proof.
  induction depth as [|depth IH]; intros path indent l st.
  - simpl. unfold raise, value, appended, requested; simpl. now rewrite extended_nil.
  - simpl. unfold bind at 1. unfold ret at 1. unfold bind at 1.
    rewrite fetch_repo_content_spec.
    destruct (fetch_result w owner repo path token) as [v|e];
      [|unfold value, appended, requested; simpl; now rewrite (logged_extended l)].
    unfold bind at 1, lift.
    destruct (iter_items v) as [items|e];
      [|unfold value, appended, requested; simpl; now rewrite (logged_extended l)].
    unfold bind.
    rewrite (for_items_spec _ (fun path indent => walk w depth owner repo path token indent))
      by (intros; apply IH).
    destruct (items_outcome _ indent items EmptyString) as [[[tree|e] cs] rs];
      unfold value, appended, requested, ret; simpl; now rewrite extended_logged.
Qed.

(** A call without an accumulator allocates a fresh list object. *)
Lemma build_directory_tree_None (depth : nat) (path : string) (indent : nat) (st : State) :
  build_directory_tree w (S depth) owner repo path token indent None st
  = build_directory_tree w (S depth) owner repo path token indent
      (Some (length (heap st)))
      {| heap := (heap st ++ [[]])%list; sent := sent st |}.
Proof. reflexivity. Qed.

Lemma alter_fresh {A} (f : A -> A) (h : list A) (x : A) :
  alter f (length h) (h ++ [x])%list = (h ++ [f x])%list.
Proof. induction h as [|y h IH]; simpl; [reflexivity | now f_equal]. Qed.

Lemma build_directory_tree_fresh (depth : nat) (path : string) (indent : nat) (st : State) :
  build_directory_tree w depth owner repo path token indent None st
  = (with_loc (length (heap st)) (value (walk w depth owner repo path token indent)),
     walked depth (walk w depth owner repo path token indent) st).
Proof.
  destruct depth as [|depth].
  - destruct st as [h rq]. unfold walked; simpl. unfold raise. now rewrite !app_nil_r.
  - rewrite build_directory_tree_None, build_directory_tree_Some.
    unfold extended, walked; cbn [heap sent]. now rewrite alter_fresh.
Qed.

(** One turn of the loop over the candidates. *)
Lemma for_file_paths_cons (max_files max_file_chars total_chars_cap : Z)
    (indent : nat) (path : string) (rest : list Candidate)
    (formatted_string : string) (files_added : Z) (st : State) :
  for_file_paths w owner repo token max_files max_file_chars total_chars_cap
    ((indent, path) :: rest) formatted_string files_added st
  = if (files_added >=? max_files) || (Py.len formatted_string >=? total_chars_cap)
    then (Ok formatted_string, st)
    else
      let st' := logged (fetch_request owner repo path token) st in
      match snippet_result w owner repo token max_file_chars indent path with
      | Raise _ =>
          for_file_paths w owner repo token max_files max_file_chars total_chars_cap
            rest formatted_string files_added st'
      | Ok snippet =>
          if Py.len formatted_string + Py.len snippet >? total_chars_cap then
            (Ok (formatted_string
                 ++ (if Z.max (total_chars_cap - Py.len formatted_string) 0 >? 0
                     then Py.slice_to snippet
                            (Z.max (total_chars_cap - Py.len formatted_string) 0)
                     else snippet)), st')
          else
            for_file_paths w owner repo token max_files max_file_chars total_chars_cap
              rest (formatted_string ++ snippet) (files_added + 1) st'
      end.
Proof.
  cbn [for_file_paths].
  destruct ((files_added >=? max_files) || (Py.len formatted_string >=? total_chars_cap));
    [reflexivity|].
  unfold bind at 1, try_except, bind at 1. rewrite file_snippet_spec.
  destruct (snippet_result w owner repo token max_file_chars indent path) as [snippet|e];
    unfold ret; cbv zeta; [|reflexivity].
  destruct (Py.len formatted_string + Py.len snippet >? total_chars_cap); reflexivity.
Qed.

End Refinement.

(** [retrieve_github_repo_info], phase by phase. *)
Lemma retrieve_github_repo_info_spec (w : World) (url : string) (token : option string)
    (max_files max_file_chars total_chars_cap : Z) (st : State) :
  retrieve_github_repo_info w url token max_files max_file_chars total_chars_cap st
  = match parse_github_url url with
    | Raise e => (Raise e, st)
    | Ok (owner, repo) =>
        let o := walk w (recursion_limit w) owner repo EmptyString token 0 in
        let st' :=
          walked (recursion_limit w) o
            (logged (fetch_request owner repo "README.md" token) st) in
        match value o with
        | Raise e => (Raise e, st')
        | Ok directory_tree =>
            for_file_paths w owner repo token max_files max_file_chars total_chars_cap
              (appended o)
              (readme_text w owner repo token max_file_chars ++ tree_section directory_tree)
              0 st'
        end
    end.
Proof.
  unfold retrieve_github_repo_info, bind at 1, lift.
  destruct (parse_github_url url) as [[owner repo]|e]; [|reflexivity].
  unfold bind at 1. rewrite readme_section_spec.
  unfold bind at 1. rewrite build_directory_tree_fresh.
  cbv zeta.
  destruct (value (walk w (recursion_limit w) owner repo EmptyString token 0))
    as [tree|e] eqn:Hv; [|reflexivity].
  cbn [with_loc]. unfold bind, list_read.
  assert (Hd : recursion_limit w <> O).
  { intros H0. rewrite H0 in Hv. discriminate Hv. }
  destruct (recursion_limit w) as [|d]; [congruence|].
  unfold walked at 1; cbn [heap logged].
  rewrite list_lookup_middle by reflexivity. reflexivity.
Qed.

(** ** The loop over the candidates *)

Section CandidateLoop.

Variable w : World.
Variables owner repo : string.
Variable token : option string.
Variables max_files max_file_chars total_chars_cap : Z.

Local Abbreviation loop := (for_file_paths w owner repo token max_files max_file_chars total_chars_cap).

(** When the loop test has passed and the block overflows, the block is
    cut to the remaining budget, which is positive. *)
Lemma clip_to_remaining (formatted_string snippet : string) :
  Py.len formatted_string < total_chars_cap ->
  Py.len formatted_string + Py.len snippet > total_chars_cap ->
  (if Z.max (total_chars_cap - Py.len formatted_string) 0 >? 0
   then Py.slice_to snippet (Z.max (total_chars_cap - Py.len formatted_string) 0)
   else snippet)
  = Py.take (Z.to_nat (total_chars_cap - Py.len formatted_string)) snippet
  /\ Py.len (formatted_string
             ++ Py.take (Z.to_nat (total_chars_cap - Py.len formatted_string)) snippet)
     = total_chars_cap.
Proof.
  intros Hlt Hover.
  rewrite Z.max_l by lia.
  destruct (Z.gtb_spec (total_chars_cap - Py.len formatted_string) 0) as [_|]; [|lia].
  rewrite slice_to_nonneg by lia. split; [reflexivity|].
  rewrite len_append. unfold Py.len in *. rewrite length_take. lia.
Qed.

Lemma loop_guard_false (formatted_string : string) (files_added : Z) :
  (files_added >=? max_files) || (Py.len formatted_string >=? total_chars_cap) = false ->
  files_added < max_files /\ Py.len formatted_string < total_chars_cap.
Proof.
  intros H. apply orb_false_elim in H. destruct H as [H1 H2].
  rewrite Z.geb_leb in H1, H2. apply Z.leb_gt in H1, H2. lia.
Qed.

Lemma loop_guard_true (formatted_string : string) (files_added : Z) :
  (files_added >=? max_files) || (Py.len formatted_string >=? total_chars_cap) = true ->
  max_files <= files_added \/ total_chars_cap <= Py.len formatted_string.
Proof.
  intros H. apply orb_true_elim in H. destruct H as [H|H];
    rewrite Z.geb_leb in H; apply Z.leb_le in H; lia.
Qed.

(** The loop always returns: it appends to the text it is given, never
    takes it beyond the cap unless it was beyond already, and leaves the
    heap alone. *)
Lemma for_file_paths_bounded (file_paths : list Candidate) :
  forall (formatted_string : string) (files_added : Z) (st : State),
  exists (rest : string) (st' : State),
    loop file_paths formatted_string files_added st = (Ok (formatted_string ++ rest), st')
    /\ Py.len (formatted_string ++ rest) <= Z.max total_chars_cap (Py.len formatted_string)
    /\ heap st' = heap st.
Proof.
  induction file_paths as [|[indent path] file_paths IH]; intros fs fa st.
  - exists EmptyString, st. rewrite append_empty_r. repeat split; [simpl; lia].
  - rewrite for_file_paths_cons.
    destruct ((fa >=? max_files) || (Py.len fs >=? total_chars_cap)) eqn:G.
    + exists EmptyString, st. rewrite append_empty_r. repeat split; lia.
    + apply loop_guard_false in G. destruct G as [_ Hlt]. cbv zeta.
      destruct (snippet_result w owner repo token max_file_chars indent path)
        as [snippet|e].
      * destruct (Z.gtb_spec (Py.len fs + Py.len snippet) total_chars_cap) as [Hover|Hfit].
        -- destruct (clip_to_remaining fs snippet Hlt) as [-> Hlen]; [lia|].
           eexists _, _. split; [reflexivity|]. split; [lia | reflexivity].
        -- destruct (IH (fs ++ snippet) (fa + 1)
                        (logged (fetch_request owner repo path token) st))
             as (rest & st' & Heq & Hlen & Hheap).
           exists (snippet ++ rest), st'. rewrite <- append_assoc.
           split; [exact Heq|]. split; [|exact Hheap].
           rewrite !len_append in Hlen |- *. lia.
      * destruct (IH fs fa (logged (fetch_request owner repo path token) st))
          as (rest & st' & Heq & Hlen & Hheap).
        exists rest, st'. auto.
Qed.


End CandidateLoop.

(** ** Truncation *)

Lemma truncate_short (max_file_chars : Z) (file_content : string) :
  Py.len file_content <= max_file_chars ->
  truncate max_file_chars file_content = file_content.
Proof.
  intros H. unfold truncate.
  destruct (Z.gtb_spec (Py.len file_content) max_file_chars); [lia | reflexivity].
Qed.

Lemma truncate_long (max_file_chars : Z) (file_content : string) :
  Py.len file_content > max_file_chars ->
  truncate max_file_chars file_content
  = Py.slice_to file_content max_file_chars ++ truncation_marker.
Proof.
  intros H. unfold truncate.
  destruct (Z.gtb_spec (Py.len file_content) max_file_chars); [reflexivity | lia].
Qed.

Lemma len_truncate (max_file_chars : Z) (file_content : string) :
  0 <= max_file_chars ->
  Py.len (truncate max_file_chars file_content) <= max_file_chars + 17.
Proof.
  intros H0. unfold truncate.
  destruct (Z.gtb_spec (Py.len file_content) max_file_chars) as [Hgt|Hle].
  - rewrite len_append, len_slice_to by lia.
    change (Py.len truncation_marker) with 17. lia.
  - lia.
Qed.

Lemma len_readme_text (w : World) (owner repo : string) (token : option string)
    (max_file_chars : Z) :
  0 <= max_file_chars ->
  Py.len (readme_text w owner repo token max_file_chars) <= Z.max 47 (max_file_chars + 38).
Proof.
  intros H0. unfold readme_text.
  destruct (file_content_result w owner repo token "README.md") as [c|e].
  - unfold readme_block. rewrite !len_append.
    pose proof (len_truncate max_file_chars c H0) as Ht.
    change (Py.len "README.md:") with 10. change (Py.len Py.nl) with 1.
    change (Py.len "```") with 3. lia.
  - change (Py.len readme_placeholder) with 47. lia.
Qed.

(** ** C1: the cap on the snapshot *)

(** C1.  A successful build returns the README section and the directory
    tree followed by the file blocks, and its length is at most
    [total_chars_cap] unless the README section and the tree alone are
    longer, in which case nothing else is appended: the overshoot is
    theirs only.  The README section is bounded by [max_file_chars] on its
    own.  Inside the loop no append takes the running text beyond the
    cap, and a block that would overflow is cut to exactly the remaining
    budget, after which the loop stops without another request. *)
Theorem snapshot_length_within_cap (w : World) (url : string) (token : option string)
    (max_files max_file_chars total_chars_cap : Z) (st st' : State) (snapshot : string) :
  retrieve_github_repo_info w url token max_files max_file_chars total_chars_cap st
  = (Ok snapshot, st') ->
  exists (owner repo readme directory_tree files : string) (l : loc) (st0 st1 : State),
    parse_github_url url = Ok (owner, repo)
    /\ readme_section w owner repo token max_file_chars st = (Ok readme, st0)
    /\ build_directory_tree w (recursion_limit w) owner repo EmptyString token 0 None st0
       = (Ok (directory_tree, l), st1)
    /\ snapshot = (readme ++ tree_section directory_tree) ++ files
    /\ Py.len snapshot
       <= Z.max total_chars_cap (Py.len (readme ++ tree_section directory_tree))
    /\ (0 <= total_chars_cap ->
        Py.len snapshot
        <= total_chars_cap + Py.len readme + Py.len (tree_section directory_tree))
    /\ (0 <= max_file_chars -> Py.len readme <= Z.max 47 (max_file_chars + 38))
    /\ (forall file_paths formatted_string files_added s0 s1 text,
          Py.len formatted_string <= total_chars_cap ->
          for_file_paths w owner repo token max_files max_file_chars total_chars_cap
            file_paths formatted_string files_added s0 = (Ok text, s1) ->
          Py.len text <= total_chars_cap)
    /\ (forall indent path rest formatted_string files_added s0 snippet,
          files_added < max_files ->
          Py.len formatted_string < total_chars_cap ->
          snippet_result w owner repo token max_file_chars indent path = Ok snippet ->
          Py.len formatted_string + Py.len snippet > total_chars_cap ->
          for_file_paths w owner repo token max_files max_file_chars total_chars_cap
            ((indent, path) :: rest) formatted_string files_added s0
          = (Ok (formatted_string
                 ++ Py.take (Z.to_nat (total_chars_cap - Py.len formatted_string)) snippet),
             logged (fetch_request owner repo path token) s0)
          /\ Py.len (formatted_string
                     ++ Py.take (Z.to_nat (total_chars_cap - Py.len formatted_string)) snippet)
             = total_chars_cap).
Proof.
  intros H. rewrite retrieve_github_repo_info_spec in H.
  destruct (parse_github_url url) as [[owner repo]|e]; [|discriminate H].
  cbv zeta in H.
  destruct (value (walk w (recursion_limit w) owner repo EmptyString token 0))
    as [tree|e] eqn:Hv; [|discriminate H].
  destruct (for_file_paths_bounded w owner repo token max_files max_file_chars
              total_chars_cap
              (appended (walk w (recursion_limit w) owner repo EmptyString token 0))
              (readme_text w owner repo token max_file_chars ++ tree_section tree) 0
              (walked (recursion_limit w)
                 (walk w (recursion_limit w) owner repo EmptyString token 0)
                 (logged (fetch_request owner repo "README.md" token) st)))
    as (files & st2 & Heq & Hlen & _).
  rewrite Heq in H. injection H as <- <-.
  exists owner, repo, (readme_text w owner repo token max_file_chars), tree, files.
  eexists _, _, _.
  split; [reflexivity|].
  split; [apply readme_section_spec|].
  split; [rewrite build_directory_tree_fresh, Hv; reflexivity|].
  split; [reflexivity|].
  split; [exact Hlen|].
  split; [intros Hcap; rewrite !len_append in Hlen |- *;
          pose proof (len_nonneg (readme_text w owner repo token max_file_chars));
          pose proof (len_nonneg (tree_section tree)); lia|].
  split; [apply len_readme_text|].
  split.
  - intros file_paths fs fa s0 s1 text Hle Hrun.
    destruct (for_file_paths_bounded w owner repo token max_files max_file_chars
                total_chars_cap file_paths fs fa s0) as (rest & s1' & Heq' & Hlen' & _).
    rewrite Heq' in Hrun. injection Hrun as <- <-. lia.
  - intros indent path rest fs fa s0 snippet Hfa Hlt Hsnip Hover.
    rewrite for_file_paths_cons.
    destruct ((fa >=? max_files) || (Py.len fs >=? total_chars_cap)) eqn:G.
    { apply loop_guard_true in G. lia. }
    cbv zeta. rewrite Hsnip.
    destruct (Z.gtb_spec (Py.len fs + Py.len snippet) total_chars_cap); [|lia].
    destruct (clip_to_remaining total_chars_cap fs snippet Hlt Hover) as [-> Hlen'].
    split; [reflexivity | exact Hlen'].
Qed.

(** The bound at work on the mocked repository with a cap of 150
    characters: the first file block is cut in the middle. *)
Lemma snapshot_length_within_cap_witness :
  exists (snapshot : string) (st' : State),
    retrieve_github_repo_info Mock.widgets Mock.url None 80 15000 150 initial_state
    = (Ok snapshot, st')
    /\ exists readme directory_tree files,
         snapshot = (readme ++ tree_section directory_tree) ++ files
         /\ Py.len snapshot
            <= Z.max 150 (Py.len (readme ++ tree_section directory_tree)).
Proof.
  eassert (H : retrieve_github_repo_info Mock.widgets Mock.url None 80 15000 150
                 initial_state = _) by (vm_compute; reflexivity).
  eexists _, _. split; [exact H|].
  destruct (snapshot_length_within_cap _ _ _ _ _ _ _ _ _ H)
    as (owner & repo & readme & tree & files & l & st0 & st1 & _ & _ & _ & Hs & Hlen & _).
  exists readme, tree, files. split; [exact Hs | exact Hlen].
Defined.

(** A cap of 150 characters on the mocked repository is met exactly. *)
Example capped_snapshot_length :
  match fst (retrieve_github_repo_info Mock.widgets Mock.url None 80 15000 150
               initial_state) with
  | Ok snapshot => Py.len snapshot
  | Raise _ => -1
  end = 150.
Proof. reflexivity. Qed.

(** ** Where the blocks end up *)

Lemma len_snippet_of_pos (indent : nat) (path file_content : string) :
  0 < Py.len (snippet_of indent path file_content).
Proof.
  unfold snippet_of. rewrite len_append. change (Py.len Py.nl) with 1.
  pose proof (len_nonneg
    (Py.repeat "    " indent ++ path ++ ":" ++ Py.nl ++ Py.repeat "    " indent ++ "```"
     ++ Py.nl ++ file_content ++ Py.nl ++ Py.repeat "    " indent ++ "```" ++ Py.nl)).
  lia.
Qed.


Lemma snippet_result_pos (w : World) (owner repo : string) (token : option string)
    (max_file_chars : Z) (indent : nat) (path snippet : string) :
  snippet_result w owner repo token max_file_chars indent path = Ok snippet ->
  0 < Py.len snippet.
Proof.
  unfold snippet_result.
  destruct (file_content_result w owner repo token path); [|discriminate].
  intros [= <-]. apply len_snippet_of_pos.
Qed.

(** A block that fits is appended whole and counted, and the loop goes on. *)
Lemma for_file_paths_fits (w : World) (owner repo : string) (token : option string)
    (max_files max_file_chars total_chars_cap : Z) (indent : nat) (path : string)
    (rest : list Candidate) (formatted_string snippet : string) (files_added : Z)
    (st : State) :
  files_added < max_files ->
  snippet_result w owner repo token max_file_chars indent path = Ok snippet ->
  Py.len formatted_string + Py.len snippet <= total_chars_cap ->
  for_file_paths w owner repo token max_files max_file_chars total_chars_cap
    ((indent, path) :: rest) formatted_string files_added st
  = for_file_paths w owner repo token max_files max_file_chars total_chars_cap
      rest (formatted_string ++ snippet) (files_added + 1)
      (logged (fetch_request owner repo path token) st).
Proof.
  intros Hfa Hsnip Hfit. rewrite for_file_paths_cons.
  pose proof (snippet_result_pos _ _ _ _ _ _ _ _ Hsnip) as Hpos.
  destruct ((files_added >=? max_files) || (Py.len formatted_string >=? total_chars_cap))
    eqn:G.
  { apply loop_guard_true in G. lia. }
  cbv zeta. rewrite Hsnip.
  destruct (Z.gtb_spec (Py.len formatted_string + Py.len snippet) total_chars_cap);
    [lia | reflexivity].
Qed.


(** A successful build starts with the README section and the tree. *)
Lemma retrieve_github_repo_info_shape (w : World) (url : string) (token : option string)
    (max_files max_file_chars total_chars_cap : Z) (st st' : State)
    (owner repo snapshot : string) :
  parse_github_url url = Ok (owner, repo) ->
  retrieve_github_repo_info w url token max_files max_file_chars total_chars_cap st
  = (Ok snapshot, st') ->
  exists directory_tree files,
    value (walk w (recursion_limit w) owner repo EmptyString token 0) = Ok directory_tree
    /\ snapshot
       = (readme_text w owner repo token max_file_chars ++ tree_section directory_tree)
         ++ files.
Proof.
  intros Hp H. rewrite retrieve_github_repo_info_spec, Hp in H. cbv zeta in H.
  destruct (value (walk w (recursion_limit w) owner repo EmptyString token 0))
    as [tree|e]; [|discriminate H].
  destruct (for_file_paths_bounded w owner repo token max_files max_file_chars
              total_chars_cap
              (appended (walk w (recursion_limit w) owner repo EmptyString token 0))
              (readme_text w owner repo token max_file_chars ++ tree_section tree) 0
              (walked (recursion_limit w)
                 (walk w (recursion_limit w) owner repo EmptyString token 0)
                 (logged (fetch_request owner repo "README.md" token) st)))
    as (files & st2 & Heq & _).
  rewrite Heq in H. injection H as <- <-. eauto.
Qed.

(** ** The blocks, spelled out *)

(** The block of line 105 is the block as the snapshot format has it, the
    truncation of lines 86-87 and 103-104 gives the embedded body, and
    the README section of line 88 is the fenced README. *)
Ltac block_of_line_105 :=
  intros; repeat match goal with x := _ |- _ => subst x end;
  unfold snippet_of, file_block, indented; rewrite ?append_assoc; reflexivity.

Ltac truncation_of_line_104 :=
  intros; repeat match goal with x := _ |- _ => subst x end;
  unfold truncate, embedded_body, truncation_marker;
  repeat match goal with
         | |- context [?a >? ?b] => destruct (Z.gtb_spec a b)
         | |- context [?a <=? ?b] => destruct (Z.leb_spec a b)
         end;
  try lia; reflexivity.

(** A body that is fetched and decoded. *)
Lemma file_content_fetched (w : World) (owner repo : string) (token : option string)
    (path : string) (file_info : PyValue) (body : string) (st : State) :
  fst (fetch_repo_content w owner repo path token st) = Ok file_info ->
  get_file_content w file_info = Ok body ->
  file_content_result w owner repo token path = Ok body.
Proof.
  rewrite fetch_repo_content_spec. cbn [fst]. intros Hf Hg.
  unfold file_content_result. now rewrite Hf.
Qed.

(** A block that overflows is cut to the remaining budget, and the loop
    ends without another request. *)
Lemma for_file_paths_clips (w : World) (owner repo : string) (token : option string)
    (max_files max_file_chars total_chars_cap : Z) (indent : nat) (path : string)
    (rest : list Candidate) (formatted_string snippet : string) (files_added : Z)
    (st : State) :
  files_added < max_files ->
  Py.len formatted_string < total_chars_cap ->
  snippet_result w owner repo token max_file_chars indent path = Ok snippet ->
  Py.len formatted_string + Py.len snippet > total_chars_cap ->
  for_file_paths w owner repo token max_files max_file_chars total_chars_cap
    ((indent, path) :: rest) formatted_string files_added st
  = (Ok (formatted_string
         ++ Py.take (Z.to_nat (total_chars_cap - Py.len formatted_string)) snippet),
     logged (fetch_request owner repo path token) st).
Proof.
  intros Hfa Hlt Hsnip Hover. rewrite for_file_paths_cons.
  destruct ((files_added >=? max_files) || (Py.len formatted_string >=? total_chars_cap))
    eqn:G.
  { apply loop_guard_true in G. lia. }
  cbv zeta. rewrite Hsnip.
  destruct (Z.gtb_spec (Py.len formatted_string + Py.len snippet) total_chars_cap); [|lia].
  now destruct (clip_to_remaining total_chars_cap formatted_string snippet Hlt Hover)
    as [-> _].
Qed.

(** ** C5 and C10: truncation of one body *)

Section Truncation.

Variable w : World.
Variables owner repo : string.
Variable token : option string.
Variables max_files max_file_chars total_chars_cap : Z.

(** C5, as the code has it.  The block of a fetched and decoded body
    longer than [max_file_chars] holds [body[:max_file_chars]] followed by
    the truncation marker; for a non-negative budget that is exactly the
    first [max_file_chars] characters of the body.  The README section,
    with which every snapshot starts, is always embedded whole.  The
    block of a candidate is embedded whole when it fits in what is left
    of [total_chars_cap]; when it does not, only its first characters up
    to the cap are embedded and the loop ends, so the body can appear
    shorter than [max_file_chars] and without the marker. *)
Theorem long_body_truncated_with_marker (indent : nat) (path body : string)
    (file_info : PyValue) (st : State) :
  fst (fetch_repo_content w owner repo path token st) = Ok file_info ->
  get_file_content w file_info = Ok body ->
  Py.len body > max_file_chars ->
  let kept := Py.slice_to body max_file_chars in
  let shown := kept ++ Py.nl ++ "... [truncated]" ++ Py.nl in
  let block := file_block indent path shown in
  (0 <= max_file_chars ->
     kept = Py.take (Z.to_nat max_file_chars) body
     /\ Py.len kept = max_file_chars
     /\ body = kept ++ Py.drop (Z.to_nat max_file_chars) body)
  /\ (forall rest formatted_string files_added,
        files_added < max_files ->
        Py.len formatted_string + Py.len block <= total_chars_cap ->
        for_file_paths w owner repo token max_files max_file_chars total_chars_cap
          ((indent, path) :: rest) formatted_string files_added st
        = for_file_paths w owner repo token max_files max_file_chars total_chars_cap
            rest (formatted_string ++ block) (files_added + 1)
            (logged (fetch_request owner repo path token) st))
  /\ (forall rest formatted_string files_added,
        files_added < max_files ->
        Py.len formatted_string < total_chars_cap ->
        Py.len formatted_string + Py.len block > total_chars_cap ->
        for_file_paths w owner repo token max_files max_file_chars total_chars_cap
          ((indent, path) :: rest) formatted_string files_added st
        = (Ok (formatted_string
               ++ Py.take (Z.to_nat (total_chars_cap - Py.len formatted_string)) block),
           logged (fetch_request owner repo path token) st))
  /\ (path = "README.md" ->
        forall url snapshot st',
          parse_github_url url = Ok (owner, repo) ->
          retrieve_github_repo_info w url token max_files max_file_chars
            total_chars_cap st = (Ok snapshot, st') ->
          exists rest, snapshot = fenced_readme shown ++ rest).
Proof.
  intros Hfetch Hdecode Hlong kept shown block.
  pose proof (file_content_fetched _ _ _ _ _ _ _ _ Hfetch Hdecode) as Hbody.
  assert (Hcut : truncate max_file_chars body = shown).
  { transitivity (embedded_body max_file_chars body); [truncation_of_line_104|].
    unfold embedded_body.
    destruct (Z.leb_spec (Py.len body) max_file_chars); [lia | reflexivity]. }
  assert (Hblock : snippet_of indent path shown = block) by block_of_line_105.
  assert (Hsnip : snippet_result w owner repo token max_file_chars indent path = Ok block).
  { unfold snippet_result. now rewrite Hbody, Hcut, Hblock. }
  split; [|split; [|split]].
  - intros H0. subst kept. rewrite slice_to_nonneg by assumption.
    split; [reflexivity|]. split.
    + unfold Py.len in *. rewrite length_take. lia.
    + symmetry. apply take_drop.
  - intros rest fs fa Hfa Hfit. now apply for_file_paths_fits.
  - intros rest fs fa Hfa Hlt Hover. now apply for_file_paths_clips.
  - intros -> url snapshot st' Hp Hrun.
    destruct (retrieve_github_repo_info_shape _ _ _ _ _ _ _ _ _ _ _ Hp Hrun)
      as (tree & files & _ & ->).
    unfold readme_text. rewrite Hbody, Hcut.
    change (readme_block shown) with (fenced_readme shown).
    exists (tree_section tree ++ files). now rewrite append_assoc.
Qed.

(** C10, as the code has it.  The comparison is strict: the block of a
    body of exactly [max_file_chars] characters holds the body as it is,
    with no marker.  The README section is always embedded whole.  The
    block of a candidate is embedded whole when it fits in what is left
    of [total_chars_cap]; when it does not, only its first characters up
    to the cap are embedded, so the body can appear in part only. *)
Theorem exact_length_body_verbatim (indent : nat) (path body : string)
    (file_info : PyValue) (st : State) :
  fst (fetch_repo_content w owner repo path token st) = Ok file_info ->
  get_file_content w file_info = Ok body ->
  Py.len body = max_file_chars ->
  let block := file_block indent path body in
  (forall rest formatted_string files_added,
     files_added < max_files ->
     Py.len formatted_string + Py.len block <= total_chars_cap ->
     for_file_paths w owner repo token max_files max_file_chars total_chars_cap
       ((indent, path) :: rest) formatted_string files_added st
     = for_file_paths w owner repo token max_files max_file_chars total_chars_cap
         rest (formatted_string ++ block) (files_added + 1)
         (logged (fetch_request owner repo path token) st))
  /\ (forall rest formatted_string files_added,
        files_added < max_files ->
        Py.len formatted_string < total_chars_cap ->
        Py.len formatted_string + Py.len block > total_chars_cap ->
        for_file_paths w owner repo token max_files max_file_chars total_chars_cap
          ((indent, path) :: rest) formatted_string files_added st
        = (Ok (formatted_string
               ++ Py.take (Z.to_nat (total_chars_cap - Py.len formatted_string)) block),
           logged (fetch_request owner repo path token) st))
  /\ (path = "README.md" ->
        forall url snapshot st',
          parse_github_url url = Ok (owner, repo) ->
          retrieve_github_repo_info w url token max_files max_file_chars
            total_chars_cap st = (Ok snapshot, st') ->
          exists rest, snapshot = fenced_readme body ++ rest).
Proof.
  intros Hfetch Hdecode Hlen block.
  pose proof (file_content_fetched _ _ _ _ _ _ _ _ Hfetch Hdecode) as Hbody.
  assert (Hcut : truncate max_file_chars body = body).
  { transitivity (embedded_body max_file_chars body); [truncation_of_line_104|].
    unfold embedded_body.
    destruct (Z.leb_spec (Py.len body) max_file_chars); [reflexivity | lia]. }
  assert (Hblock : snippet_of indent path body = block) by block_of_line_105.
  assert (Hsnip : snippet_result w owner repo token max_file_chars indent path = Ok block).
  { unfold snippet_result. now rewrite Hbody, Hcut, Hblock. }
  split; [|split].
  - intros rest fs fa Hfa Hfit. now apply for_file_paths_fits.
  - intros rest fs fa Hfa Hlt Hover. now apply for_file_paths_clips.
  - intros -> url snapshot st' Hp Hrun.
    destruct (retrieve_github_repo_info_shape _ _ _ _ _ _ _ _ _ _ _ Hp Hrun)
      as (tree & files & _ & ->).
    unfold readme_text. rewrite Hbody, Hcut.
    change (readme_block body) with (fenced_readme body).
    exists (tree_section tree ++ files). now rewrite append_assoc.
Qed.

End Truncation.

(** With [max_file_chars = 10], the 50 characters of [src/main.py] are
    cut to their first 10, and the marker follows: when the block fits,
    the loop appends it whole. *)
Lemma long_body_truncated_with_marker_witness :
  (get_file_content Mock.widgets
     (Some (Mock.raw "print('01234567890123456789012345678901234567890')"))
   = Ok "print('01234567890123456789012345678901234567890')"
   /\ Py.len "print('01234567890123456789012345678901234567890')" = 50)
  /\ for_file_paths Mock.widgets "acme" "widgets" None 80 10 200000
       [(1%nat, "src/main.py")] "Directory Structure:" 0 initial_state
     = (Ok ("Directory Structure:"
            ++ concat_all (map (fun l => l ++ Py.nl)
                 [ ""; "    src/main.py:"; "    ```"; "print('012"; "... [truncated]"; "";
                   "    ```" ])),
        logged (fetch_request "acme" "widgets" "src/main.py" None) initial_state).
Proof.
  split; [split; reflexivity|].
  destruct (long_body_truncated_with_marker Mock.widgets "acme" "widgets" None 80 10 200000
              1 "src/main.py" "print('01234567890123456789012345678901234567890')"
              (Some (Mock.raw "print('01234567890123456789012345678901234567890')"))
              initial_state eq_refl eq_refl eq_refl) as (_ & Hfits & _).
  rewrite (Hfits [] "Directory Structure:" 0 ltac:(lia) ltac:(vm_compute; discriminate)).
  reflexivity.
Defined.

(** The same body when only 216 characters are allowed in all: the block
    of [src/main.py] is cut after the first four characters of the body,
    and no marker follows them. *)
Lemma long_body_cut_by_total_cap :
  file_content_result Mock.widgets "acme" "widgets" None "src/main.py"
  = Ok "print('01234567890123456789012345678901234567890')"
  /\ Py.len "print('01234567890123456789012345678901234567890')" > 10
  /\ fst (retrieve_github_repo_info Mock.widgets Mock.url None 80 10 216 initial_state)
     = Ok (concat_all (map (fun l => l ++ Py.nl)
             [ "README.md:"; "```"; "Hello widg"; "... [truncated]"; ""; "```"; "";
               "Directory Structure:"; "README.md"; "[src/]"; "    main.py"; "    app.js";
               "setup.py"; "style.css"; "logo.png"; "";
               ""; "README.md:"; "```"; "Hello widg"; "... [truncated]"; ""; "```";
               ""; "    src/main.py:"; "    ```" ])
           ++ "prin").
Proof. split; [reflexivity|]. split; reflexivity. Qed.

(** With [max_file_chars = 13], the 13 characters of the README are
    embedded as they are. *)
Lemma exact_length_body_verbatim_witness :
  (get_file_content Mock.widgets (Some (Mock.b64 "SGVsbG8gd2lkZ2V0cw==")) = Ok "Hello widgets"
   /\ Py.len "Hello widgets" = 13)
  /\ exists rest,
       fst (retrieve_github_repo_info Mock.widgets Mock.url None 80 13 200000 initial_state)
       = Ok (concat_all (map (fun l => l ++ Py.nl)
               [ "README.md:"; "```"; "Hello widgets"; "```"; "" ])
             ++ rest).
Proof.
  split; [split; reflexivity|].
  destruct (exact_length_body_verbatim Mock.widgets "acme" "widgets" None 80 13 200000
              0 "README.md" "Hello widgets" (Some (Mock.b64 "SGVsbG8gd2lkZ2V0cw=="))
              initial_state eq_refl eq_refl eq_refl) as (_ & _ & Hreadme).
  destruct (retrieve_github_repo_info Mock.widgets Mock.url None 80 13 200000 initial_state)
    as [[snapshot|e] st'] eqn:Hrun; [|vm_compute in Hrun; discriminate Hrun].
  destruct (Hreadme eq_refl Mock.url snapshot st' eq_refl Hrun) as [rest ->].
  exists rest. reflexivity.
Defined.

(** The README as a candidate file when only 150 characters are allowed
    in all: its body of exactly [max_file_chars = 13] characters is
    embedded up to its tenth character. *)
Lemma exact_length_body_cut_by_total_cap :
  file_content_result Mock.widgets "acme" "widgets" None "README.md" = Ok "Hello widgets"
  /\ Py.len "Hello widgets" = 13
  /\ fst (retrieve_github_repo_info Mock.widgets Mock.url None 80 13 150 initial_state)
     = Ok (concat_all (map (fun l => l ++ Py.nl)
             [ "README.md:"; "```"; "Hello widgets"; "```"; "";
               "Directory Structure:"; "README.md"; "[src/]"; "    main.py"; "    app.js";
               "setup.py"; "style.css"; "logo.png"; "";
               ""; "README.md:"; "```" ])
           ++ "Hello widg").
Proof. split; [reflexivity|]. split; reflexivity. Qed.

(** ** C4: the cap on the number of files *)

(** Once a limit is reached the loop ends without another request. *)
Lemma for_file_paths_stops (w : World) (owner repo : string) (token : option string)
    (max_files max_file_chars total_chars_cap : Z) (file_paths : list Candidate)
    (formatted_string : string) (files_added : Z) (st : State) :
  max_files <= files_added \/ total_chars_cap <= Py.len formatted_string ->
  for_file_paths w owner repo token max_files max_file_chars total_chars_cap
    file_paths formatted_string files_added st = (Ok formatted_string, st).
Proof.
  intros H. destruct file_paths as [|[indent path] rest]; [reflexivity|].
  rewrite for_file_paths_cons.
  destruct ((files_added >=? max_files) || (Py.len formatted_string >=? total_chars_cap))
    eqn:G; [reflexivity|].
  apply loop_guard_false in G. lia.
Qed.

(** What the walk from the root leaves behind, read off the code. *)
Lemma root_walk_inv (w : World) (owner repo : string) (token : option string)
    (st0 st1 : State) (directory_tree : string) (l : loc) :
  build_directory_tree w (recursion_limit w) owner repo EmptyString token 0 None st0
  = (Ok (directory_tree, l), st1) ->
  value (walk w (recursion_limit w) owner repo EmptyString token 0) = Ok directory_tree
  /\ l = length (heap st0)
  /\ st1 = walked (recursion_limit w)
             (walk w (recursion_limit w) owner repo EmptyString token 0) st0
  /\ heap st1 !! l
     = Some (appended (walk w (recursion_limit w) owner repo EmptyString token 0)).
Proof.
  rewrite build_directory_tree_fresh. intros H.
  destruct (value (walk w (recursion_limit w) owner repo EmptyString token 0))
    as [tree|e] eqn:Hv; [|discriminate H].
  cbn [with_loc] in H. injection H as -> <- <-.
  repeat split.
  destruct (recursion_limit w) as [|d]; [discriminate Hv|].
  unfold walked; cbn [heap]. now apply list_lookup_middle.
Qed.

(** C4.  With [max_files = 2], when the walk has collected at least two
    candidates (five or more in particular), the first two are fetched and
    decoded, and their blocks fit under [total_chars_cap] together with
    what precedes them, the snapshot is the README section, the tree and
    exactly the blocks of these two, each with its path and its body (cut
    to [max_file_chars] when longer); the only requests sent after the
    walk are those for the two files, so nothing of the third or a later
    candidate is fetched or embedded. *)
Theorem max_files_two_embeds_two (w : World) (url : string) (token : option string)
    (max_file_chars total_chars_cap : Z) (st st0 st1 : State)
    (owner repo readme directory_tree : string) (l : loc)
    (indent1 indent2 : nat) (path1 path2 : string) (rest : list Candidate)
    (file_info1 file_info2 : PyValue) (body1 body2 : string) :
  parse_github_url url = Ok (owner, repo) ->
  readme_section w owner repo token max_file_chars st = (Ok readme, st0) ->
  build_directory_tree w (recursion_limit w) owner repo EmptyString token 0 None st0
  = (Ok (directory_tree, l), st1) ->
  heap st1 !! l = Some ((indent1, path1) :: (indent2, path2) :: rest) ->
  fst (fetch_repo_content w owner repo path1 token st1) = Ok file_info1 ->
  get_file_content w file_info1 = Ok body1 ->
  fst (fetch_repo_content w owner repo path2 token st1) = Ok file_info2 ->
  get_file_content w file_info2 = Ok body2 ->
  let block1 := file_block indent1 path1 (embedded_body max_file_chars body1) in
  let block2 := file_block indent2 path2 (embedded_body max_file_chars body2) in
  Py.len (readme ++ tree_section directory_tree) + Py.len block1 + Py.len block2
  <= total_chars_cap ->
  retrieve_github_repo_info w url token 2 max_file_chars total_chars_cap st
  = (Ok ((readme ++ tree_section directory_tree) ++ block1 ++ block2),
     logged (fetch_request owner repo path2 token)
       (logged (fetch_request owner repo path1 token) st1)).
Proof.
  intros Hp Hreadme Hwalk Hcands Hf1 Hd1 Hf2 Hd2 block1 block2 Hfit.
  rewrite readme_section_spec in Hreadme. injection Hreadme as <- <-.
  apply root_walk_inv in Hwalk. destruct Hwalk as (Hv & _ & Hst1 & Hl).
  pose proof (eq_trans (eq_sym Hcands) Hl) as Hc. injection Hc as Hc.
  assert (Hcut : forall body, truncate max_file_chars body
                              = embedded_body max_file_chars body)
    by truncation_of_line_104.
  assert (Hblock : forall indent path shown,
             snippet_of indent path shown = file_block indent path shown)
    by block_of_line_105.
  assert (H1 : snippet_result w owner repo token max_file_chars indent1 path1 = Ok block1).
  { unfold snippet_result.
    now rewrite (file_content_fetched _ _ _ _ _ _ _ _ Hf1 Hd1), Hcut, Hblock. }
  assert (H2 : snippet_result w owner repo token max_file_chars indent2 path2 = Ok block2).
  { unfold snippet_result.
    now rewrite (file_content_fetched _ _ _ _ _ _ _ _ Hf2 Hd2), Hcut, Hblock. }
  pose proof (snippet_result_pos _ _ _ _ _ _ _ _ H1) as Hpos1.
  pose proof (snippet_result_pos _ _ _ _ _ _ _ _ H2) as Hpos2.
  rewrite retrieve_github_repo_info_spec, Hp. cbv zeta. rewrite Hv, <- Hc, <- Hst1.
  rewrite (for_file_paths_fits _ _ _ _ _ _ _ _ _ _ _ block1) by (try assumption; lia).
  rewrite (for_file_paths_fits _ _ _ _ _ _ _ _ _ _ _ block2)
    by (try assumption; rewrite ?len_append in *; lia).
  rewrite for_file_paths_stops by (left; lia).
  now rewrite append_assoc.
Qed.

(** The mocked repository has five candidates; with [max_files = 2] only
    the README and [src/main.py] are embedded. *)
Lemma max_files_two_embeds_two_witness :
  exists (st1 : State) (directory_tree : string),
    heap st1 !! 0%nat
    = Some [ (0%nat, "README.md"); (1%nat, "src/main.py"); (1%nat, "src/app.js");
             (0%nat, "setup.py"); (0%nat, "style.css") ]
    /\ retrieve_github_repo_info Mock.widgets Mock.url None 2 15000 200000 initial_state
       = (Ok ((fenced_readme "Hello widgets" ++ tree_section directory_tree)
              ++ concat_all (map (fun l => l ++ Py.nl)
                   [ ""; "README.md:"; "```"; "Hello widgets"; "```";
                     ""; "    src/main.py:"; "    ```";
                     "print('01234567890123456789012345678901234567890')"; "    ```" ])),
          logged (fetch_request "acme" "widgets" "src/main.py" None)
            (logged (fetch_request "acme" "widgets" "README.md" None) st1)).
Proof.
  eassert (Hreadme : readme_section Mock.widgets "acme" "widgets" None 15000 initial_state
                     = (Ok _, _)) by (vm_compute; reflexivity).
  eassert (Hwalk : build_directory_tree Mock.widgets (recursion_limit Mock.widgets)
                     "acme" "widgets" "" None 0 None _ = (Ok (_, _), _))
    by (vm_compute; reflexivity).
  pose proof (max_files_two_embeds_two Mock.widgets Mock.url None 15000 200000
                initial_state _ _ "acme" "widgets" _ _ _ 0%nat 1%nat
                "README.md" "src/main.py"
                [ (1%nat, "src/app.js"); (0%nat, "setup.py"); (0%nat, "style.css") ]
                (Some (Mock.b64 "SGVsbG8gd2lkZ2V0cw=="))
                (Some (Mock.raw "print('01234567890123456789012345678901234567890')"))
                "Hello widgets" "print('01234567890123456789012345678901234567890')"
                eq_refl Hreadme Hwalk eq_refl eq_refl eq_refl eq_refl eq_refl
                ltac:(vm_compute; intros Hgt; discriminate Hgt)) as H.
  eexists _, _. split; [|etransitivity; [exact H | reflexivity]].
  reflexivity.
Defined.

(** ** C6: failures of the optional parts *)

Section Tolerance.

Variable w : World.
Variables owner repo : string.
Variable token : option string.
Variables max_files max_file_chars total_chars_cap : Z.

Local Abbreviation loop :=
  (for_file_paths w owner repo token max_files max_file_chars total_chars_cap).


End Tolerance.




(** The snapshot of that build: the placeholder, the tree, and the blocks
    of the three files that are still there. *)
Example flaky_snapshot :
  fst (retrieve_github_repo_info Mock.widgets_flaky Mock.url None 80 15000 200000
         initial_state)
  = Ok (concat_all (map (fun l => l ++ Py.nl)
          [ "README.md: Not found or error fetching README"; "";
            "Directory Structure:"; "README.md"; "[src/]"; "    main.py"; "    app.js";
            "setup.py"; "style.css"; "logo.png"; "";
            ""; "    src/main.py:"; "    ```";
            "print('01234567890123456789012345678901234567890')"; "    ```";
            ""; "setup.py:"; "```"; "setup(ab)"; "```";
            ""; "style.css:"; "```"; "body { margin: 0 }"; "```" ])).
Proof. reflexivity. Qed.

(** ** C7: failures of the walk *)

(** The loop over a listing, cut in two. *)
Lemma for_items_app (rec : string -> nat -> loc -> M (string * loc))
    (indent : nat) (file_paths : loc) (pre post : list DirectoryEntry) :
  forall (tree_str : string) (st : State),
    for_items rec indent file_paths (pre ++ post)%list tree_str st
    = match for_items rec indent file_paths pre tree_str st with
      | (Ok tree_str', st') => for_items rec indent file_paths post tree_str' st'
      | (Raise e, st') => (Raise e, st')
      end.
Proof.
  induction pre as [|item pre IH]; intros tree_str st.
  - reflexivity.
  - cbn [for_items app]. destruct (in_github_dir item); [apply IH|].
    destruct (String.eqb (item_type item) "dir").
    + unfold bind. destruct (rec (item_path item) (indent + 1)%nat file_paths st)
        as [[[sub l']|e] st']; [apply IH | reflexivity].
    + unfold bind.
      destruct (Py.endswith_any (item_name item) text_extensions);
        [rewrite list_append_spec | unfold ret]; apply IH.
Qed.

(** A listing whose directories are all walked is walked. *)
Lemma for_items_returns (rec : string -> nat -> loc -> M (string * loc))
    (items : list DirectoryEntry) :
  (forall item, In item items ->
     in_github_dir item = false -> item_type item = "dir" ->
     forall indent l st, exists t l' st', rec (item_path item) indent l st = (Ok (t, l'), st')) ->
  forall indent l tree_str st,
    exists t st', for_items rec indent l items tree_str st = (Ok t, st').
Proof.
  induction items as [|item rest IH]; intros Hrec indent l tree_str st.
  - eexists _, _. reflexivity.
  - assert (Hrest : forall item', In item' rest ->
              in_github_dir item' = false -> item_type item' = "dir" ->
              forall indent l st,
                exists t l' st', rec (item_path item') indent l st = (Ok (t, l'), st')).
    { intros item' Hin. apply Hrec. now right. }
    specialize (IH Hrest).
    cbn [for_items]. destruct (in_github_dir item) eqn:Hskip; [apply IH|].
    destruct (String.eqb_spec (item_type item) "dir") as [Hdir|Hfile].
    + unfold bind.
      destruct (Hrec item (or_introl eq_refl) Hskip Hdir (indent + 1)%nat l st)
        as (sub & l' & st' & ->).
      apply IH.
    + unfold bind.
      destruct (Py.endswith_any (item_name item) text_extensions);
        [rewrite list_append_spec | unfold ret]; apply IH.
Qed.

(** C7.  Nothing in the walker or in the assembler catches what a fetch
    raises during the traversal.  When the depth-first traversal from the
    root meets a fetch that raises, of the root listing or of the listing
    of a directory at any depth, an [HTTPError] with its status in
    particular, the walker's call from the root raises that exception,
    and so does the whole build, which returns no snapshot.  The same
    holds of the walker's call for any directory, with or without an
    accumulator. *)
Theorem walk_failure_aborts_build (w : World) (url : string) (token : option string)
    (max_files max_file_chars total_chars_cap : Z) (st : State)
    (owner repo : string) (e : exn) :
  parse_github_url url = Ok (owner, repo) ->
  fetch_fails_in_walk w owner repo token (recursion_limit w) EmptyString e ->
  (forall st0,
     fst (build_directory_tree w (recursion_limit w) owner repo EmptyString token 0 None st0)
     = Raise e)
  /\ fst (retrieve_github_repo_info w url token max_files max_file_chars total_chars_cap st)
     = Raise e
  /\ (forall depth path indent file_paths s0,
        fetch_fails_in_walk w owner repo token depth path e ->
        fst (build_directory_tree w depth owner repo path token indent file_paths s0)
        = Raise e).
Proof.
  intros Hp Hfail.
  (* A walk that comes back, in the code. *)
  assert (Hreturns : forall depth path,
             walk_returns w owner repo token depth path ->
             forall indent file_paths s0,
             exists t l s1,
               build_directory_tree w depth owner repo path token indent file_paths s0
               = (Ok (t, l), s1)).
  { induction 1 as [depth path items Hfetch _ IH]. intros indent file_paths s0.
    cbn [build_directory_tree]. unfold bind at 1.
    destruct (match file_paths with Some l => ret l | None => new_list end s0)
      as [[l|e0] s1] eqn:Hlist;
      [|destruct file_paths; discriminate Hlist].
    unfold bind at 1. rewrite fetch_repo_content_spec, Hfetch.
    unfold bind at 1, lift. cbn [iter_items]. unfold bind.
    destruct (for_items_returns
                (fun path indent file_paths =>
                   build_directory_tree w depth owner repo path token indent
                     (Some file_paths))
                items
                (fun item Hin Hskip Hdir indent l st => IH item Hin Hskip Hdir indent (Some l) st)
                indent l EmptyString (logged (fetch_request owner repo path token) s1))
      as (t & s2 & ->).
    eexists _, _, _. reflexivity. }
  (* A walk that meets the exception, in the code. *)
  assert (Hraises : forall depth path e0,
             fetch_fails_in_walk w owner repo token depth path e0 ->
             forall indent file_paths s0,
               fst (build_directory_tree w depth owner repo path token indent file_paths s0)
               = Raise e0).
  { clear Hfail.
    induction 1 as [depth path e0 Hfetch
                   | depth path pre item post e0 Hfetch Hpre Hskip Hdir _ IH];
      intros indent file_paths s0; cbn [build_directory_tree]; unfold bind at 1;
      (destruct (match file_paths with Some l => ret l | None => new_list end s0)
         as [[l|e1] s1] eqn:Hlist;
       [|destruct file_paths; discriminate Hlist]);
      unfold bind at 1; rewrite fetch_repo_content_spec, Hfetch; [reflexivity|].
    unfold bind at 1, lift. cbn [iter_items]. unfold bind at 1.
    rewrite for_items_app.
    destruct (for_items_returns
                (fun path indent file_paths =>
                   build_directory_tree w depth owner repo path token indent
                     (Some file_paths))
                pre
                (fun earlier Hin Hs Hd indent l st =>
                   Hreturns depth (item_path earlier) (Hpre earlier Hin Hs Hd)
                     indent (Some l) st)
                indent l EmptyString (logged (fetch_request owner repo path token) s1))
      as (t & s2 & ->).
    cbn [for_items]. rewrite Hskip, Hdir, String.eqb_refl. unfold bind at 1.
    specialize (IH (indent + 1)%nat (Some l) s2).
    destruct (build_directory_tree w depth owner repo (item_path item) token
                (indent + 1)%nat (Some l) s2) as [[[sub l']|e'] s3];
      cbn [fst] in IH; [discriminate IH|].
    cbn [fst]. exact IH. }
  split; [|split].
  - intros st0. now apply Hraises.
  - unfold retrieve_github_repo_info, bind at 1, lift. rewrite Hp.
    unfold bind at 1. rewrite readme_section_spec. unfold bind at 1.
    specialize (Hraises _ _ _ Hfail 0%nat None
                  (logged (fetch_request owner repo "README.md" token) st)).
    destruct (build_directory_tree w (recursion_limit w) owner repo EmptyString token 0
                None (logged (fetch_request owner repo "README.md" token) st))
      as [[[tree l]|e'] s1]; cbn [fst] in Hraises; [discriminate Hraises|].
    cbn [fst]. now injection Hraises as ->.
  - intros depth path indent file_paths s0 Hfail'. now apply Hraises.
Qed.

(** The mocked repository when the listing of [src] answers 403: the
    traversal meets the [HTTPError] one level below the root, after the
    README and the [.github] entries, and the build raises it. *)
Lemma walk_failure_aborts_build_witness :
  (parse_github_url Mock.url = Ok ("acme", "widgets")
   /\ fetch_result Mock.widgets_forbidden "acme" "widgets" "src" None
      = Raise (HTTPError 403))
  /\ fst (retrieve_github_repo_info Mock.widgets_forbidden Mock.url None 80 15000 200000
            initial_state)
     = Raise (HTTPError 403).
Proof.
  split; [split; reflexivity|].
  apply (walk_failure_aborts_build Mock.widgets_forbidden Mock.url None 80 15000 200000
           initial_state "acme" "widgets" (HTTPError 403) eq_refl).
  apply (fetch_fails_below Mock.widgets_forbidden "acme" "widgets" None 49 ""
           [ Mock.entry "README.md" "README.md" "file";
             Mock.entry ".github" ".github" "dir";
             Mock.entry "ci.yml" ".github/workflows/ci.yml" "file" ]
           (Mock.entry "src" "src" "dir")
           [ Mock.entry "setup.py" "setup.py" "file";
             Mock.entry "style.css" "style.css" "file";
             Mock.entry "logo.png" "logo.png" "file" ]).
  - reflexivity.
  - intros earlier [<-|[<-|[<-|[]]]] Hskip Hdir; discriminate.
  - reflexivity.
  - reflexivity.
  - apply fetch_fails_here. reflexivity.
Defined.

(** ** C9: repeated walks *)

Section RepeatedWalks.

Variable w : World.
Variable depth : nat.
Variables owner repo path : string.
Variable token : option string.
Variable indent : nat.

Local Abbreviation run :=
  (build_directory_tree w depth owner repo path token indent None).
Local Abbreviation outcome := (walk w depth owner repo path token indent).

(** A walk without an accumulator shows the caller what the world
    determines, whatever the state it starts from. *)
Lemma observe_run (st : State) :
  observe (fst (run st)) (snd (run st))
  = match value outcome with
    | Ok tree_str => Ok (tree_str, appended outcome)
    | Raise e => Raise e
    end.
Proof.
  rewrite build_directory_tree_fresh. cbn [fst snd].
  destruct (value outcome) as [tree|e] eqn:Hv; [|reflexivity].
  cbn [with_loc observe]. destruct depth as [|d]; [discriminate Hv|].
  unfold walked; cbn [heap]. now rewrite list_lookup_middle.
Qed.

(** A later walk leaves the list of an earlier one as it was. *)
Lemma observe_after (st : State) :
  observe (fst (run st)) (snd (run (snd (run st))))
  = observe (fst (run st)) (snd (run st)).
Proof.
  rewrite !build_directory_tree_fresh. cbn [fst snd].
  destruct (value outcome) as [tree|e] eqn:Hv; [|reflexivity].
  cbn [with_loc observe]. destruct depth as [|d]; [discriminate Hv|].
  unfold walked; cbn [heap].
  rewrite lookup_app_l by (rewrite length_app; simpl; lia).
  reflexivity.
Qed.

(** C9.  Two walks of the same repository, each started without an
    accumulator and run one after the other in the same interpreter,
    show the caller the same tree string and the same candidate list;
    so does a walk from any other state.  The two lists are distinct
    objects, and the second walk leaves the first list as it was. *)
Theorem walks_with_fresh_accumulators_agree (st : State) :
  let first := run st in
  let second := run (snd first) in
  observe (fst second) (snd second) = observe (fst first) (snd first)
  /\ observe (fst first) (snd second) = observe (fst first) (snd first)
  /\ (forall tree1 l1 tree2 l2,
        fst first = Ok (tree1, l1) -> fst second = Ok (tree2, l2) -> l1 <> l2)
  /\ (forall st', observe (fst (run st')) (snd (run st'))
                  = observe (fst first) (snd first)).
Proof.
  cbv zeta. split; [|split; [|split]].
  - now rewrite !observe_run.
  - apply observe_after.
  - intros tree1 l1 tree2 l2. rewrite !build_directory_tree_fresh. cbn [fst snd].
    destruct (value outcome) as [tree|e] eqn:Hv; [|discriminate].
    cbn [with_loc]. intros [= _ <-] [= _ <-].
    destruct depth as [|d]; [discriminate Hv|].
    unfold walked; cbn [heap]. rewrite length_app. simpl. lia.
  - intros st'. now rewrite !observe_run.
Qed.

(** By contrast, a second walk that is handed the list of the first one
    appends to it: this is the leak the fresh accumulator avoids. *)
Lemma shared_accumulator_accumulates (l : loc) (st : State) (old : list Candidate) :
  heap st !! l = Some old ->
  let first := build_directory_tree w depth owner repo path token indent (Some l) st in
  let second :=
    build_directory_tree w depth owner repo path token indent (Some l) (snd first) in
  heap (snd second) !! l = Some (old ++ appended outcome ++ appended outcome)%list.
Proof.
  intros Hl. cbv zeta. rewrite !build_directory_tree_Some. cbn [snd].
  rewrite extended_extended. unfold extended; cbn [heap].
  rewrite list_lookup_alter_eq.
  change (heap st !! l) with (@lookup nat _ _ _ l (heap st)).
  unfold loc in *. now rewrite Hl.
Qed.

End RepeatedWalks.

(** ** C3: the [.github] directory *)

Section GithubDirectory.

Variable w : World.
Variables owner repo : string.
Variable token : option string.

Local Abbreviation outside_request := (outside_request owner repo token).

Lemma items_outcome_outside (rec_o : string -> nat -> Outcome string) :
  (forall p i,
      Forall outside_candidate (appended (rec_o p i))
      /\ (Py.contains ".github" (Py.split "/" p) = false ->
          Forall outside_request (requested (rec_o p i)))) ->
  forall items indent tree_str,
    Forall outside_candidate (appended (items_outcome rec_o indent items tree_str))
    /\ Forall outside_request (requested (items_outcome rec_o indent items tree_str)).
Proof.
  intros Hrec items. induction items as [|item rest IH]; intros indent tree_str.
  - split; constructor.
  - cbn [items_outcome]. unfold in_github_dir.
    destruct (Py.contains ".github" (Py.split "/" (item_path item))) eqn:Hg; [apply IH|].
    destruct (String.eqb (item_type item) "dir").
    + destruct (Hrec (item_path item) (indent + 1)%nat) as [Hc Hr].
      specialize (Hr Hg).
      destruct (rec_o (item_path item) (indent + 1)%nat) as [[[sub|e] cs] rs];
        unfold appended, requested in *; cbn [fst snd] in *; [|now split].
      specialize (IH indent
        ((tree_str ++ Py.repeat "    " indent ++ "[" ++ item_name item ++ "/]" ++ Py.nl)
         ++ sub)).
      destruct (items_outcome rec_o indent rest _) as [[res cs'] rs'].
      cbn [fst snd] in *. destruct IH as [IHc IHr].
      split; apply Forall_app; split; assumption.
    + specialize (IH indent
        (tree_str ++ Py.repeat "    " indent ++ item_name item ++ Py.nl)).
      destruct (items_outcome rec_o indent rest _) as [[res cs'] rs'].
      unfold appended, requested in *; cbn [fst snd] in *. destruct IH as [IHc IHr].
      split; [|assumption]. apply Forall_app. split; [|assumption].
      destruct (Py.endswith_any (item_name item) text_extensions); repeat constructor.
      exact Hg.
Qed.

Lemma walk_outside (depth : nat) :
  forall path indent,
    Forall outside_candidate (appended (walk w depth owner repo path token indent))
    /\ (Py.contains ".github" (Py.split "/" path) = false ->
        Forall outside_request (requested (walk w depth owner repo path token indent)))
    /\ Forall outside_request (tl (requested (walk w depth owner repo path token indent))).
Proof.
  induction depth as [|depth IH]; intros path indent.
  - repeat split; constructor.
  - cbn [walk].
    destruct (fetch_result w owner repo path token) as [v|e];
      [|repeat split; repeat constructor; eexists; eauto].
    destruct (iter_items v) as [items|e];
      [|repeat split; repeat constructor; eexists; eauto].
    destruct (items_outcome_outside
                (fun path indent => walk w depth owner repo path token indent)
                (fun p i => conj (proj1 (IH p i)) (proj1 (proj2 (IH p i))))
                items indent EmptyString) as [Hc Hr].
    destruct (items_outcome _ indent items EmptyString) as [[res cs] rs].
    unfold appended, requested in *; cbn [fst snd tl] in *.
    repeat split; try assumption.
    intros Hp. constructor; [eexists; eauto | assumption].
Qed.

Lemma fetch_request_inj (p p' : string) :
  fetch_request owner repo p token = fetch_request owner repo p' token -> p = p'.
Proof.
  unfold fetch_request. intros H. injection H as H.
  repeat first [apply append_inj_l in H | injection H as H]. exact H.
Qed.

End GithubDirectory.

(** C3.  An entry whose path has a segment named [.github] is passed
    over: a listing with the entry is walked exactly as the listing
    without it, to the same tree string and the same state, so the entry
    is not rendered, nothing is appended for it and no request is sent
    for it.  In any walk its path is not among the candidates collected,
    and no nested call fetches it. *)
Theorem github_entries_skipped (item : DirectoryEntry) :
  Py.contains ".github" (Py.split "/" (item_path item)) = true ->
  (forall rec indent file_paths pre post tree_str st,
      for_items rec indent file_paths (pre ++ item :: post)%list tree_str st
      = for_items rec indent file_paths (pre ++ post)%list tree_str st)
  /\ (forall w depth owner repo path token indent st,
        let run := build_directory_tree w depth owner repo path token indent None st in
        (forall tree_str l i,
            fst run = Ok (tree_str, l) ->
            ~ In (i, item_path item) (default [] (heap (snd run) !! l)))
        /\ exists rs,
             sent (snd run) = (sent st ++ rs)%list
             /\ ~ In (fetch_request owner repo (item_path item) token) (tl rs)).
Proof.
  intros Hgit. split.
  - intros rec indent file_paths pre post tree_str st.
    rewrite !for_items_app.
    destruct (for_items rec indent file_paths pre tree_str st) as [[t|e] st'];
      [|reflexivity].
    cbn [for_items]. unfold in_github_dir. now rewrite Hgit.
  - intros w depth owner repo path token indent st. cbv zeta.
    rewrite build_directory_tree_fresh. cbn [fst snd].
    destruct (walk_outside w owner repo token depth path indent) as (Hc & _ & Hr).
    split.
    + intros tree_str l i Hrun Hin.
      destruct (value (walk w depth owner repo path token indent)) as [t|e] eqn:Hv;
        [|discriminate Hrun].
      cbn [with_loc] in Hrun. injection Hrun as _ <-.
      destruct depth as [|d]; [discriminate Hv|].
      unfold walked in Hin; cbn [heap] in Hin.
      rewrite list_lookup_middle in Hin by reflexivity. cbn [default] in Hin.
      rewrite List.Forall_forall in Hc. specialize (Hc _ Hin).
      unfold outside_candidate in Hc. cbn [snd] in Hc. congruence.
    + exists (requested (walk w depth owner repo path token indent)).
      split; [reflexivity|]. intros Hin.
      rewrite List.Forall_forall in Hr. destruct (Hr _ Hin) as (p & Heq & Hp).
      apply fetch_request_inj in Heq. congruence.
Qed.

(** The entry [.github/workflows/ci.yml] of the mocked root listing. *)
Lemma github_entries_skipped_witness :
  Py.contains ".github" (Py.split "/" ".github/workflows/ci.yml") = true
  /\ for_items
       (fun path indent file_paths =>
          build_directory_tree Mock.widgets 49 "acme" "widgets" path None indent
            (Some file_paths))
       0%nat 0%nat
       ([Mock.entry "README.md" "README.md" "file"]
        ++ Mock.entry "ci.yml" ".github/workflows/ci.yml" "file"
           :: [Mock.entry "setup.py" "setup.py" "file"])%list
       EmptyString {| heap := [[]]; sent := [] |}
     = (Ok ("README.md" ++ Py.nl ++ "setup.py" ++ Py.nl),
        {| heap := [[(0%nat, "README.md"); (0%nat, "setup.py")]]; sent := [] |}).
Proof.
  split; [reflexivity|].
  rewrite (proj1 (github_entries_skipped
                    (Mock.entry "ci.yml" ".github/workflows/ci.yml" "file") eq_refl)).
  reflexivity.
Defined.

(** The whole walk of the mocked repository: neither the [.github]
    directory nor the workflow file shows in the tree or among the
    candidates, and [.github] is never listed. *)
Example widgets_walk :
  let run :=
    build_directory_tree Mock.widgets 50 "acme" "widgets" "" None 0 None initial_state in
  observe (fst run) (snd run)
  = Ok ("README.md" ++ Py.nl ++ "[src/]" ++ Py.nl ++ "    main.py" ++ Py.nl
        ++ "    app.js" ++ Py.nl ++ "setup.py" ++ Py.nl ++ "style.css" ++ Py.nl
        ++ "logo.png" ++ Py.nl,
        [ (0%nat, "README.md"); (1%nat, "src/main.py"); (1%nat, "src/app.js");
          (0%nat, "setup.py"); (0%nat, "style.css") ])
  /\ map req_url (sent (snd run)) = [Mock.api ""; Mock.api "src"].
Proof. split; reflexivity. Qed.

(** ** C2: the URL parser *)






(** ** C8: the content fetcher *)

Section Fetcher.

Variable w : World.
Variables owner repo path : string.
Variable token : option string.

(** Every call sends exactly its request. *)
Lemma fetch_repo_content_sends (st : State) :
  sent (snd (fetch_repo_content w owner repo path token st))
  = (sent st ++ [fetch_request owner repo path token])%list.
Proof. now rewrite fetch_repo_content_spec. Qed.

(** The request carries the versioned-JSON [Accept] header. *)
Lemma fetch_request_accept :
  dict_get (req_headers (fetch_request owner repo path token)) "Accept"
  = Some "application/vnd.github.v3+json".
Proof. unfold fetch_request. destruct (truthy token); reflexivity. Qed.

(** The request carries a bearer [Authorization] header exactly when the
    token is true as a condition: neither [None] nor the empty string. *)
Lemma fetch_request_authorization :
  dict_get (req_headers (fetch_request owner repo path token)) "Authorization"
  = match token with
    | Some t => if String.eqb t EmptyString then None else Some ("Bearer " ++ t)
    | None => None
    end.
Proof.
  unfold fetch_request, truthy. destruct token as [t|]; [|reflexivity].
  destruct (String.eqb t EmptyString); reflexivity.
Qed.

(** Status 200: the parsed body is returned. *)
Lemma fetch_repo_content_200 (response : Response) (body : Json) (st : State) :
  requests_get w (fetch_request owner repo path token) = Ok response ->
  status_code response = 200 ->
  json response = Ok body ->
  fst (fetch_repo_content w owner repo path token st) = Ok (Some body).
Proof.
  intros Hget Hstatus Hjson. rewrite fetch_repo_content_spec. cbn [fst].
  unfold fetch_result. now rewrite Hget, Hstatus, Hjson.
Qed.

(** A client or server error status: an [HTTPError] carrying it. *)
Lemma fetch_repo_content_error_status (response : Response) (st : State) :
  requests_get w (fetch_request owner repo path token) = Ok response ->
  400 <= status_code response < 600 ->
  fst (fetch_repo_content w owner repo path token st)
  = Raise (HTTPError (status_code response)).
Proof.
  intros Hget Hstatus. rewrite fetch_repo_content_spec. cbn [fst].
  unfold fetch_result. rewrite Hget.
  destruct (Z.eqb_spec (status_code response) 200); [lia|].
  destruct (Z.leb_spec 400 (status_code response)); [|lia].
  destruct (Z.ltb_spec (status_code response) 600); [reflexivity | lia].
Qed.

(** Any other status: [raise_for_status] returns, and so does the
    fetcher, with [None]. *)
Lemma fetch_repo_content_other_status (response : Response) (st : State) :
  requests_get w (fetch_request owner repo path token) = Ok response ->
  status_code response <> 200 ->
  ~ (400 <= status_code response < 600) ->
  fst (fetch_repo_content w owner repo path token st) = Ok None.
Proof.
  intros Hget Hne Hout. rewrite fetch_repo_content_spec. cbn [fst].
  unfold fetch_result. rewrite Hget.
  destruct (Z.eqb_spec (status_code response) 200); [lia|].
  destruct (Z.leb_spec 400 (status_code response));
    destruct (Z.ltb_spec (status_code response) 600); cbn; try reflexivity; lia.
Qed.

End Fetcher.

(** C8, at a response with status 304.  The status is not 200, yet the
    fetcher does not fail: [raise_for_status] raises for the statuses from
    400 to 599 only, so the call returns [None] instead of raising an
    [HTTPError] that carries the status.  The request itself goes out
    with the [Accept] header and no [Authorization] header, as no token
    is given. *)
Theorem fetch_repo_content_304_returns_none :
  requests_get Mock.not_modified (fetch_request "acme" "widgets" "README.md" None)
  = Ok {| status_code := 304; json := Raise (LibraryError "JSONDecodeError") |}
  /\ fetch_repo_content Mock.not_modified "acme" "widgets" "README.md" None initial_state
     = (Ok None,
        {| heap := [];
           sent := [ {| req_url :=
                          "https://api.github.com/repos/acme/widgets/contents/README.md";
                        req_headers := [("Accept", "application/vnd.github.v3+json")] |} ] |})
  /\ fst (fetch_repo_content Mock.not_modified "acme" "widgets" "README.md" None initial_state)
     <> Raise (HTTPError 304).
Proof. split; [reflexivity|]. split; [reflexivity | discriminate]. Qed.

(** What becomes of the [None]: the walker fails on it with a
    [TypeError], not with the [HTTPError] of the response. *)
Example not_modified_build :
  fst (retrieve_github_repo_info Mock.not_modified Mock.url None 80 15000 200000
         initial_state)
  = Raise TypeError.
Proof. reflexivity. Qed.

(** ** Beyond the claims: how the budgets act on the snapshot *)

Lemma take_le_prefix (n m : nat) (s : string) :
  (n <= m)%nat -> exists rest, Py.take m s = Py.take n s ++ rest.
Proof.
  revert m s. induction n as [|n IH]; intros m s Hle.
  - exists (Py.take m s). reflexivity.
  - destruct m as [|m]; [lia|]. destruct s as [|c s]; [exists EmptyString; reflexivity|].
    destruct (IH m s ltac:(lia)) as [rest Hrest]. exists rest. cbn. now rewrite Hrest.
Qed.

Section Budgets.

Variable w : World.
Variables owner repo : string.
Variable token : option string.
Variable max_file_chars : Z.

(** The loop under smaller budgets builds a prefix of what it builds
    under larger ones. *)
Lemma for_file_paths_monotone (max_files1 max_files2 cap1 cap2 : Z) :
  max_files1 <= max_files2 ->
  cap1 <= cap2 ->
  forall (file_paths : list Candidate) (formatted_string : string) (files_added : Z)
         (st1 st2 st1' st2' : State) (text1 text2 : string),
    for_file_paths w owner repo token max_files1 max_file_chars cap1
      file_paths formatted_string files_added st1 = (Ok text1, st1') ->
    for_file_paths w owner repo token max_files2 max_file_chars cap2
      file_paths formatted_string files_added st2 = (Ok text2, st2') ->
    exists rest, text2 = text1 ++ rest.
Proof.
  intros Hmf Hcap file_paths.
  induction file_paths as [|[indent path] file_paths IH];
    intros fs fa st1 st2 st1' st2' text1 text2 H1 H2.
  - cbn in H1, H2. injection H1 as <- _. injection H2 as <- _.
    exists EmptyString. now rewrite append_empty_r.
  - destruct (for_file_paths_bounded w owner repo token max_files2 max_file_chars cap2
                ((indent, path) :: file_paths) fs fa st2) as (rest2 & st2'' & Heq2 & _).
    pose proof (eq_trans (eq_sym Heq2) H2) as He. injection He as <- _. clear H2.
    rewrite for_file_paths_cons in H1, Heq2.
    destruct ((fa >=? max_files1) || (Py.len fs >=? cap1)) eqn:G1.
    { injection H1 as <- _. eauto. }
    apply loop_guard_false in G1. destruct G1 as [Hfa Hlen].
    destruct ((fa >=? max_files2) || (Py.len fs >=? cap2)) eqn:G2.
    { apply loop_guard_true in G2. lia. }
    cbv zeta in H1, Heq2.
    destruct (snippet_result w owner repo token max_file_chars indent path)
      as [snippet|e].
    + destruct (Z.gtb_spec (Py.len fs + Py.len snippet) cap1) as [Hover1|Hfit1].
      * destruct (clip_to_remaining cap1 fs snippet Hlen ltac:(lia)) as [Hclip1 _].
        rewrite Hclip1 in H1. injection H1 as <- _.
        destruct (Z.gtb_spec (Py.len fs + Py.len snippet) cap2) as [Hover2|Hfit2].
        -- destruct (clip_to_remaining cap2 fs snippet ltac:(lia) ltac:(lia)) as [Hclip2 _].
           rewrite Hclip2 in Heq2. injection Heq2 as Heq2 _.
           apply append_inj_l in Heq2. subst rest2.
           destruct (take_le_prefix (Z.to_nat (cap1 - Py.len fs))
                       (Z.to_nat (cap2 - Py.len fs)) snippet ltac:(lia)) as [rest ->].
           exists rest. now rewrite append_assoc.
        -- destruct (for_file_paths_bounded w owner repo token max_files2 max_file_chars
                       cap2 file_paths (fs ++ snippet) (fa + 1)
                       (logged (fetch_request owner repo path token) st2))
             as (rest & st3 & Heq3 & _).
           rewrite Heq3 in Heq2. injection Heq2 as Heq2 _. rewrite <- Heq2.
           exists (Py.drop (Z.to_nat (cap1 - Py.len fs)) snippet ++ rest).
           rewrite !append_assoc. f_equal.
           now rewrite <- append_assoc, take_drop.
      * destruct (Z.gtb_spec (Py.len fs + Py.len snippet) cap2) as [Hover2|Hfit2]; [lia|].
        eapply IH; [exact H1 | exact Heq2].
    + eapply IH; [exact H1 | exact Heq2].
Qed.

End Budgets.

(** X1.  Lowering [max_files] or [total_chars_cap] cuts the snapshot short and
    changes nothing else: the snapshot under the smaller budgets is a
    prefix of the one under the larger budgets. *)
Theorem smaller_budgets_give_prefix (w : World) (url : string) (token : option string)
    (max_files1 max_files2 max_file_chars cap1 cap2 : Z) (st st2 : State)
    (snapshot2 : string) :
  max_files1 <= max_files2 ->
  cap1 <= cap2 ->
  retrieve_github_repo_info w url token max_files2 max_file_chars cap2 st
  = (Ok snapshot2, st2) ->
  exists snapshot1 st1 rest,
    retrieve_github_repo_info w url token max_files1 max_file_chars cap1 st
    = (Ok snapshot1, st1)
    /\ snapshot2 = snapshot1 ++ rest.
Proof.
  intros Hmf Hcap H2. rewrite retrieve_github_repo_info_spec in H2 |- *.
  destruct (parse_github_url url) as [[owner repo]|e]; [|discriminate H2].
  cbv zeta in H2 |- *.
  destruct (value (walk w (recursion_limit w) owner repo EmptyString token 0))
    as [tree|e]; [|discriminate H2].
  match goal with
  | |- exists s1 st1 rest, for_file_paths ?w ?o ?r ?t ?mf ?mfc ?cap ?c ?fs ?fa ?s = _ /\ _ =>
      destruct (for_file_paths_bounded w o r t mf mfc cap c fs fa s)
        as (files1 & st1 & Heq1 & _)
  end.
  destruct (for_file_paths_monotone w owner repo token max_file_chars
              max_files1 max_files2 cap1 cap2 Hmf Hcap _ _ _ _ _ _ _ _ _ Heq1 H2)
    as [rest Hrest].
  eexists _, st1, rest. split; [exact Heq1 | exact Hrest].
Qed.

(** ** Beyond the claims: the requests of a build *)

Section Requests.

Variable w : World.
Variables owner repo : string.
Variable token : option string.

Local Abbreviation ours := (repo_request owner repo token).

Lemma items_outcome_requests (rec_o : string -> nat -> Outcome string) :
  (forall p i, Forall ours (requested (rec_o p i))) ->
  forall items indent tree_str,
    Forall ours (requested (items_outcome rec_o indent items tree_str)).
Proof.
  intros Hrec items. induction items as [|item rest IH]; intros indent tree_str.
  - constructor.
  - cbn [items_outcome]. destruct (in_github_dir item); [apply IH|].
    destruct (String.eqb (item_type item) "dir").
    + pose proof (Hrec (item_path item) (indent + 1)%nat) as Hr.
      destruct (rec_o (item_path item) (indent + 1)%nat) as [[[sub|e] cs] rs];
        unfold requested in *; cbn [fst snd] in *; [|assumption].
      specialize (IH indent
        ((tree_str ++ Py.repeat "    " indent ++ "[" ++ item_name item ++ "/]" ++ Py.nl)
         ++ sub)).
      destruct (items_outcome rec_o indent rest _) as [[res cs'] rs'].
      cbn [fst snd] in *. apply Forall_app. split; assumption.
    + specialize (IH indent
        (tree_str ++ Py.repeat "    " indent ++ item_name item ++ Py.nl)).
      destruct (items_outcome rec_o indent rest _) as [[res cs'] rs'].
      exact IH.
Qed.

Lemma walk_requests (depth : nat) :
  forall path indent,
    Forall ours (requested (walk w depth owner repo path token indent)).
Proof.
  induction depth as [|depth IH]; intros path indent.
  - constructor.
  - cbn [walk].
    destruct (fetch_result w owner repo path token) as [v|e];
      [|repeat constructor; eexists; reflexivity].
    destruct (iter_items v) as [items|e];
      [|repeat constructor; eexists; reflexivity].
    pose proof (items_outcome_requests
                  (fun path indent => walk w depth owner repo path token indent)
                  IH items indent EmptyString) as Hr.
    destruct (items_outcome _ indent items EmptyString) as [[res cs] rs].
    unfold requested in *; cbn [fst snd] in *.
    constructor; [eexists; reflexivity | assumption].
Qed.

(** The loop sends one request for each candidate it tries, and no more
    than one for each candidate of the list. *)
Lemma for_file_paths_requests (max_files max_file_chars total_chars_cap : Z)
    (file_paths : list Candidate) :
  forall (formatted_string : string) (files_added : Z) (st : State),
  exists rs,
    snd (for_file_paths w owner repo token max_files max_file_chars total_chars_cap
           file_paths formatted_string files_added st)
    = {| heap := heap st; sent := (sent st ++ rs)%list |}
    /\ Forall ours rs
    /\ (length rs <= length file_paths)%nat.
Proof.
  induction file_paths as [|[indent path] file_paths IH]; intros fs fa st.
  - exists []. destruct st as [h rq]. cbn. rewrite app_nil_r.
    split; [reflexivity|]. split; [constructor | lia].
  - rewrite for_file_paths_cons.
    destruct ((fa >=? max_files) || (Py.len fs >=? total_chars_cap)).
    { exists []. destruct st as [h rq]. cbn [snd heap sent]. rewrite app_nil_r.
      split; [reflexivity|]. split; [constructor | cbn; lia]. }
    cbv zeta.
    assert (Hone : forall fs' fa',
      exists rs,
        snd (for_file_paths w owner repo token max_files max_file_chars total_chars_cap
               file_paths fs' fa' (logged (fetch_request owner repo path token) st))
        = {| heap := heap st; sent := (sent st ++ rs)%list |}
        /\ Forall ours rs /\ (length rs <= length ((indent, path) :: file_paths))%nat).
    { intros fs' fa'.
      destruct (IH fs' fa' (logged (fetch_request owner repo path token) st))
        as (rs & Hsnd & Hall & Hlen).
      exists (fetch_request owner repo path token :: rs).
      rewrite Hsnd. cbn [logged heap sent length]. rewrite <- app_assoc.
      split; [reflexivity|].
      split; [constructor; [eexists; reflexivity | assumption] |].
      simpl. apply le_n_S. exact Hlen. }
    destruct (snippet_result w owner repo token max_file_chars indent path)
      as [snippet|e]; [|apply Hone].
    destruct (Py.len fs + Py.len snippet >? total_chars_cap); [|apply Hone].
    exists [fetch_request owner repo path token]. cbn [snd length].
    split; [reflexivity|].
    split; [repeat constructor; eexists; reflexivity | simpl; lia].
Qed.

End Requests.

(** X2.  A build whose URL does not parse sends nothing and changes nothing.
    Any other build first asks for [README.md], then walks the tree, then
    asks for candidates; every request it sends, whether it succeeds or
    not, is a request of the contents API for the owner and repository
    of the URL, with the headers that go with the token. *)
Theorem build_requests_stay_in_repo (w : World) (url : string) (token : option string)
    (max_files max_file_chars total_chars_cap : Z) (st : State) :
  match parse_github_url url with
  | Raise e =>
      retrieve_github_repo_info w url token max_files max_file_chars total_chars_cap st
      = (Raise e, st)
  | Ok (owner, repo) =>
      exists rs,
        sent (snd (retrieve_github_repo_info w url token max_files max_file_chars
                     total_chars_cap st))
        = (sent st ++ fetch_request owner repo "README.md" token :: rs)%list
        /\ Forall (repo_request owner repo token) rs
        /\ (recursion_limit w <> O ->
            exists rs', rs = fetch_request owner repo EmptyString token :: rs')
  end.
Proof.
  rewrite retrieve_github_repo_info_spec.
  destruct (parse_github_url url) as [[owner repo]|e]; [|reflexivity].
  cbv zeta.
  pose proof (walk_requests w owner repo token (recursion_limit w) EmptyString 0) as Hw.
  assert (Hroot : recursion_limit w <> O ->
            exists rs', requested (walk w (recursion_limit w) owner repo EmptyString token 0)
                        = fetch_request owner repo EmptyString token :: rs').
  { intros Hd. destruct (recursion_limit w) as [|d]; [congruence|]. cbn [walk].
    destruct (fetch_result w owner repo EmptyString token) as [v|e]; [|eexists; reflexivity].
    destruct (iter_items v) as [items|e]; [|eexists; reflexivity].
    destruct (items_outcome _ 0%nat items EmptyString) as [[res cs] rs].
    eexists; reflexivity. }
  destruct (value (walk w (recursion_limit w) owner repo EmptyString token 0))
    as [tree|e].
  - match goal with
    | |- context [for_file_paths ?w ?o ?r ?t ?mf ?mfc ?cap ?c ?fs ?fa ?s] =>
        destruct (for_file_paths_requests w o r t mf mfc cap c fs fa s)
          as (rs & Hsnd & Hall & _)
    end.
    rewrite Hsnd. cbn [sent walked logged].
    exists (requested (walk w (recursion_limit w) owner repo EmptyString token 0) ++ rs)%list.
    split; [now rewrite <- !app_assoc|].
    split; [apply Forall_app; split; assumption|].
    intros Hd. destruct (Hroot Hd) as [rs' ->]. eexists. reflexivity.
  - cbn [snd sent walked logged].
    exists (requested (walk w (recursion_limit w) owner repo EmptyString token 0)).
    split; [now rewrite <- !app_assoc|]. split; [assumption|]. exact Hroot.
Qed.

(** A URL whose host is in square brackets without being an address
    literal does not parse: the build raises the [ValueError] of
    [urlparse] and sends nothing. *)
Example bracketed_host_build :
  retrieve_github_repo_info Mock.widgets "https://[github.com]/acme/widgets" None
    80 15000 200000 initial_state
  = (Raise (ValueError "'github.com' does not appear to be an IPv4 or IPv6 address"),
     initial_state).
Proof. reflexivity. Qed.

(** ** Beyond the claims: edge cases of a build *)

(** X3.  With no file allowed, or with the cap already met by the README
    section and the tree, the snapshot is these two sections and nothing
    else, and no candidate is requested: the state is the one the walk
    left. *)
Theorem exhausted_budget_embeds_nothing (w : World) (url : string)
    (token : option string) (max_files max_file_chars total_chars_cap : Z)
    (st st0 st1 : State) (owner repo readme directory_tree : string) (l : loc) :
  parse_github_url url = Ok (owner, repo) ->
  readme_section w owner repo token max_file_chars st = (Ok readme, st0) ->
  build_directory_tree w (recursion_limit w) owner repo EmptyString token 0 None st0
  = (Ok (directory_tree, l), st1) ->
  max_files <= 0 \/ total_chars_cap <= Py.len (readme ++ tree_section directory_tree) ->
  retrieve_github_repo_info w url token max_files max_file_chars total_chars_cap st
  = (Ok (readme ++ tree_section directory_tree), st1).
Proof.
  intros Hp Hreadme Hwalk Hbudget.
  rewrite readme_section_spec in Hreadme. injection Hreadme as <- <-.
  apply root_walk_inv in Hwalk. destruct Hwalk as (Hv & _ & Hst1 & _).
  rewrite retrieve_github_repo_info_spec, Hp. cbv zeta. rewrite Hv, <- Hst1.
  apply for_file_paths_stops. lia.
Qed.

Lemma exhausted_budget_embeds_nothing_witness :
  exists (st1 : State) (directory_tree : string),
    length (sent st1) = 3%nat
    /\ retrieve_github_repo_info Mock.widgets Mock.url None 0 15000 200000 initial_state
       = (Ok (readme_block "Hello widgets" ++ tree_section directory_tree), st1).
Proof.
  eassert (Hreadme : readme_section Mock.widgets "acme" "widgets" None 15000 initial_state
                     = (Ok _, _)) by (vm_compute; reflexivity).
  eassert (Hwalk : build_directory_tree Mock.widgets (recursion_limit Mock.widgets)
                     "acme" "widgets" "" None 0 None _ = (Ok (_, _), _))
    by (vm_compute; reflexivity).
  eexists _, _. split; [|
    apply (exhausted_budget_embeds_nothing Mock.widgets Mock.url None 0 15000 200000
             initial_state _ _ "acme" "widgets" _ _ _ eq_refl Hreadme Hwalk);
    left; lia].
  reflexivity.
Defined.

(** X4.  An empty repository: when the root listing is empty the snapshot is
    the README section followed by the bare tree header, after exactly
    two requests, and the one list object allocated stays empty. *)
Theorem empty_repository_snapshot (w : World) (url : string) (token : option string)
    (max_files max_file_chars total_chars_cap : Z) (st : State) (owner repo : string) :
  parse_github_url url = Ok (owner, repo) ->
  recursion_limit w <> O ->
  fst (fetch_repo_content w owner repo EmptyString token st) = Ok (Some (JListing [])) ->
  exists readme,
    fst (readme_section w owner repo token max_file_chars st) = Ok readme
    /\ retrieve_github_repo_info w url token max_files max_file_chars total_chars_cap st
       = (Ok (readme ++ "Directory Structure:" ++ Py.nl ++ Py.nl),
          {| heap := (heap st ++ [[]])%list;
             sent := (sent st ++ [fetch_request owner repo "README.md" token;
                                  fetch_request owner repo EmptyString token])%list |}).
Proof.
  intros Hp Hd Hroot. rewrite fetch_repo_content_spec in Hroot. cbn [fst] in Hroot.
  exists (readme_text w owner repo token max_file_chars).
  split; [now rewrite readme_section_spec|].
  rewrite retrieve_github_repo_info_spec, Hp. cbv zeta.
  destruct (recursion_limit w) as [|d]; [congruence|].
  cbn [walk]. rewrite Hroot. cbn [iter_items items_outcome value appended fst snd].
  cbn [for_file_paths]. unfold ret, walked, logged, requested, appended, tree_section.
  cbn [heap sent fst snd]. now rewrite <- app_assoc.
Qed.

Lemma empty_repository_snapshot_witness :
  (parse_github_url Mock.url = Ok ("acme", "widgets")
   /\ recursion_limit Mock.empty_repository <> O
   /\ fst (fetch_repo_content Mock.empty_repository "acme" "widgets" "" None initial_state)
      = Ok (Some (JListing [])))
  /\ fst (retrieve_github_repo_info Mock.empty_repository Mock.url None 80 15000 200000
            initial_state)
     = Ok (readme_placeholder ++ "Directory Structure:" ++ Py.nl ++ Py.nl).
Proof.
  split; [split; [reflexivity | split; [discriminate | reflexivity]]|].
  destruct (empty_repository_snapshot Mock.empty_repository Mock.url None 80 15000 200000
              initial_state "acme" "widgets" eq_refl ltac:(discriminate) eq_refl)
    as (readme & Hreadme & Hrun).
  rewrite Hrun. cbn [fst]. vm_compute in Hreadme. injection Hreadme as <-. reflexivity.
Defined.



(** ** Beyond the claims: what the URL parser returns *)

Lemma split_no_separator (c : ascii) (s : string) :
  Forall (fun seg => Py.has_char c seg = false) (Py.split c s).
Proof.
  induction s as [|a s IH]; [repeat constructor|].
  cbn [Py.split]. destruct (Ascii.eqb a c) eqn:Hac; [constructor; [reflexivity | exact IH]|].
  destruct (Py.split c s) as [|x xs]; [repeat constructor; cbn; now rewrite Hac|].
  inversion IH as [|? ? Hx Hxs]; subst. constructor; [|exact Hxs].
  cbn. now rewrite Hac, Hx.
Qed.

Lemma has_char_take (c : ascii) (n : nat) (s : string) :
  Py.has_char c s = false -> Py.has_char c (Py.take n s) = false.
Proof.
  revert s. induction n as [|n IH]; intros [|a s]; cbn; try reflexivity.
  intros H. apply orb_false_elim in H. destruct H as [-> H]. now rewrite IH.
Qed.

(** X6.  Whatever parses gives an owner that is not empty, and an owner and a
    repository name without a slash: the two can be put into the path of
    a request for the contents API without adding a path segment.  (The
    repository name itself can be empty.) *)
Theorem parse_github_url_names (url owner repo : string) :
  parse_github_url url = Ok (owner, repo) ->
  owner <> EmptyString
  /\ Py.has_char "/" owner = false
  /\ Py.has_char "/" repo = false.
Proof.
  unfold parse_github_url.
  destruct (Urllib.urlparse url) as [parsed_url|e]; [|discriminate].
  pose proof (split_no_separator "/" (Py.strip "/" (Urllib.path parsed_url))) as Hsep.
  destruct (Py.split "/" (Py.strip "/" (Urllib.path parsed_url)))
    as [|seg0 [|seg1 rest]] eqn:Hsplit; try discriminate.
  cbn [length Nat.leb nth]. intros [= <- <-].
  destruct (split_strip_two _ _ _ _ Hsplit) as [Hne _].
  inversion Hsep as [|? ? H0 Hrest]; subst. inversion Hrest as [|? ? H1 _]; subst.
  split; [exact Hne|]. split; [exact H0|].
  destruct (Py.endswith seg1 ".git"); [|exact H1].
  unfold Py.slice_to. destruct (0 <=? -4); now apply has_char_take.
Qed.

Lemma parse_github_url_names_witness :
  parse_github_url "https://github.com/acme//widgets" = Ok ("acme", "")
  /\ "acme" <> "" /\ Py.has_char "/" "acme" = false /\ Py.has_char "/" "" = false.
Proof.
  split; [reflexivity|].
  exact (parse_github_url_names "https://github.com/acme//widgets" "acme" "" eq_refl).
Defined.

Section CanonicalUrl.

Lemma all_chars_app (p : ascii -> bool) (a b : string) :
  Py.all_chars p (a ++ b) = Py.all_chars p a && Py.all_chars p b.
Proof. induction a as [|x a IH]; cbn; [reflexivity | now rewrite IH, andb_assoc]. Qed.

Lemma all_chars_impl (p q : ascii -> bool) (s : string) :
  (forall a, p a = true -> q a = true) ->
  Py.all_chars p s = true -> Py.all_chars q s = true.
Proof.
  intros Hpq. induction s as [|x s IH]; cbn; [reflexivity|].
  intros H. apply andb_true_iff in H. destruct H as [Hx Hs].
  now rewrite (Hpq _ Hx), IH.
Qed.

Lemma filter_chars_id (p : ascii -> bool) (s : string) :
  Py.all_chars p s = true -> Py.filter_chars p s = s.
Proof.
  induction s as [|x s IH]; cbn; [reflexivity|].
  intros H. apply andb_true_iff in H. destruct H as [-> Hs]. now rewrite IH.
Qed.

Lemma has_char_absent (c : ascii) (s : string) :
  Py.all_chars (fun a => negb (Ascii.eqb a c)) s = true -> Py.has_char c s = false.
Proof.
  induction s as [|x s IH]; cbn; [reflexivity|].
  intros H. apply andb_true_iff in H. destruct H as [Hx Hs].
  apply negb_true_iff in Hx. now rewrite Hx, IH.
Qed.

Lemma find_absent (c : ascii) (s : string) :
  Py.has_char c s = false -> Py.find c s = None.
Proof.
  induction s as [|x s IH]; cbn; [reflexivity|].
  intros H. apply orb_false_elim in H. destruct H as [-> Hs]. now rewrite IH.
Qed.

Lemma url_char_absent (c : ascii) (s : string) :
  Py.has_char c "?#;" = true ->
  Py.all_chars url_char s = true -> Py.has_char c s = false.
Proof.
  intros Hc Hs. apply has_char_absent. revert Hs. apply all_chars_impl.
  intros a Ha. unfold url_char in Ha. apply andb_true_iff in Ha. destruct Ha as [Ha _].
  apply negb_true_iff in Ha. apply negb_true_iff.
  destruct (Ascii.eqb_spec a c) as [->|]; [congruence | reflexivity].
Qed.

Lemma segment_char_no_slash (s : string) :
  Py.all_chars segment_char s = true -> Py.has_char "/" s = false.
Proof.
  intros Hs. apply has_char_absent. revert Hs. apply all_chars_impl.
  intros a Ha. unfold segment_char in Ha. now apply andb_true_iff in Ha.
Qed.

Lemma segment_char_url_char (s : string) :
  Py.all_chars segment_char s = true -> Py.all_chars url_char s = true.
Proof.
  apply all_chars_impl. intros a Ha. unfold segment_char in Ha.
  now apply andb_true_iff in Ha.
Qed.

(** [urlparse] on a URL of the host, with nothing after the path. *)
Lemma urlparse_github (p : string) :
  Py.all_chars url_char p = true ->
  Urllib.urlparse ("https://github.com/" ++ p)
  = Ok {| Urllib.scheme := "https"; Urllib.netloc := "github.com";
          Urllib.path := "/" ++ p; Urllib.params := EmptyString;
          Urllib.query := EmptyString; Urllib.fragment := EmptyString |}.
Proof.
  intros Hp. unfold Urllib.urlparse.
  change (Py.lstrip_while Urllib.c0_control_or_space ("https://github.com/" ++ p))
    with ("https://github.com/" ++ p).
  rewrite filter_chars_id.
  2:{ rewrite all_chars_app. apply andb_true_iff. split; [reflexivity|].
      revert Hp. apply all_chars_impl. intros a Ha. unfold url_char in Ha.
      now apply andb_true_iff in Ha. }
  change (Urllib.split_scheme ("https://github.com/" ++ p))
    with ("https", "//github.com/" ++ p).
  cbv beta iota.
  change (Py.startswith "//" ("//github.com/" ++ p)) with true.
  cbv beta iota.
  change (Urllib.splitnetloc ("//github.com/" ++ p)) with ("github.com", "/" ++ p).
  cbv beta iota.
  change (Urllib.check_netloc "github.com") with (Ok tt).
  cbv beta iota.
  assert (Hno : forall c, Py.has_char c "?#;" = true -> Ascii.eqb "/" c = false ->
                          Py.has_char c ("/" ++ p) = false).
  { intros c Hc Hslash. cbn [append Py.has_char]. rewrite Hslash.
    now apply url_char_absent. }
  unfold Urllib.split_at.
  rewrite (find_absent "#") by (apply Hno; reflexivity). cbv iota beta.
  rewrite (find_absent "?") by (apply Hno; reflexivity). cbv iota beta.
  rewrite (Hno ";"%char) by reflexivity. rewrite andb_false_r. reflexivity.
Qed.

Lemma rstrip_id (c : ascii) (s : string) :
  Py.has_char c s = false -> Py.rstrip c s = s.
Proof.
  induction s as [|a s IH]; cbn; [reflexivity|].
  intros H. apply orb_false_elim in H. destruct H as [Ha Hs].
  rewrite (IH Hs), Ha. now destruct s.
Qed.

Lemma rstrip_app (c : ascii) (a t : string) :
  Py.rstrip c (a ++ t)
  = match Py.rstrip c t with
    | EmptyString => Py.rstrip c a
    | String _ _ => a ++ Py.rstrip c t
    end.
Proof.
  induction a as [|x a IH].
  - cbn. now destruct (Py.rstrip c t).
  - cbn [append Py.rstrip]. rewrite IH.
    destruct (Py.rstrip c t) as [|y r]; [reflexivity|].
    now destruct a.
Qed.

Lemma split_app_separator (c : ascii) (a t : string) :
  Py.has_char c a = false ->
  Py.split c (a ++ String c t) = a :: Py.split c t.
Proof.
  induction a as [|x a IH]; intros H.
  - cbn. now rewrite Ascii.eqb_refl.
  - cbn in H. apply orb_false_elim in H. destruct H as [Hx Ha].
    cbn [append Py.split]. now rewrite Hx, (IH Ha).
Qed.

Lemma split_single (c : ascii) (s : string) :
  Py.has_char c s = false -> Py.split c s = [s].
Proof.
  induction s as [|x s IH]; intros H; [reflexivity|].
  cbn in H. apply orb_false_elim in H. destruct H as [Hx Hs].
  cbn [Py.split]. now rewrite Hx, (IH Hs).
Qed.

Lemma take_length_append (a b : string) : Py.take (String.length a) (a ++ b) = a.
Proof. induction a as [|c a IH]; cbn; [now destruct b | now rewrite IH]. Qed.

Lemma drop_length_append (a b : string) : Py.drop (String.length a) (a ++ b) = b.
Proof. induction a as [|c a IH]; cbn; [reflexivity | exact IH]. Qed.

Lemma endswith_append (a p : string) : Py.endswith (a ++ p) p = true.
Proof.
  unfold Py.endswith. rewrite length_append.
  replace (String.length a + String.length p - String.length p)%nat
    with (String.length a) by lia.
  rewrite drop_length_append, String.eqb_refl.
  apply andb_true_iff. split; [apply Nat.leb_le; lia | reflexivity].
Qed.

Lemma slice_to_append (a p : string) :
  p <> EmptyString ->
  Py.slice_to (a ++ p) (- Z.of_nat (String.length p)) = a.
Proof.
  intros Hp. destruct p as [|c p]; [congruence|].
  unfold Py.slice_to, Py.len. rewrite length_append.
  destruct (Z.leb_spec 0 (- Z.of_nat (String.length (String c p)))); [cbn in *; lia|].
  replace (Z.to_nat _) with (String.length a) by lia.
  apply take_length_append.
Qed.

Lemma has_char_app (c : ascii) (a b : string) :
  Py.has_char c (a ++ b) = Py.has_char c a || Py.has_char c b.
Proof. induction a as [|x a IH]; cbn; [reflexivity | now rewrite IH, orb_assoc]. Qed.

(** The path [/owner/tail], stripped, with or without a slash at its end. *)
Lemma strip_of_two (owner tail : string) :
  owner <> EmptyString ->
  Py.has_char "/" owner = false ->
  tail <> EmptyString ->
  Py.has_char "/" tail = false ->
  Py.strip "/" ("/" ++ owner ++ "/" ++ tail) = owner ++ "/" ++ tail
  /\ Py.strip "/" ("/" ++ owner ++ "/" ++ tail ++ "/") = owner ++ "/" ++ tail.
Proof.
  intros Ho Hos Ht Hts.
  assert (Hl : forall rest, Py.lstrip "/" ("/" ++ owner ++ rest) = owner ++ rest).
  { intros rest. destruct owner as [|a o]; [congruence|]. cbn in Hos.
    apply orb_false_elim in Hos. destruct Hos as [Ha _].
    cbn [append Py.lstrip]. now rewrite Ascii.eqb_refl, Ha. }
  assert (Hr : Py.rstrip "/" (owner ++ "/" ++ tail) = owner ++ "/" ++ tail).
  { rewrite !rstrip_app, (rstrip_id "/" tail Hts).
    destruct tail as [|b t]; [congruence | reflexivity]. }
  unfold Py.strip. split.
  - now rewrite Hl, Hr.
  - rewrite Hl.
    replace (owner ++ "/" ++ tail ++ "/") with ((owner ++ "/" ++ tail) ++ "/")
      by (now rewrite !append_assoc).
    rewrite rstrip_app. cbn [Py.rstrip]. rewrite Ascii.eqb_refl. exact Hr.
Qed.

Lemma split_of_two (owner tail : string) :
  Py.has_char "/" owner = false ->
  Py.has_char "/" tail = false ->
  Py.split "/" (owner ++ "/" ++ tail) = [owner; tail].
Proof.
  intros Hos Hts. cbn [append].
  rewrite split_app_separator by assumption. now rewrite split_single.
Qed.

End CanonicalUrl.

(** X7.  Formatting and parsing: the URL of a repository page, with or without
    a trailing slash, and its clone URL parse back to the owner and the
    repository they were made from, for names without a slash, [?], [#],
    [;], tab, carriage return or line feed.  A name that itself ends in
    [.git] is the exception for the first two forms: its suffix is cut. *)
Theorem parse_github_url_round_trip (owner repo : string) :
  owner <> EmptyString ->
  repo <> EmptyString ->
  Py.all_chars segment_char owner = true ->
  Py.all_chars segment_char repo = true ->
  parse_github_url ("https://github.com/" ++ owner ++ "/" ++ repo ++ ".git")
  = Ok (owner, repo)
  /\ (Py.endswith repo ".git" = false ->
      parse_github_url ("https://github.com/" ++ owner ++ "/" ++ repo) = Ok (owner, repo)
      /\ parse_github_url ("https://github.com/" ++ owner ++ "/" ++ repo ++ "/")
         = Ok (owner, repo)).
Proof.
  intros Ho Hr Hoc Hrc.
  pose proof (segment_char_url_char _ Hoc) as Hou.
  pose proof (segment_char_url_char _ Hrc) as Hru.
  pose proof (segment_char_no_slash _ Hoc) as Hos.
  pose proof (segment_char_no_slash _ Hrc) as Hrs.
  assert (Hurl : forall suffix,
            Py.all_chars url_char suffix = true ->
            Urllib.urlparse ("https://github.com/" ++ owner ++ "/" ++ repo ++ suffix)
            = Ok {| Urllib.scheme := "https"; Urllib.netloc := "github.com";
                    Urllib.path := "/" ++ owner ++ "/" ++ repo ++ suffix;
                    Urllib.params := EmptyString; Urllib.query := EmptyString;
                    Urllib.fragment := EmptyString |}).
  { intros suffix Hs. apply urlparse_github.
    rewrite !all_chars_app, Hou, Hru, Hs. reflexivity. }
  split; [|intros Hgit; split].
  - unfold parse_github_url. rewrite (Hurl ".git" eq_refl). cbn [Urllib.path].
    assert (Hne : repo ++ ".git" <> EmptyString) by (destruct repo; discriminate).
    assert (Hns : Py.has_char "/" (repo ++ ".git") = false)
      by (rewrite has_char_app, Hrs; reflexivity).
    rewrite (proj1 (strip_of_two owner (repo ++ ".git") Ho Hos Hne Hns)).
    rewrite split_of_two by assumption.
    cbn [length Nat.leb nth]. rewrite endswith_append.
    change (-4) with (- Z.of_nat (String.length ".git")).
    now rewrite slice_to_append by discriminate.
  - unfold parse_github_url.
    pose proof (Hurl EmptyString eq_refl) as H. rewrite append_empty_r in H. rewrite H.
    cbn [Urllib.path].
    rewrite (proj1 (strip_of_two owner repo Ho Hos Hr Hrs)).
    rewrite split_of_two by assumption.
    cbn [length Nat.leb nth]. now rewrite Hgit.
  - unfold parse_github_url. rewrite (Hurl "/" eq_refl). cbn [Urllib.path].
    rewrite (proj2 (strip_of_two owner repo Ho Hos Hr Hrs)).
    rewrite split_of_two by assumption.
    cbn [length Nat.leb nth]. now rewrite Hgit.
Qed.

Lemma parse_github_url_round_trip_witness :
  ("octo-cat" <> "" /\ "hello_world.py" <> ""
   /\ Py.all_chars segment_char "octo-cat" = true
   /\ Py.all_chars segment_char "hello_world.py" = true
   /\ Py.endswith "hello_world.py" ".git" = false)
  /\ parse_github_url "https://github.com/octo-cat/hello_world.py/"
     = Ok ("octo-cat", "hello_world.py").
Proof.
  split; [repeat split; discriminate|].
  apply (parse_github_url_round_trip "octo-cat" "hello_world.py");
    first [discriminate | reflexivity].
Defined.

Lemma smaller_budgets_give_prefix_witness :
  exists snapshot2 st2 snapshot1 rest,
    retrieve_github_repo_info Mock.widgets Mock.url None 80 15000 200000 initial_state
    = (Ok snapshot2, st2)
    /\ fst (retrieve_github_repo_info Mock.widgets Mock.url None 2 15000 150 initial_state)
       = Ok snapshot1
    /\ snapshot2 = snapshot1 ++ rest.
Proof.
  eassert (H2 : retrieve_github_repo_info Mock.widgets Mock.url None 80 15000 200000
                  initial_state = (Ok _, _)) by (vm_compute; reflexivity).
  destruct (smaller_budgets_give_prefix Mock.widgets Mock.url None 2 80 15000 150 200000
              initial_state _ _ ltac:(lia) ltac:(lia) H2)
    as (snapshot1 & st1 & rest & H1 & Hrest).
  eexists _, _, snapshot1, rest. split; [exact H2|]. split; [now rewrite H1 | exact Hrest].
Defined.

(** ** Beyond the claims: a listing without directories *)

(** X8.  A listing in which no entry outside [.github] is a directory is walked
    without any request.  The tree string gains one line for each entry
    outside [.github], in the order of the listing, and the candidates
    appended are the entries among these whose name has one of the text
    extensions, in the same order, all at the depth of the listing. *)
Theorem flat_listing_walk (rec : string -> nat -> loc -> M (string * loc))
    (indent : nat) (file_paths : loc) (items : list DirectoryEntry)
    (tree_str : string) (st : State) :
  Forall (fun item => in_github_dir item = true \/ item_type item <> "dir") items ->
  for_items rec indent file_paths items tree_str st
  = (Ok (tree_str
         ++ concat_all (map (file_line indent) (List.filter rendered_file items))),
     {| heap := alter (fun old => (old ++ map (fun item => (indent, item_path item))
                                           (List.filter collected items))%list)
                  file_paths (heap st);
        sent := sent st |}).
Proof.
  intros Hflat. revert tree_str st.
  induction Hflat as [|item items Hitem _ IH]; intros tree_str st.
  - cbn. rewrite append_empty_r. unfold ret. destruct st as [h rq]. cbn. f_equal. f_equal.
    symmetry. apply list_alter_id. intros x. apply app_nil_r.
  - cbn [for_items List.filter]. unfold rendered_file at 1, collected at 1.
    destruct (in_github_dir item) eqn:Hg; cbn [negb andb]; [apply IH|].
    destruct Hitem as [Hitem|Hitem]; [discriminate|].
    destruct (String.eqb_spec (item_type item) "dir") as [|_]; [contradiction|].
    cbn [negb]. unfold bind.
    destruct (Py.endswith_any (item_name item) text_extensions).
    + rewrite list_append_spec, IH. cbn [extended heap sent map concat_all fold_right].
      fold (concat_all (map (file_line indent) (List.filter rendered_file items))).
      unfold file_line at 2. rewrite !append_assoc. f_equal. f_equal.
      * rewrite list_alter_alter_eq. apply list_alter_ext; [|reflexivity].
        intros x _. cbn. now rewrite <- app_assoc.
      * apply app_nil_r.
    + unfold ret. rewrite IH. cbn [map concat_all fold_right].
      fold (concat_all (map (file_line indent) (List.filter rendered_file items))).
      unfold file_line at 2. now rewrite !append_assoc.
Qed.

Lemma flat_listing_walk_witness :
  Forall (fun item => in_github_dir item = true \/ item_type item <> "dir")
    [ Mock.entry "main.py" "src/main.py" "file";
      Mock.entry "ci.yml" ".github/workflows/ci.yml" "file";
      Mock.entry "logo.png" "src/logo.png" "file" ]
  /\ for_items (fun _ _ _ => raise RecursionError) 1 0%nat
       [ Mock.entry "main.py" "src/main.py" "file";
         Mock.entry "ci.yml" ".github/workflows/ci.yml" "file";
         Mock.entry "logo.png" "src/logo.png" "file" ]
       EmptyString {| heap := [[]]; sent := [] |}
     = (Ok ("    main.py" ++ Py.nl ++ "    logo.png" ++ Py.nl),
        {| heap := [[(1%nat, "src/main.py")]]; sent := [] |}).
Proof.
  assert (H : Forall (fun item => in_github_dir item = true \/ item_type item <> "dir")
                [ Mock.entry "main.py" "src/main.py" "file";
                  Mock.entry "ci.yml" ".github/workflows/ci.yml" "file";
                  Mock.entry "logo.png" "src/logo.png" "file" ])
    by (repeat (constructor; [first [left; reflexivity | right; discriminate]|]);
        constructor).
  split; [exact H|].
  rewrite (flat_listing_walk _ _ _ _ _ _ H). reflexivity.
Defined.

(** ** Beyond the claims: the response generator of [app.py] *)

Section Generator.

Variable api : App.ChatApi.
Variable prompt : string.

Lemma yielded_nonempty (a : App.Attempt) :
  Forall (fun y => y <> EmptyString) (App.yielded a).
Proof.
  unfold App.yielded. induction (App.chunks a) as [|c cs IH]; [constructor|].
  cbn [omap list_omap]. destruct c as [t|]; cbn [App.chunk_text]; [|exact IH].
  destruct (String.eqb_spec t EmptyString); [exact IH|]. constructor; assumption.
Qed.

(** With fuel for the retries that are left the loop ends: after at least
    one call and at most one more than the retries left, and without ever
    yielding an empty string. *)
Lemma generate_loop_ends (retries : Z) (fuel : nat) :
  forall (attempt : Z) (model : App.chat api),
    (Z.to_nat (retries - attempt) <= fuel)%nat ->
    exists g,
      App.generate_loop api prompt retries attempt fuel model = Some g
      /\ (1 <= App.calls g <= 1 + Z.to_nat (retries - attempt))%nat
      /\ Forall (fun y => y <> EmptyString) (App.output g).
Proof.
  induction fuel as [|fuel IH]; intros attempt model Hfuel.
  - cbn [App.generate_loop].
    destruct (App.send_message api model prompt) as [a model'].
    pose proof (yielded_nonempty a) as Hy.
    destruct (App.failure a) as [[|n m]|].
    + destruct (Z.ltb_spec attempt retries); [lia|].
      eexists. split; [reflexivity|]. cbn. split; [lia|].
      apply Forall_app. split; [exact Hy | repeat constructor; discriminate].
    + eexists. split; [reflexivity|]. cbn. split; [lia|].
      apply Forall_app. split; [exact Hy | repeat constructor; discriminate].
    + eexists. split; [reflexivity|]. cbn. split; [lia | exact Hy].
  - cbn [App.generate_loop].
    destruct (App.send_message api model prompt) as [a model'].
    pose proof (yielded_nonempty a) as Hy.
    destruct (App.failure a) as [[|n m]|].
    + destruct (Z.ltb_spec attempt retries).
      * destruct (IH (attempt + 1) model' ltac:(lia)) as (g & -> & Hcalls & Hout).
        eexists. split; [reflexivity|]. cbn. split; [lia|].
        apply Forall_app. split; assumption.
      * eexists. split; [reflexivity|]. cbn. split; [lia|].
        apply Forall_app. split; [exact Hy | repeat constructor; discriminate].
    + eexists. split; [reflexivity|]. cbn. split; [lia|].
      apply Forall_app. split; [exact Hy | repeat constructor; discriminate].
    + eexists. split; [reflexivity|]. cbn. split; [lia | exact Hy].
Qed.

Lemma generate_response_returns (retries : Z) (model : App.chat api) :
  exists g, App.generate_response api prompt retries model = Some g.
Proof.
  unfold App.generate_response.
  destruct (generate_loop_ends retries (Z.to_nat retries) 0 model ltac:(lia))
    as (g & Hg & _).
  exists g. exact Hg.
Qed.

(** X9.  The generator always ends.  It calls [send_message] at least once and
    at most once more than [retries] (once when [retries] is zero or
    negative), and it never yields an empty string. *)
Theorem generate_response_ends (retries : Z) (model : App.chat api) :
  exists g,
    App.generate_response api prompt retries model = Some g
    /\ (1 <= App.calls g <= 1 + Z.to_nat retries)%nat
    /\ Forall (fun y => y <> EmptyString) (App.output g).
Proof.
  unfold App.generate_response.
  destruct (generate_loop_ends retries (Z.to_nat retries) 0 model ltac:(lia))
    as (g & Hg & Hcalls & Hout).
  exists g. split; [exact Hg|]. split; [|exact Hout].
  replace (retries - 0) with retries in Hcalls by lia. exact Hcalls.
Qed.

(** The loop only looks at the retries that are left. *)
Lemma generate_loop_shift (retries : Z) (fuel : nat) :
  forall (attempt : Z) (model : App.chat api),
    App.generate_loop api prompt retries (attempt + 1) fuel model
    = App.generate_loop api prompt (retries - 1) attempt fuel model.
Proof.
  induction fuel as [|fuel IH]; intros attempt model; cbn [App.generate_loop];
    destruct (App.send_message api model prompt) as [a model'];
    destruct (App.failure a) as [[|n m]|]; try reflexivity.
  - destruct (Z.ltb_spec (attempt + 1) retries), (Z.ltb_spec attempt (retries - 1));
      try lia; reflexivity.
  - destruct (Z.ltb_spec (attempt + 1) retries), (Z.ltb_spec attempt (retries - 1));
      try lia; [|reflexivity].
    now rewrite IH.
Qed.

(** X10.  A retry is a new run with one retry fewer, and what the attempt that
    timed out had already yielded stays in front of it: nothing that was
    streamed is taken back. *)
Theorem generate_response_retry (retries : Z) (model model' : App.chat api)
    (a : App.Attempt) :
  App.send_message api model prompt = (a, model') ->
  App.failure a = Some App.DeadlineExceeded ->
  0 < retries ->
  exists g,
    App.generate_response api prompt (retries - 1) model' = Some g
    /\ App.generate_response api prompt retries model
       = Some {| App.output := (App.yielded a ++ App.output g)%list;
                 App.chat_after := App.chat_after g;
                 App.calls := S (App.calls g) |}.
Proof.
  intros Hsend Hfail Hpos.
  destruct (generate_response_returns (retries - 1) model') as (g & Hg).
  exists g. split; [exact Hg|].
  unfold App.generate_response in *.
  replace (Z.to_nat retries) with (S (Z.to_nat (retries - 1))) by lia.
  cbn [App.generate_loop]. rewrite Hsend, Hfail.
  destruct (Z.ltb_spec 0 retries); [|lia].
  change (0 + 1) with 1. rewrite (generate_loop_shift retries _ 0 model').
  now rewrite Hg.
Qed.

(** X11.  An attempt that does not time out is the last one, whatever [retries]
    is: after a stream that ends, the output is what it delivered; after
    any other failure, the output ends with the error line, and no retry
    is made. *)
Theorem generate_response_first_attempt (retries : Z) (model model' : App.chat api)
    (a : App.Attempt) :
  App.send_message api model prompt = (a, model') ->
  App.failure a <> Some App.DeadlineExceeded ->
  App.generate_response api prompt retries model
  = Some {| App.output :=
              (App.yielded a
               ++ match App.failure a with
                  | Some (App.OtherException type_name message) =>
                      [App.error_message type_name message]
                  | _ => []
                  end)%list;
            App.chat_after := model';
            App.calls := 1 |}.
Proof.
  intros Hsend Hfail. unfold App.generate_response.
  destruct (Z.to_nat retries) as [|fuel]; cbn [App.generate_loop]; rewrite Hsend;
    destruct (App.failure a) as [[|type_name message]|]; try congruence;
    now rewrite ?app_nil_r.
Qed.

(** X12.  When every attempt times out, [send_message] is called once more
    than [retries], and the output is what the attempts delivered, one
    after the other, followed by the timeout message. *)
Theorem generate_response_all_time_out (retries : Z) (model : App.chat api) :
  Forall (fun a => App.failure a = Some App.DeadlineExceeded)
    (App.attempts api prompt (S (Z.to_nat retries)) model) ->
  exists g,
    App.generate_response api prompt retries model = Some g
    /\ App.calls g = S (Z.to_nat retries)
    /\ App.output g
       = (flat_map App.yielded (App.attempts api prompt (S (Z.to_nat retries)) model)
          ++ [App.timeout_message])%list.
Proof.
  unfold App.generate_response.
  assert (H : forall fuel attempt model,
             fuel = Z.to_nat (retries - attempt) ->
             Forall (fun a => App.failure a = Some App.DeadlineExceeded)
               (App.attempts api prompt (S fuel) model) ->
             exists g,
               App.generate_loop api prompt retries attempt fuel model = Some g
               /\ App.calls g = S fuel
               /\ App.output g
                  = (flat_map App.yielded (App.attempts api prompt (S fuel) model)
                     ++ [App.timeout_message])%list).
  { clear model. induction fuel as [|fuel IH]; intros attempt model Hfuel Hall.
    - cbn [App.generate_loop App.attempts] in *.
      destruct (App.send_message api model prompt) as [a model'].
      inversion Hall as [|? ? Ha _]; subst. rewrite Ha.
      destruct (Z.ltb_spec attempt retries); [lia|].
      eexists. split; [reflexivity|]. cbn. split; [reflexivity|].
      now rewrite app_nil_r.
    - cbn [App.generate_loop]. change (App.attempts api prompt (S (S fuel)) model)
        with (let '(a, model') := App.send_message api model prompt in
              a :: App.attempts api prompt (S fuel) model') in *.
      destruct (App.send_message api model prompt) as [a model'].
      inversion Hall as [|? ? Ha Hrest]; subst. rewrite Ha.
      destruct (Z.ltb_spec attempt retries); [|lia].
      destruct (IH (attempt + 1) model' ltac:(lia) Hrest) as (g & -> & Hcalls & Hout).
      eexists. split; [reflexivity|]. cbn [App.calls App.output flat_map].
      split; [now rewrite Hcalls|]. rewrite Hout. now rewrite app_assoc. }
  intros Hall. apply (H (Z.to_nat retries) 0 model); [f_equal; lia | exact Hall].
Qed.

End Generator.

(** ** Beyond the claims: a run of the script of [app.py] *)

Section Script.

Variable api : App.ChatApi.
Variable cfg : App.Config.
Variable w : World.

(** X13.  The snapshot is fetched when the API key is set, the URL box holds
    [github.com] somewhere and the session has no snapshot yet, and only
    then: in every other case no request is sent and the snapshot stored
    stays the same.  When it is fetched, it is with the token of the
    configuration and the budgets 80, 15000 and 200000; a failure ends
    the run and leaves the session as it was, so the next run tries
    again; a success stores the text. *)
Theorem run_fetches_only_when_needed (github_url : string) (chat_input : option string)
    (interrupt : option (App.chat api)) (s : App.Session api) (st : State) :
  let r := App.run api cfg w github_url chat_input interrupt s st in
  let build :=
    retrieve_github_repo_info w github_url (App.GITHUB_TOKEN cfg) 80 15000 200000 st in
  (truthy (App.GOOGLE_API_KEY cfg) = false
   \/ App.str_contains "github.com" github_url = false
   \/ App.repo s <> None ->
   snd r = st
   /\ option_map fst (App.repo (App.session (fst r))) = option_map fst (App.repo s))
  /\ (truthy (App.GOOGLE_API_KEY cfg) = true ->
      App.str_contains "github.com" github_url = true ->
      App.repo s = None ->
      snd r = snd build
      /\ match fst build with
         | Raise e =>
             fst r = {| App.ending := App.BuildFailed e; App.session := s;
                        App.shown := [] |}
         | Ok text =>
             exists model, App.repo (App.session (fst r)) = Some (text, model)
         end).
Proof.
  cbv zeta. unfold App.run. split.
  - intros Hcase.
    destruct (truthy (App.GOOGLE_API_KEY cfg)); cbn [negb]; [|now split].
    destruct (App.str_contains "github.com" github_url); cbn [negb]; [|now split].
    destruct Hcase as [Hk|[Hu|Hr]]; try discriminate.
    destruct (App.repo s) as [[text model]|]; [|congruence].
    destruct (App.last_message _) as [m|]; [|now split].
    destruct (String.eqb (App.role m) "assistant"); [now split|].
    destruct interrupt as [model'|]; [now split|].
    destruct (App.generate_response api _ 1 model); now split.
  - intros -> -> ->. cbn [negb].
    destruct (retrieve_github_repo_info w github_url (App.GITHUB_TOKEN cfg)
                80 15000 200000 st) as [[text|e] st']; cbn [fst snd]; [|now split].
    destruct (App.last_message _) as [m|]; [|split; [reflexivity | eexists; reflexivity]].
    destruct (String.eqb (App.role m) "assistant");
      [split; [reflexivity | eexists; reflexivity]|].
    destruct interrupt as [model'|]; [split; [reflexivity | eexists; reflexivity]|].
    destruct (App.generate_response api _ 1 _);
      split; first [reflexivity | eexists; reflexivity].
Qed.

Lemma last_message_snoc (l : list App.Message) (m : App.Message) :
  App.last_message (l ++ [m]) = Some m.
Proof. unfold App.last_message. rewrite map_app. cbn [map]. apply last_last. Qed.

Lemma last_message_None (l : list App.Message) :
  App.last_message l = None -> l = [].
Proof.
  destruct l as [|m l] using rev_ind; [reflexivity|].
  rewrite last_message_snoc. discriminate.
Qed.

(** A conversation ends with a message of the assistant. *)
Lemma conversation_last (l : list App.Message) :
  App.conversation l ->
  exists m, App.last_message l = Some m /\ App.role m = "assistant".
Proof.
  intros [turns ->]. destruct turns as [|[q a] turns _] using rev_ind.
  - exists App.greeting. split; reflexivity.
  - exists {| App.role := "assistant"; App.content := a |}. split; [|reflexivity].
    assert (E : App.greeting :: flat_map App.exchange (turns ++ [(q, a)])
                = ((App.greeting :: flat_map App.exchange turns
                    ++ [{| App.role := "user"; App.content := q |}])
                   ++ [{| App.role := "assistant"; App.content := a |}])%list).
    { rewrite flat_map_app. cbn [flat_map App.exchange fst snd].
      rewrite app_nil_r. cbn [app]. now rewrite <- app_assoc. }
    rewrite E. apply last_message_snoc.
Qed.

Lemma conversation_exchange (l : list App.Message) (q a : string) :
  App.conversation l -> App.conversation (l ++ App.exchange (q, a))%list.
Proof.
  intros [turns ->]. exists (turns ++ [(q, a)])%list.
  rewrite flat_map_app. cbn [flat_map]. now rewrite app_nil_r.
Qed.

(** X14.  A run, left to complete, on a session that holds a snapshot and a
    conversation.  When a prompt is submitted, the generator is started
    once, with one retry: the question is the prompt followed by the
    whole snapshot, [send_message] is called once with it, and a second
    time exactly when the first attempt times out; exactly one exchange
    is added to the conversation, the prompt and the concatenation of
    what the generator yielded, and the run displays the conversation as
    it is stored afterwards.  When nothing is submitted, the model is not
    called and the conversation is displayed and left as it is.  Neither
    run sends a request to the hosting API. *)
Theorem run_adds_one_exchange (github_url prompt text : string)
    (model : App.chat api) (s : App.Session api) (st : State) :
  truthy (App.GOOGLE_API_KEY cfg) = true ->
  App.str_contains "github.com" github_url = true ->
  App.repo s = Some (text, model) ->
  App.conversation (default [App.greeting] (App.messages s)) ->
  prompt <> EmptyString ->
  let stored := default [App.greeting] (App.messages s) in
  let question :=
    prompt ++ Py.nl ++ Py.nl ++ "[Repository context follows]" ++ Py.nl ++ text in
  (exists g,
     App.generate_response api question 1 model = Some g
     /\ App.calls g
        = match App.failure (fst (App.send_message api model question)) with
          | Some App.DeadlineExceeded => 2%nat
          | _ => 1%nat
          end
     /\ App.run api cfg w github_url (Some prompt) None s st
        = ({| App.ending := App.Finished;
              App.session :=
                {| App.repo := Some (text, App.chat_after g);
                   App.messages :=
                     Some (stored
                           ++ App.exchange (prompt, concat_all (App.output g)))%list |};
              App.shown :=
                (stored ++ App.exchange (prompt, concat_all (App.output g)))%list |},
           st))
  /\ (forall interrupt,
        App.run api cfg w github_url None interrupt s st
        = ({| App.ending := App.Finished;
              App.session := {| App.repo := Some (text, model);
                                App.messages := Some stored |};
              App.shown := stored |}, st)).
Proof.
  intros Hkey Hurl Hrepo Hconv Hprompt stored question.
  assert (Hstored : match App.messages s with Some l => l | None => [App.greeting] end
                    = stored) by (subst stored; now destruct (App.messages s)).
  split.
  - assert (Hgen : exists g,
               App.generate_response api question 1 model = Some g
               /\ App.calls g
                  = match App.failure (fst (App.send_message api model question)) with
                    | Some App.DeadlineExceeded => 2%nat
                    | _ => 1%nat
                    end).
    { unfold App.generate_response. change (Z.to_nat 1) with 1%nat.
      cbn [App.generate_loop].
      destruct (App.send_message api model question) as [a model']. cbn [fst].
      destruct (App.failure a) as [[|type_name message]|];
        [|eexists; split; reflexivity..].
      change (0 <? 1) with true. cbv iota.
      destruct (App.send_message api model' question) as [a' model''].
      destruct (App.failure a') as [[|type_name message]|];
        eexists; split; reflexivity. }
    destruct Hgen as (g & Hg & Hcalls).
    exists g. split; [exact Hg|]. split; [exact Hcalls|].
    unfold App.run. rewrite Hkey, Hurl, Hrepo. cbn [negb]. rewrite Hstored.
    assert (Htruthy : truthy (Some prompt) = true).
    { cbn. destruct (String.eqb_spec prompt EmptyString); [congruence | reflexivity]. }
    rewrite Htruthy, last_message_snoc. cbn [App.role String.eqb Ascii.eqb default].
    change (App.question (Some prompt) text) with question.
    rewrite Hg. cbn [default]. unfold App.exchange. cbn [fst snd].
    now rewrite <- !app_assoc.
  - intros interrupt.
    unfold App.run. rewrite Hkey, Hurl, Hrepo. cbn [negb truthy]. rewrite Hstored.
    destruct (conversation_last stored Hconv) as (m & -> & ->). reflexivity.
Qed.

(** X15.  A run always comes to an end.  It ends with the [IndexError] of
    [messages[-1]] only when the stored list of messages is empty and
    nothing is submitted, and whenever it reaches its last line the
    messages it has displayed are the messages it leaves stored. *)
Theorem run_ends (github_url : string) (chat_input : option string)
    (interrupt : option (App.chat api)) (s : App.Session api) (st : State) :
  let r := fst (App.run api cfg w github_url chat_input interrupt s st) in
  App.ending r <> App.Unended
  /\ (App.ending r = App.IndexError ->
      App.messages s = Some [] /\ truthy chat_input = false)
  /\ (App.ending r = App.Finished ->
      App.messages (App.session r) = Some (App.shown r)).
Proof.
  cbv zeta. unfold App.run.
  destruct (truthy (App.GOOGLE_API_KEY cfg)); cbn [negb fst];
    [|repeat split; discriminate].
  destruct (App.str_contains "github.com" github_url); cbn [negb fst];
    [|repeat split; discriminate].
  destruct (App.repo s) as [[text model]|];
    [|destruct (retrieve_github_repo_info w github_url _ 80 15000 200000 st)
        as [[text|e] st']; [|repeat split; discriminate]].
  all: destruct (App.last_message _) as [m|] eqn:Hlast.
  1, 3: destruct (String.eqb (App.role m) "assistant"); [repeat split; discriminate|].
  1, 2: destruct interrupt as [model'|]; [repeat split; discriminate|].
  1, 2: match goal with
        | |- context [App.generate_response api ?q 1 ?mdl] =>
            destruct (generate_response_returns api q 1 mdl) as (g & ->)
        end; repeat split; discriminate.
  all: cbn [fst App.ending]; split; [discriminate|]; split; [|discriminate].
  all: intros _; apply last_message_None in Hlast.
  all: destruct (truthy chat_input);
    [destruct (match App.messages s with Some l => l | None => [App.greeting] end);
       discriminate Hlast
    |destruct (App.messages s) as [l|]; [now subst | discriminate Hlast]].
Qed.

(** One run that is left to complete keeps the stored messages a
    conversation. *)
Lemma run_keeps_conversation (github_url : string) (chat_input : option string)
    (s : App.Session api) (st : State) :
  App.conversation (default [App.greeting] (App.messages s)) ->
  App.conversation
    (default [App.greeting]
       (App.messages
          (App.session (fst (App.run api cfg w github_url chat_input None s st))))).
Proof.
  intros Hconv. unfold App.run.
  destruct (truthy (App.GOOGLE_API_KEY cfg)); cbn [negb fst]; [|exact Hconv].
  destruct (App.str_contains "github.com" github_url); cbn [negb fst]; [|exact Hconv].
  destruct (App.repo s) as [[text model]|];
    [|destruct (retrieve_github_repo_info w github_url _ 80 15000 200000 st)
        as [[text|e] st']; [|exact Hconv]].
  all: assert (Hstored : match App.messages s with Some l => l | None => [App.greeting] end
                    = default [App.greeting] (App.messages s))
    by (now destruct (App.messages s)).
  all: rewrite Hstored; set (stored := default [App.greeting] (App.messages s)) in *.
  all: destruct (truthy chat_input) eqn:Htruthy;
    [|destruct (conversation_last stored Hconv) as (m & -> & ->); exact Hconv].
  all: rewrite last_message_snoc; cbn [App.role String.eqb Ascii.eqb].
  all: match goal with
       | |- context [App.generate_response api ?q 1 ?mdl] =>
           destruct (generate_response_returns api q 1 mdl) as (g & ->)
       end.
  all: cbn [fst App.session App.messages default]; rewrite <- app_assoc.
  all: apply (conversation_exchange stored (default EmptyString chat_input)
                (concat_all (App.output g)) Hconv).
Qed.

(** X16.  As long as no run is stopped while its answer is being produced,
    the stored messages stay a conversation: after any number of runs
    from a new session, with any URL texts and any submitted prompts,
    they are the greeting followed by questions of the user and answers
    of the assistant in turn.  A stopped run breaks the alternation: when
    a run with a prompt is stopped after storing it and the next run
    submits another prompt, the two prompts are stored one after the
    other and one answer follows them. *)
Theorem conversation_alternates
    (inputs : list (string * option string * option (App.chat api))) (st : State) :
  (Forall (fun input => snd input = None) inputs ->
   App.conversation
     (default [App.greeting]
        (App.messages (fst (App.run_all api cfg w inputs (App.new_session api) st)))))
  /\ (forall (github_url first second text : string) (model model' : App.chat api)
             (s : App.Session api),
        truthy (App.GOOGLE_API_KEY cfg) = true ->
        App.str_contains "github.com" github_url = true ->
        App.repo s = Some (text, model) ->
        first <> EmptyString ->
        second <> EmptyString ->
        exists answer,
          App.messages
            (fst (App.run_all api cfg w
                    [ (github_url, Some first, Some model');
                      (github_url, Some second, None) ] s st))
          = Some (default [App.greeting] (App.messages s)
                  ++ [ {| App.role := "user"; App.content := first |};
                       {| App.role := "user"; App.content := second |};
                       {| App.role := "assistant"; App.content := answer |} ])%list).
Proof.
  split.
  - assert (H : forall inputs s st,
               Forall (fun input => snd input = None) inputs ->
               App.conversation (default [App.greeting] (App.messages s)) ->
               App.conversation
                 (default [App.greeting]
                    (App.messages (fst (App.run_all api cfg w inputs s st))))).
    { clear. intros inputs.
      induction inputs as [|[[github_url chat_input] interrupt] later IH];
        intros s st Hall Hconv; [exact Hconv|].
      inversion Hall as [|? ? Hnone Hlater]; subst. cbn [snd] in Hnone. subst interrupt.
      cbn [App.run_all].
      pose proof (run_keeps_conversation github_url chat_input s st Hconv) as Hstep.
      destruct (App.run api cfg w github_url chat_input None s st) as [r st'].
      now apply IH. }
    intros Hall. apply H; [exact Hall|]. exists []. reflexivity.
  - intros github_url first second text model model' s Hkey Hurl Hrepo Hfirst Hsecond.
    assert (Hstopped :
              App.run api cfg w github_url (Some first) (Some model') s st
              = ({| App.ending := App.Interrupted;
                    App.session :=
                      {| App.repo := Some (text, model');
                         App.messages :=
                           Some (default [App.greeting] (App.messages s)
                                 ++ [{| App.role := "user";
                                        App.content := first |}])%list |};
                    App.shown := default [App.greeting] (App.messages s) |}, st)).
    { unfold App.run. rewrite Hkey, Hurl, Hrepo. cbn [negb].
      assert (Htruthy : truthy (Some first) = true).
      { cbn. destruct (String.eqb_spec first EmptyString); [congruence | reflexivity]. }
      rewrite Htruthy, last_message_snoc. cbn [App.role String.eqb Ascii.eqb default].
      now destruct (App.messages s). }
    cbn [App.run_all]. rewrite Hstopped. cbn [App.session].
    set (stored := default [App.greeting] (App.messages s)).
    unfold App.run. rewrite Hkey, Hurl. cbn [negb App.repo App.messages].
    assert (Htruthy : truthy (Some second) = true).
    { cbn. destruct (String.eqb_spec second EmptyString); [congruence | reflexivity]. }
    rewrite Htruthy, last_message_snoc. cbn [App.role String.eqb Ascii.eqb default].
    match goal with
    | |- context [App.generate_response api ?q 1 ?mdl] =>
        destruct (generate_response_returns api q 1 mdl) as (g & ->)
    end.
    exists (concat_all (App.output g)). cbn [fst App.session App.messages].
    now rewrite <- !app_assoc.
Qed.

(** X17.  When the stored messages end with a message of the user and nothing
    is submitted, the model is asked all the same, and the question is
    the text [None] followed by the snapshot: the answer is added to the
    messages, and the earlier question of the user is not sent again. *)
Theorem run_asks_none (github_url text : string) (model : App.chat api)
    (s : App.Session api) (st : State) (l : list App.Message) (m : App.Message) :
  truthy (App.GOOGLE_API_KEY cfg) = true ->
  App.str_contains "github.com" github_url = true ->
  App.repo s = Some (text, model) ->
  App.messages s = Some l ->
  App.last_message l = Some m ->
  App.role m <> "assistant" ->
  exists g,
    App.generate_response api
      ("None" ++ Py.nl ++ Py.nl ++ "[Repository context follows]" ++ Py.nl ++ text)
      1 model = Some g
    /\ App.messages (App.session (fst (App.run api cfg w github_url None None s st)))
       = Some (l ++ [{| App.role := "assistant";
                        App.content := concat_all (App.output g) |}])%list.
Proof.
  intros Hkey Hurl Hrepo Hmsgs Hlast Hrole.
  destruct (generate_response_returns api
              ("None" ++ Py.nl ++ Py.nl ++ "[Repository context follows]" ++ Py.nl ++ text)
              1 model) as (g & Hg).
  exists g. split; [exact Hg|].
  unfold App.run. rewrite Hkey, Hurl, Hrepo, Hmsgs. cbn [negb truthy]. rewrite Hlast.
  destruct (String.eqb_spec (App.role m) "assistant"); [contradiction|].
  change (App.question None text)
    with ("None" ++ Py.nl ++ Py.nl ++ "[Repository context follows]" ++ Py.nl ++ text).
  now rewrite Hg.
Qed.

End Script.

(** A first attempt that times out after [Hel], and a second that
    delivers [Hello], an empty chunk and [ world]. *)
Lemma generate_response_retry_witness :
  (App.send_message App.retrying O "What is this?" = (App.timed_out ["Hel"], 1%nat)
   /\ App.failure (App.timed_out ["Hel"]) = Some App.DeadlineExceeded
   /\ 0 < 1)
  /\ App.generate_response App.retrying "What is this?" 1 O
     = Some (App.Build_Generated App.retrying ["Hel"; "Hello"; " world"] 2%nat 2).
Proof.
  split; [repeat split; lia|].
  destruct (generate_response_retry App.retrying "What is this?" 1 O 1%nat
              (App.timed_out ["Hel"]) eq_refl eq_refl ltac:(lia))
    as (g & Hg & Hrun).
  rewrite Hrun. vm_compute in Hg. injection Hg as <-. reflexivity.
Defined.

Lemma generate_response_first_attempt_witness :
  (App.send_message App.prompt_model O "What is this?"
   = (App.answer ["A "; "repo."], 1%nat)
   /\ App.failure (App.answer ["A "; "repo."]) <> Some App.DeadlineExceeded)
  /\ App.generate_response App.prompt_model "What is this?" 5 O
     = Some (App.Build_Generated App.prompt_model ["A "; "repo."] 1%nat 1).
Proof.
  split; [split; [reflexivity | discriminate]|].
  rewrite (generate_response_first_attempt App.prompt_model "What is this?" 5 O 1%nat
             (App.answer ["A "; "repo."]) eq_refl ltac:(discriminate)).
  reflexivity.
Defined.

Lemma generate_response_all_time_out_witness :
  Forall (fun a => App.failure a = Some App.DeadlineExceeded)
    (App.attempts App.stalling "What is this?" 2 O)
  /\ exists g,
       App.generate_response App.stalling "What is this?" 1 O = Some g
       /\ App.calls g = 2%nat
       /\ App.output g = ["Hel"; "He"; App.timeout_message].
Proof.
  assert (H : Forall (fun a => App.failure a = Some App.DeadlineExceeded)
                (App.attempts App.stalling "What is this?" 2 O))
    by (repeat constructor).
  split; [exact H|].
  destruct (generate_response_all_time_out App.stalling "What is this?" 1 O H)
    as (g & Hg & Hcalls & Hout).
  exists g. split; [exact Hg|]. split; [exact Hcalls | exact Hout].
Defined.

Lemma run_adds_one_exchange_witness :
  (truthy (App.GOOGLE_API_KEY App.config) = true
   /\ App.str_contains "github.com" Mock.url = true
   /\ "What is this?" <> "")
  /\ App.run App.prompt_model App.config Mock.widgets Mock.url (Some "What is this?") None
       (App.Build_Session App.prompt_model (Some ("snapshot", O)) None) initial_state
     = (App.Build_Run App.prompt_model App.Finished
          (App.Build_Session App.prompt_model (Some ("snapshot", 1%nat))
             (Some [ App.greeting;
                     {| App.role := "user"; App.content := "What is this?" |};
                     {| App.role := "assistant"; App.content := "A repo." |} ]))
          [ App.greeting;
            {| App.role := "user"; App.content := "What is this?" |};
            {| App.role := "assistant"; App.content := "A repo." |} ],
        initial_state).
Proof.
  split; [repeat split; discriminate|].
  destruct (run_adds_one_exchange App.prompt_model App.config
              Mock.widgets Mock.url "What is this?" "snapshot" O
              (App.Build_Session App.prompt_model (Some ("snapshot", O)) None)
              initial_state
              eq_refl eq_refl eq_refl (ex_intro _ [] eq_refl) ltac:(discriminate))
    as [(g & Hg & _ & Hrun) _].
  rewrite Hrun. vm_compute in Hg. injection Hg as <-. reflexivity.
Defined.

(** The same run with a model whose first attempt times out: the
    generator calls [send_message] twice, and what the first attempt had
    delivered stays in the answer. *)
Example run_with_retry :
  App.generate_response App.retrying
    ("What is this?" ++ Py.nl ++ Py.nl ++ "[Repository context follows]" ++ Py.nl
     ++ "snapshot") 1 O
  = Some (App.Build_Generated App.retrying ["Hel"; "Hello"; " world"] 2%nat 2)
  /\ App.run App.retrying App.config Mock.widgets Mock.url (Some "What is this?") None
       (App.Build_Session App.retrying (Some ("snapshot", O)) None) initial_state
     = (App.Build_Run App.retrying App.Finished
          (App.Build_Session App.retrying (Some ("snapshot", 2%nat))
             (Some [ App.greeting;
                     {| App.role := "user"; App.content := "What is this?" |};
                     {| App.role := "assistant"; App.content := "HelHello world" |} ]))
          [ App.greeting;
            {| App.role := "user"; App.content := "What is this?" |};
            {| App.role := "assistant"; App.content := "HelHello world" |} ],
        initial_state).
Proof. split; reflexivity. Qed.

(** A run stopped after the prompt [What?] was stored, and then a run
    with the prompt [Why?]: the two prompts are stored one after the
    other. *)
Lemma conversation_alternates_witness :
  App.messages
    (fst (App.run_all App.prompt_model App.config Mock.widgets
            [ (Mock.url, Some "What?", Some O); (Mock.url, Some "Why?", None) ]
            (App.Build_Session App.prompt_model (Some ("snapshot", O)) None)
            initial_state))
  = Some [ App.greeting;
           {| App.role := "user"; App.content := "What?" |};
           {| App.role := "user"; App.content := "Why?" |};
           {| App.role := "assistant"; App.content := "A repo." |} ].
Proof.
  destruct (proj2 (conversation_alternates App.prompt_model App.config Mock.widgets
                     [] initial_state)
              Mock.url "What?" "Why?" "snapshot" O O
              (App.Build_Session App.prompt_model (Some ("snapshot", O)) None)
              eq_refl eq_refl eq_refl ltac:(discriminate) ltac:(discriminate))
    as [answer H].
  pose proof H as H'. vm_compute in H'. injection H' as <-.
  etransitivity; [exact H | reflexivity].
Defined.

Lemma run_asks_none_witness :
  (App.last_message [ App.greeting; {| App.role := "user"; App.content := "Why?" |} ]
   = Some {| App.role := "user"; App.content := "Why?" |}
   /\ "user" <> "assistant")
  /\ exists g,
       App.generate_response App.prompt_model
         ("None" ++ Py.nl ++ Py.nl ++ "[Repository context follows]" ++ Py.nl ++ "snapshot")
         1 O = Some g
       /\ App.messages
            (App.session
               (fst (App.run App.prompt_model App.config Mock.widgets Mock.url None None
                       (App.Build_Session App.prompt_model (Some ("snapshot", O))
                          (Some [ App.greeting;
                                  {| App.role := "user"; App.content := "Why?" |} ]))
                       initial_state)))
          = Some ([ App.greeting; {| App.role := "user"; App.content := "Why?" |} ]
                  ++ [{| App.role := "assistant";
                         App.content := concat_all (App.output g) |}])%list.
Proof.
  split; [split; [reflexivity | discriminate]|].
  apply (run_asks_none App.prompt_model App.config Mock.widgets
           Mock.url "snapshot" O _ initial_state _
           {| App.role := "user"; App.content := "Why?" |});
    first [reflexivity | discriminate].
Defined.

(** ** Beyond the claims: a URL without its scheme *)

Lemma split_scheme_none (p : string) :
  Urllib.split_scheme ("github.com/" ++ p) = (EmptyString, "github.com/" ++ p).
Proof.
  unfold Urllib.split_scheme.
  assert (Hf : Py.find ":" ("github.com/" ++ p)
               = match Py.find ":" p with
                 | Some i => Some (11 + i)%nat
                 | None => None
                 end).
  { cbn. destruct (Py.find ":" p); reflexivity. }
  rewrite Hf. destruct (Py.find ":" p) as [i|]; [|reflexivity].
  cbn [Nat.add append].
  match goal with
  | |- (if _ && ?b then _ else _) = _ => replace b with false; [reflexivity|]
  end.
  cbn [Py.take Py.all_chars]. vm_compute. reflexivity.
Qed.

Lemma urlparse_no_scheme (p : string) :
  Py.all_chars url_char p = true ->
  Urllib.urlparse ("github.com/" ++ p)
  = Ok {| Urllib.scheme := EmptyString; Urllib.netloc := EmptyString;
          Urllib.path := "github.com/" ++ p; Urllib.params := EmptyString;
          Urllib.query := EmptyString; Urllib.fragment := EmptyString |}.
Proof.
  intros Hp. unfold Urllib.urlparse.
  change (Py.lstrip_while Urllib.c0_control_or_space ("github.com/" ++ p))
    with ("github.com/" ++ p).
  rewrite filter_chars_id.
  2:{ rewrite all_chars_app. apply andb_true_iff. split; [reflexivity|].
      revert Hp. apply all_chars_impl. intros a Ha. unfold url_char in Ha.
      now apply andb_true_iff in Ha. }
  rewrite split_scheme_none. cbv beta iota.
  change (Py.startswith "//" ("github.com/" ++ p)) with false.
  cbv beta iota.
  change (Py.has_char "[" "" && negb (Py.has_char "]" "")
          || Py.has_char "]" "" && negb (Py.has_char "[" "")) with false.
  cbv beta iota.
  assert (Hno : forall c, Py.has_char c "?#;" = true ->
                          Py.has_char c "github.com/" = false ->
                          Py.has_char c ("github.com/" ++ p) = false).
  { intros c Hc Hlit. rewrite has_char_app, Hlit. now apply url_char_absent. }
  unfold Urllib.split_at.
  rewrite (find_absent "#") by (apply Hno; reflexivity). cbv iota beta.
  rewrite (find_absent "?") by (apply Hno; reflexivity). cbv iota beta.
  rewrite (Hno ";"%char) by reflexivity. rewrite andb_false_r. reflexivity.
Qed.

Lemma rstrip_app_keep (c : ascii) (a t : string) :
  t <> EmptyString -> Py.rstrip c t = t -> Py.rstrip c (a ++ t) = a ++ t.
Proof.
  intros Hne Ht. rewrite rstrip_app, Ht. destruct t; [congruence | reflexivity].
Qed.

(** X18.  A URL typed without [https://] has no host for [urlparse]: the host
    name is the first segment of the path.  Such a URL passes the test of
    the page for [github.com], and the parser returns the host name as
    the owner and the owner as the repository. *)
Theorem scheme_less_url_shifts_names (owner repo : string) :
  owner <> EmptyString ->
  repo <> EmptyString ->
  Py.all_chars segment_char owner = true ->
  Py.all_chars segment_char repo = true ->
  Py.endswith owner ".git" = false ->
  App.str_contains "github.com" ("github.com/" ++ owner ++ "/" ++ repo) = true
  /\ parse_github_url ("github.com/" ++ owner ++ "/" ++ repo) = Ok ("github.com", owner).
Proof.
  intros Ho Hr Hoc Hrc Hgit. split; [reflexivity|].
  pose proof (segment_char_no_slash _ Hoc) as Hos.
  pose proof (segment_char_no_slash _ Hrc) as Hrs.
  unfold parse_github_url. rewrite urlparse_no_scheme.
  2:{ rewrite !all_chars_app, (segment_char_url_char _ Hoc), (segment_char_url_char _ Hrc).
      reflexivity. }
  cbn [Urllib.path].
  assert (Hstrip : Py.strip "/" ("github.com/" ++ owner ++ "/" ++ repo)
                   = "github.com" ++ "/" ++ owner ++ "/" ++ repo).
  { unfold Py.strip.
    change (Py.lstrip "/" ("github.com/" ++ owner ++ "/" ++ repo))
      with ("github.com/" ++ (owner ++ "/" ++ repo)).
    assert (Hne : forall a b, b <> EmptyString -> a ++ "/" ++ b <> EmptyString)
      by (intros a b _; destruct a; discriminate).
    rewrite rstrip_app_keep; [reflexivity | now apply Hne |].
    apply rstrip_app_keep; [destruct repo; [congruence | discriminate]|].
    apply rstrip_app_keep; [assumption | now apply rstrip_id]. }
  rewrite Hstrip.
  change ("github.com" ++ "/" ++ owner ++ "/" ++ repo)
    with ("github.com" ++ String "/" (owner ++ "/" ++ repo)).
  rewrite split_app_separator by reflexivity.
  rewrite split_of_two by assumption.
  cbn [length Nat.leb nth]. now rewrite Hgit.
Qed.

Lemma scheme_less_url_shifts_names_witness :
  ("acme" <> "" /\ "widgets" <> ""
   /\ Py.all_chars segment_char "acme" = true
   /\ Py.all_chars segment_char "widgets" = true
   /\ Py.endswith "acme" ".git" = false)
  /\ parse_github_url "github.com/acme/widgets" = Ok ("github.com", "acme").
Proof.
  split; [repeat split; discriminate|].
  apply (scheme_less_url_shifts_names "acme" "widgets");
    first [discriminate | reflexivity].
Defined.

(** ** Beyond the claims: sizes and requests *)

Lemma len_repeat (s : string) (n : nat) :
  Py.len (Py.repeat s n) = Z.of_nat n * Py.len s.
Proof.
  induction n as [|n IH]; [reflexivity|].
  cbn [Py.repeat]. rewrite len_append, IH. lia.
Qed.

(** X19.  The size of a file block: twelve characters of fences, colon and
    line ends, the path, the content and three times the indentation.
    With a non-negative [max_file_chars] the content of a block is at
    most [max_file_chars] characters plus the 17 of the marker, and it is
    exactly that long whenever the body was cut: a body up to 16
    characters over the budget grows by being truncated.  With a negative
    [max_file_chars] every body is cut, by that many characters from its
    end, and marked. *)
Theorem block_size (max_file_chars : Z) (indent : nat) (path body : string) :
  Py.len (snippet_of indent path (truncate max_file_chars body))
  = 12 * Z.of_nat indent + Py.len path + Py.len (truncate max_file_chars body) + 12
  /\ (0 <= max_file_chars ->
      Py.len (truncate max_file_chars body) <= max_file_chars + 17
      /\ (max_file_chars < Py.len body ->
          Py.len (truncate max_file_chars body) = max_file_chars + 17))
  /\ (max_file_chars < 0 ->
      truncate max_file_chars body
      = Py.take (Z.to_nat (Py.len body + max_file_chars)) body ++ truncation_marker).
Proof.
  split; [|split].
  - unfold snippet_of. rewrite !len_append, !len_repeat.
    change (Py.len Py.nl) with 1. change (Py.len "    ") with 4.
    change (Py.len ":") with 1. change (Py.len "```") with 3. lia.
  - intros H0. unfold truncate.
    destruct (Z.gtb_spec (Py.len body) max_file_chars) as [Hgt|Hle].
    + rewrite len_append, len_slice_to by lia.
      change (Py.len truncation_marker) with 17. split; [lia | reflexivity].
    + split; lia.
  - intros Hneg. unfold truncate, Py.slice_to.
    pose proof (len_nonneg body).
    destruct (Z.gtb_spec (Py.len body) max_file_chars); [|lia].
    destruct (Z.leb_spec 0 max_file_chars); [lia | reflexivity].
Qed.

(** X20.  [max_files] counts the files embedded, not the files requested: when
    no candidate can be fetched or decoded, every one of them is
    requested, in order, however small [max_files] is, as long as one
    file is allowed and the cap is not met; the text stays as it was. *)
Theorem failing_candidates_are_all_requested (w : World) (owner repo : string)
    (token : option string) (max_files max_file_chars total_chars_cap : Z)
    (file_paths : list Candidate) (formatted_string : string) (st : State) :
  Forall (fun c => fetchable w owner repo token max_file_chars c = false) file_paths ->
  0 < max_files ->
  Py.len formatted_string < total_chars_cap ->
  for_file_paths w owner repo token max_files max_file_chars total_chars_cap
    file_paths formatted_string 0 st
  = (Ok formatted_string,
     {| heap := heap st;
        sent := (sent st
                 ++ map (fun c => fetch_request owner repo (snd c) token) file_paths)%list |}).
Proof.
  intros Hall Hmf Hlen. revert st.
  induction Hall as [|[indent path] file_paths Hc _ IH]; intros st.
  - cbn. unfold ret. destruct st as [h rq]. cbn. now rewrite app_nil_r.
  - rewrite for_file_paths_cons.
    destruct ((0 >=? max_files) || (Py.len formatted_string >=? total_chars_cap)) eqn:G.
    { apply loop_guard_true in G. lia. }
    cbv zeta. unfold fetchable in Hc. cbn [fst snd] in Hc.
    destruct (snippet_result w owner repo token max_file_chars indent path)
      as [snippet|e]; [discriminate Hc|].
    rewrite IH. cbn [logged heap sent map snd]. now rewrite <- app_assoc.
Qed.

Lemma failing_candidates_are_all_requested_witness :
  Forall (fun c => fetchable Mock.widgets "acme" "widgets" None 15000 c = false)
    [ (0%nat, "gone.py"); (1%nat, "src/gone.js") ]
  /\ for_file_paths Mock.widgets "acme" "widgets" None 1 15000 200000
       [ (0%nat, "gone.py"); (1%nat, "src/gone.js") ] "head" 0 initial_state
     = (Ok "head",
        {| heap := [];
           sent := [ fetch_request "acme" "widgets" "gone.py" None;
                     fetch_request "acme" "widgets" "src/gone.js" None ] |}).
Proof.
  assert (H : Forall (fun c => fetchable Mock.widgets "acme" "widgets" None 15000 c = false)
                [ (0%nat, "gone.py"); (1%nat, "src/gone.js") ])
    by (repeat constructor).
  split; [exact H|].
  rewrite (failing_candidates_are_all_requested Mock.widgets "acme" "widgets" None
             1 15000 200000 _ "head" initial_state H ltac:(lia)
             ltac:(vm_compute; reflexivity)).
  reflexivity.
Defined.

(** ** Beyond the claims: the token and the accumulator *)

Lemma for_items_ext (rec1 rec2 : string -> nat -> loc -> M (string * loc)) :
  (forall p i l st, rec1 p i l st = rec2 p i l st) ->
  forall items indent l tree_str st,
    for_items rec1 indent l items tree_str st = for_items rec2 indent l items tree_str st.
Proof.
  intros Hrec items. induction items as [|item rest IH]; intros indent l tree_str st.
  - reflexivity.
  - cbn [for_items]. destruct (in_github_dir item); [apply IH|].
    destruct (String.eqb (item_type item) "dir").
    + unfold bind. rewrite Hrec.
      destruct (rec2 (item_path item) (indent + 1)%nat l st) as [[[sub l']|e] st'];
        [apply IH | reflexivity].
    + unfold bind.
      destruct (Py.endswith_any (item_name item) text_extensions);
        [rewrite list_append_spec | unfold ret]; apply IH.
Qed.

Lemma build_directory_tree_empty_token (w : World) (owner repo : string) (depth : nat) :
  forall path indent file_paths st,
    build_directory_tree w depth owner repo path (Some EmptyString) indent file_paths st
    = build_directory_tree w depth owner repo path None indent file_paths st.
Proof.
  induction depth as [|depth IH]; intros path indent file_paths st; [reflexivity|].
  cbn [build_directory_tree]. unfold bind.
  destruct (match file_paths with Some l => ret l | None => new_list end st)
    as [[l|e] st1]; [|reflexivity].
  change (fetch_repo_content w owner repo path (Some EmptyString))
    with (fetch_repo_content w owner repo path None).
  destruct (fetch_repo_content w owner repo path None st1) as [[v|e] st2]; [|reflexivity].
  destruct (lift (iter_items v) st2) as [[items|e] st3]; [|reflexivity].
  rewrite (for_items_ext _
             (fun path indent file_paths =>
                build_directory_tree w depth owner repo path None indent (Some file_paths)))
    by (intros; apply IH).
  reflexivity.
Qed.

Lemma for_file_paths_empty_token (w : World) (owner repo : string)
    (max_files max_file_chars total_chars_cap : Z) (file_paths : list Candidate) :
  forall formatted_string files_added st,
    for_file_paths w owner repo (Some EmptyString) max_files max_file_chars
      total_chars_cap file_paths formatted_string files_added st
    = for_file_paths w owner repo None max_files max_file_chars
        total_chars_cap file_paths formatted_string files_added st.
Proof.
  induction file_paths as [|[indent path] file_paths IH]; intros fs fa st; [reflexivity|].
  rewrite !for_file_paths_cons.
  change (snippet_result w owner repo (Some EmptyString) max_file_chars indent path)
    with (snippet_result w owner repo None max_file_chars indent path).
  change (fetch_request owner repo path (Some EmptyString))
    with (fetch_request owner repo path None).
  destruct ((fa >=? max_files) || (Py.len fs >=? total_chars_cap)); [reflexivity|].
  cbv zeta. destruct (snippet_result w owner repo None max_file_chars indent path);
    [|apply IH].
  destruct (Py.len fs + Py.len a >? total_chars_cap); [reflexivity | apply IH].
Qed.

(** X21.  A token that is the empty string is no token: the build sends the
    same requests, without an [Authorization] header, and returns the
    same snapshot or raises the same exception as a build without a
    token. *)
Theorem empty_token_is_no_token (w : World) (url : string)
    (max_files max_file_chars total_chars_cap : Z) (st : State) :
  retrieve_github_repo_info w url (Some EmptyString) max_files max_file_chars
    total_chars_cap st
  = retrieve_github_repo_info w url None max_files max_file_chars total_chars_cap st
  /\ forall owner repo path,
       dict_get (req_headers (fetch_request owner repo path (Some EmptyString)))
         "Authorization" = None.
Proof.
  split; [|reflexivity].
  unfold retrieve_github_repo_info, bind.
  destruct (lift (parse_github_url url) st) as [[[owner repo]|e] st0]; [|reflexivity].
  change (readme_section w owner repo (Some EmptyString) max_file_chars)
    with (readme_section w owner repo None max_file_chars).
  destruct (readme_section w owner repo None max_file_chars st0) as [[readme|e] st1];
    [|reflexivity].
  rewrite build_directory_tree_empty_token.
  destruct (build_directory_tree w (recursion_limit w) owner repo EmptyString None 0
              None st1) as [[[tree l]|e] st2]; [|reflexivity].
  destruct (list_read l st2) as [[cands|e] st3]; [|reflexivity].
  apply for_file_paths_empty_token.
Qed.


